(** * TradeSimulator: the decision and scheduling engine, embedded in Rocq

    The development follows the JavaScript sources module by module:
    - [JsNum]    the number type the code computes with;
    - [Utils]    utils.js: [calculateRSI], [calculateATR], [calculateMACD];
    - [AppState] state.js and config.js: the shared state and its patches;
    - [Effects]  errors, promise outcomes and the trace of effects;
    - [Api]      api.js: [fetchWithBackoff], [getIndicators],
                 [placeBracketOrder], [updatePortfolioAndPositions];
    - [Strategy] strategy.js: [runAiDrivenAnalysis], [runScalpingStrategy],
                 [executeTrade];
    - [App]      app.js: [tradeCycle] and [stopBot], with [isMarketOpen];
    - [Data]     data.js: [loadDataFromFile] and the data
                 [saveDataAndSettings] writes.

    Asynchronous functions are written in state-passing style: a function
    takes the application state and the answers of the outside world, and
    returns the new state with the trace of the effects it performed.  One
    invocation runs from start to end without another one interleaving.

    The modules [Observe] and [...Spec] hold the vocabulary of the
    properties and the example data; the modules [...Facts] hold the
    proofs, one per function. *)

From Stdlib Require Import String.
From Stdlib Require Import ZArith QArith Qabs Qround List Bool Arith Lia Lqa.
From Stdlib Require Import Permutation Sorted.
Import ListNotations.

(* ================================================================== *)
(** * JavaScript numbers *)
(* ================================================================== *)

(** A JavaScript number is an IEEE-754 double.  The finite values are
    modelled by exact rationals (rounding error and overflow are not
    modelled); the three special values a division by zero can produce are
    kept, with the IEEE rules for them.  The sign of zero is not tracked:
    every zero is +0.

    So a finite value computed here is the value of the code up to the
    rounding of its operations, and where an intermediate result of the code
    exceeds the largest double the code has an infinity or NaN where a finite
    value stands here.  What is stated of the code and depends on either is
    stated with an explicit tolerance or a bound on the inputs. *)
Module JsNum.

Inductive num : Type :=
| Fin (q : Q)
| PInf
| NInf
| NaN.

Definition of_Z (z : Z) : num := Fin (inject_Z z).
Definition of_nat (n : nat) : num := of_Z (Z.of_nat n).

Definition neg (x : num) : num :=
  match x with
  | Fin q => Fin (- q)
  | PInf => NInf
  | NInf => PInf
  | NaN => NaN
  end.

Definition add (x y : num) : num :=
  match x, y with
  | NaN, _ | _, NaN => NaN
  | Fin a, Fin b => Fin (a + b)
  | PInf, NInf | NInf, PInf => NaN
  | PInf, _ | _, PInf => PInf
  | NInf, _ | _, NInf => NInf
  end.

Definition sub (x y : num) : num := add x (neg y).

(** The infinity whose sign is that of [s] (seen as the sign of a
    product or quotient); [Eq] stands for 0 * infinity. *)
Definition signed_inf (s : comparison) : num :=
  match s with
  | Gt => PInf
  | Lt => NInf
  | Eq => NaN
  end.

Definition flip (s : comparison) : comparison := CompOpp s.

Definition mul (x y : num) : num :=
  match x, y with
  | NaN, _ | _, NaN => NaN
  | Fin a, Fin b => Fin (a * b)
  | Fin a, PInf | PInf, Fin a => signed_inf (a ?= 0)
  | Fin a, NInf | NInf, Fin a => signed_inf (flip (a ?= 0))
  | PInf, PInf | NInf, NInf => PInf
  | PInf, NInf | NInf, PInf => NInf
  end.

Definition div (x y : num) : num :=
  match x, y with
  | NaN, _ | _, NaN => NaN
  | Fin a, Fin b =>
      match b ?= 0 with
      | Eq => signed_inf (a ?= 0)
      | _ => Fin (a / b)
      end
  | Fin _, PInf | Fin _, NInf => Fin 0
  | PInf, Fin b => match b ?= 0 with Lt => NInf | _ => PInf end
  | NInf, Fin b => match b ?= 0 with Lt => PInf | _ => NInf end
  | _, _ => NaN
  end.

(** Comparison; [None] when an operand is NaN, so that every relational
    operator answers false. *)
Definition cmp (x y : num) : option comparison :=
  match x, y with
  | NaN, _ | _, NaN => None
  | Fin a, Fin b => Some (a ?= b)
  | PInf, PInf | NInf, NInf => Some Eq
  | PInf, _ | _, NInf => Some Gt
  | NInf, _ | _, PInf => Some Lt
  end.

Definition ltb (x y : num) : bool :=
  match cmp x y with Some Lt => true | _ => false end.
Definition gtb (x y : num) : bool :=
  match cmp x y with Some Gt => true | _ => false end.
Definition leb (x y : num) : bool :=
  match cmp x y with Some Lt | Some Eq => true | _ => false end.
Definition geb (x y : num) : bool :=
  match cmp x y with Some Gt | Some Eq => true | _ => false end.
(** [===] on numbers. *)
Definition eqb (x y : num) : bool :=
  match cmp x y with Some Eq => true | _ => false end.

(** [Math.abs], [Math.floor], [Math.max]. *)
Definition abs (x : num) : num :=
  match x with
  | Fin q => Fin (Qabs q)
  | PInf | NInf => PInf
  | NaN => NaN
  end.

Definition floor (x : num) : num :=
  match x with
  | Fin q => of_Z (Qfloor q)
  | _ => x
  end.

Definition max2 (x y : num) : num :=
  match cmp x y with
  | None => NaN
  | Some Lt => y
  | Some _ => x
  end.

Definition max3 (x y z : num) : num := max2 (max2 x y) z.

(** Truthiness of a number: 0 and NaN are falsy. *)
Definition truthy (x : num) : bool :=
  match x with
  | Fin q => negb (Qeq_bool q 0)
  | NaN => false
  | _ => true
  end.

(** [x.toFixed(f)], as the number its decimal string denotes: the
    multiple of 10^-f nearest to [x], the larger in magnitude of two equally
    near ones; from 10^21 on the string is that of [x] itself. *)
Definition pow10 (f : nat) : Z := 10 ^ Z.of_nat f.

Definition round_half_away (q : Q) (f : nat) : Q :=
  let n := Qfloor (Qabs q * inject_Z (pow10 f) + (1 # 2)) in
  let v := inject_Z n / inject_Z (pow10 f) in
  match q ?= 0 with Lt => - v | _ => v end.

Definition toFixed (x : num) (f : nat) : num :=
  match x with
  | Fin q =>
      match Qabs q ?= inject_Z (pow10 21) with
      | Lt => Fin (round_half_away q f)
      | _ => Fin q
      end
  | _ => x
  end.

(** Numbers that denote the same value. *)
Definition num_eq (x y : num) : Prop :=
  match x, y with
  | Fin a, Fin b => a == b
  | PInf, PInf | NInf, NInf | NaN, NaN => True
  | _, _ => False
  end.

Definition is_finite (x : num) : Prop :=
  match x with Fin _ => True | _ => False end.

End JsNum.

Export JsNum.

Declare Scope num_scope.
Delimit Scope num_scope with num.
Infix "+" := add : num_scope.
Infix "-" := sub : num_scope.
Infix "*" := mul : num_scope.
Infix "/" := div : num_scope.
Infix "===" := eqb (at level 70, no associativity) : num_scope.
Infix "=~" := num_eq (at level 70, no associativity) : num_scope.

(* ================================================================== *)
(** * utils.js: technical indicators *)
(* ================================================================== *)

Module Utils.

Local Open Scope num_scope.

(** [a[i]] on an array of numbers.  Reading outside the array gives
    [undefined], which every arithmetic operator turns into NaN. *)
Definition get (a : list num) (i : nat) : num := nth i a NaN.

Definition getZ (a : list num) (i : Z) : num :=
  if (i <? 0)%Z then NaN else get a (Z.to_nat i).

(** ** calculateRSI *)

(** The sums are exact: on prices beyond about 2^1000 in magnitude the
    sums of the code overflow, which is not modelled. *)

(** Body of the first loop: [i] runs over 1..period. *)
Definition rsi_seed_step (prices : list num) (acc : num * num) (i : nat)
  : num * num :=
  let '(gains, losses) := acc in
  let diff := get prices i - get prices (i - 1) in
  if geb diff (Fin 0) then (gains + diff, losses) else (gains, losses - diff).

(** Body of the second loop: [i] runs over period+1..length-1. *)
Definition rsi_smooth_step (prices : list num) (period : nat)
    (acc : num * num) (i : nat) : num * num :=
  let '(avgGain, avgLoss) := acc in
  let p := of_nat period in
  let diff := get prices i - get prices (i - 1) in
  if geb diff (Fin 0)
  then ((avgGain * (p - Fin 1) + diff) / p, (avgLoss * (p - Fin 1)) / p)
  else ((avgGain * (p - Fin 1)) / p, (avgLoss * (p - Fin 1) - diff) / p).

(** The pair (avgGain, avgLoss) when both loops are done. *)
Definition rsi_averages (prices : list num) (period : nat) : num * num :=
  let '(gains, losses) :=
    fold_left (rsi_seed_step prices) (seq 1 period) (Fin 0, Fin 0) in
  let p := of_nat period in
  fold_left (rsi_smooth_step prices period)
    (seq (period + 1) (length prices - (period + 1)))
    (gains / p, losses / p).

Definition calculateRSI (prices : list num) (period : nat) : num :=
  if (length prices <? period + 1)%nat then Fin 50
  else
    let '(avgGain, avgLoss) := rsi_averages prices period in
    if avgLoss === Fin 0 then Fin 100
    else
      let rs := avgGain / avgLoss in
      Fin 100 - Fin 100 / (Fin 1 + rs).

(** ** calculateATR *)

Record Bar : Type := mkBar { h : num; l : num; c : num }.

Definition bar_undefined : Bar := mkBar NaN NaN NaN.

Definition getBar (bars : list Bar) (i : nat) : Bar := nth i bars bar_undefined.

(** The true range pushed at iteration [i] of the loop. *)
Definition trueRange (bars : list Bar) (i : nat) : num :=
  let high := h (getBar bars i) in
  let low := l (getBar bars i) in
  let prevClose := c (getBar bars (i - 1)) in
  max3 (high - low) (abs (high - prevClose)) (abs (low - prevClose)).

Definition trueRanges (bars : list Bar) : list num :=
  map (trueRange bars) (seq 1 (length bars - 1)).

(** [a.slice(-n)]: the last [n] elements, all of them when there are
    fewer; [slice(-0)] is [slice(0)], the whole array. *)
Definition slice_last {A : Type} (n : nat) (a : list A) : list A :=
  match n with
  | O => a
  | _ => skipn (length a - n) a
  end.

(** [a.reduce((x, y) => x + y, 0)] *)
Definition sum (a : list num) : num := fold_left add a (Fin 0).

Definition calculateATR (bars : list Bar) (period : nat) : num :=
  if (length bars <? period)%nat then Fin 0
  else sum (slice_last period (trueRanges bars)) / of_nat period.

(** ** calculateMACD *)

Record Macd : Type := mkMacd { macd : num; signal : num; histogram : num }.

(** The inner [calculateEMA]: [ema] is built by pushing, so it is kept
    reversed here, newest value first; [ema[i - 1]] is its head.  The
    weighted sum is exact; in the code each of its operations is rounded, so
    its EMA of a constant series can drift from the constant in the last
    bits. *)
Definition ema_step (k : num) (rev_ema : list num) (x : num) : list num :=
  (x * k + hd NaN rev_ema * (Fin 1 - k)) :: rev_ema.

Definition calculateEMA (data : list num) (period : nat) : list num :=
  let k := Fin 2 / (of_nat period + Fin 1) in
  rev (fold_left (ema_step k) (tl data) [hd NaN data]).

(** The loop [for (let i = longPeriod - 1; i < prices.length; i++)]: with
    a [longPeriod] of 0 it starts at -1, where [longEMA[-1]] is
    [undefined]. *)
Definition macdLine (prices : list num) (shortPeriod longPeriod : nat)
  : list num :=
  let shortEMA := calculateEMA prices shortPeriod in
  let longEMA := calculateEMA prices longPeriod in
  match longPeriod with
  | O => [getZ shortEMA (-1 - (0 - Z.of_nat shortPeriod)) - getZ longEMA (-1)]
  | S _ => []
  end ++
  map (fun i =>
         getZ shortEMA (Z.of_nat i - (Z.of_nat longPeriod - Z.of_nat shortPeriod))
         - get longEMA i)
      (seq (longPeriod - 1) (length prices - (longPeriod - 1))).

Definition zeroMacd : Macd := mkMacd (Fin 0) (Fin 0) (Fin 0).

Definition calculateMACD (prices : list num)
    (shortPeriod longPeriod signalPeriod : nat) : Macd :=
  if (length prices <? longPeriod)%nat then zeroMacd
  else
    let line := macdLine prices shortPeriod longPeriod in
    if (length line <? signalPeriod)%nat then zeroMacd
    else
      let signalLine := calculateEMA line signalPeriod in
      let m := get line (length line - 1) in
      let s := get signalLine (length signalLine - 1) in
      mkMacd m s (m - s).

End Utils.

(* ================================================================== *)
(** * state.js, config.js: the application state *)
(* ================================================================== *)

Module AppState.

Record Settings : Type := mkSettings {
  riskPerTrade : num;
  maxConcurrentScalps : num;
  limitOrderOffset : num;
  aiAnalysisFreq : num
}.

Record Portfolio : Type := mkPortfolio {
  equity : num;
  last_equity : num;
  initial_equity : num
}.

(** A position as [updatePortfolioAndPositions] stores it; the broker
    sends the amounts as decimal strings, kept as they are. *)
Record Position : Type := mkPosition {
  symbol : string;
  qty : string;
  avg_entry_price : string;
  current_price : string;
  unrealized_pl : string;
  unrealized_plpc : string;
  stop_price : option string
}.

(** One point of the equity curve: the day of [x] and the equity [y]. *)
Record PerfPoint : Type := mkPerfPoint { x_day : option string; y : num }.

(** The AI recommendation of one stock (parsed from the AI's JSON). *)
Record Recommendation : Type := mkRecommendation {
  rec_ticker : string;
  rec_decision : string;
  rec_confidence : num;
  rec_reasoning : string
}.

(** What [getIndicators] returns. *)
Record Indicators : Type := mkIndicators {
  ind_symbol : string;
  ind_currentPrice : num;
  ind_rsi1m : num;
  ind_rsi5m : num;
  ind_atr : num;
  ind_macd : Utils.Macd
}.

(** A watchlist entry is the object [{ ...recommendation, ...indicators }]. *)
Record WatchlistEntry : Type := mkEntry {
  ticker : string;
  decision : string;
  confidence : num;
  reasoning : string;
  entry_symbol : string;
  currentPrice : num;
  rsi1m : num;
  rsi5m : num;
  atr : num;
  macd : Utils.Macd
}.

Definition mergeEntry (r : Recommendation) (i : Indicators) : WatchlistEntry :=
  mkEntry (rec_ticker r) (rec_decision r) (rec_confidence r) (rec_reasoning r)
          (ind_symbol i) (ind_currentPrice i) (ind_rsi1m i) (ind_rsi5m i)
          (ind_atr i) (ind_macd i).

(** The fields of [state] the engine reads or writes. *)
Record State : Type := mkState {
  isBotRunning : bool;
  settings : Settings;
  portfolio : Portfolio;
  positions : list Position;
  performanceData : list PerfPoint;
  aiWatchlist : list WatchlistEntry;
  lastTradeDate : option string;
  isFirstTradeMadeToday : bool
}.

Definition initialState : State :=
  mkState false
          (mkSettings (Fin 1) (Fin 5) (Fin (5 # 100)) (Fin 30))
          (mkPortfolio (Fin 0) (Fin 0) (Fin 0))
          [] [] [] None false.

(** [setState], one function per patch the engine applies. *)
Definition set_isBotRunning (b : bool) (st : State) : State :=
  mkState b (settings st) (portfolio st) (positions st) (performanceData st)
          (aiWatchlist st) (lastTradeDate st) (isFirstTradeMadeToday st).

Definition set_aiWatchlist (w : list WatchlistEntry) (st : State) : State :=
  mkState (isBotRunning st) (settings st) (portfolio st) (positions st)
          (performanceData st) w (lastTradeDate st) (isFirstTradeMadeToday st).

Definition set_isFirstTradeMadeToday (b : bool) (st : State) : State :=
  mkState (isBotRunning st) (settings st) (portfolio st) (positions st)
          (performanceData st) (aiWatchlist st) (lastTradeDate st) b.

Definition set_newDay (today : string) (st : State) : State :=
  mkState (isBotRunning st) (settings st) (portfolio st) (positions st)
          (performanceData st) (aiWatchlist st) (Some today) false.

Definition set_refresh (pf : Portfolio) (perf : list PerfPoint)
    (ps : list Position) (st : State) : State :=
  mkState (isBotRunning st) (settings st) pf ps perf (aiWatchlist st)
          (lastTradeDate st) (isFirstTradeMadeToday st).

End AppState.

Export AppState.

(* ================================================================== *)
(** * Effects *)
(* ================================================================== *)

Module Effects.

(** Errors a promise can reject with.  Only [AuthError] is an instance of
    the class of that name; the others are plain errors. *)
Inductive Error : Type :=
| AuthError
| ApiError (status : Z) (text : string)
| NetworkError
| BodyError
| InvalidQuote.

Definition isAuthError (e : Error) : bool :=
  match e with AuthError => true | _ => false end.

(** How an awaited promise settles. *)
Inductive Outcome (A : Type) : Type :=
| Resolved (a : A)
| Rejected (e : Error).
Arguments Resolved {A} a.
Arguments Rejected {A} e.

(** A bracket order as [placeBracketOrder] posts it. *)
Record Order : Type := mkOrder {
  order_symbol : string;
  order_qty : num;
  order_side : string;
  limit_price : num;
  order_stop_price : num;
  take_profit_price : num
}.

Inductive Timer : Type := TradeCycleTimer | AiAnalysisTimer.

(** The lines written to the event log, one constructor per message. *)
Inductive LogLine : Type :=
| LogRateLimit (delay : Z)
| LogPortfolioFailed (e : Error)
| LogAiAnalysis
| LogNoMovers
| LogNoHeadlines
| LogAnalyzing (sym : string)
| LogInsufficientData (sym : string)
| LogNewWatchlist (tickers : list string)
| LogNoRecommendations
| LogAiFailed (e : Error)
| LogScalpingScan
| LogMaxPositions
| LogFirstTrade
| LogTechnicalScan
| LogEntrySignal (sym : string)
| LogSizing (sym : string) (quantity stopPrice takeProfitPrice : num)
| LogSizeZero (sym : string)
| LogTradeFailed (sym : string) (e : Error)
| LogOrderPlaced (o : Order)
| LogOrderFailed (sym : string) (e : Error)
| LogNewDay
| LogCycleStart
| LogMarketClosed
| LogCycleFinished
| LogCycleError (e : Error)
| LogBotStopped.

(** What the engine does to the outside world, in order. *)
Inductive Event : Type :=
| Fetch (attempt : nat)
| Sleep (delay : Z)
| Log (line : LogLine)
| RequestQuote (sym : string)
| SubmitOrder (o : Order)
| RefreshUI
| ClearInterval (t : Timer)
| Save (force : bool)
| UpdateStatus (text : string).

End Effects.

Export Effects.

(* ================================================================== *)
(** * api.js: the gateway *)
(* ================================================================== *)

Module Api.

Local Open Scope num_scope.

Section Fetch.

(** The type of parsed JSON bodies. *)
Variable Json : Type.

(** A response of the platform's [fetch]; [text] and [json] are what
    reading the body gives, [None] when the read rejects. *)
Record Response : Type := mkResponse {
  status : Z;
  text : option string;
  json : option Json
}.

Definition ok (r : Response) : bool :=
  ((200 <=? status r) && (status r <=? 299))%Z.

(** How one call of [fetch] settles. *)
Inductive Fetched : Type :=
| Responded (r : Response)
| FetchFailed.

(** What [fetchWithBackoff] resolves with: [true] for 204, else the body. *)
Inductive Payload : Type :=
| NoContent
| Body (j : Json).

(** [fetchWithBackoff(url, options, retries, delay)].  [net n] is the
    answer to the [n]-th call of [fetch]; the result comes with the
    trace of fetches, log lines and sleeps. *)
Fixpoint fetchWithBackoff (net : nat -> Fetched) (n : nat)
    (retries : nat) (delay : Z) {struct retries}
  : Outcome Payload * list Event :=
  (* the [catch] block, entered with an error that is not an AuthError *)
  let caught (e : Error) : Outcome Payload * list Event :=
    match retries with
    | S r =>
        let '(o, t) := fetchWithBackoff net (S n) r (delay * 2) in
        (o, Fetch n :: Sleep delay :: t)
    | O => (Rejected e, [Fetch n])
    end in
  match net n with
  | FetchFailed => caught NetworkError
  | Responded response =>
      if negb (ok response) then
        if (status response =? 401)%Z then (Rejected AuthError, [Fetch n])
        else
          match (status response =? 429)%Z, retries with
          | true, S r =>
              let '(o, t) := fetchWithBackoff net (S n) r (delay * 2) in
              (o, Fetch n :: Log (LogRateLimit delay) :: Sleep delay :: t)
          | _, _ =>
              match text response with
              | Some errorText => caught (ApiError (status response) errorText)
              | None => caught BodyError
              end
          end
      else if (status response =? 204)%Z then (Resolved NoContent, [Fetch n])
      else
        match json response with
        | Some j => (Resolved (Body j), [Fetch n])
        | None => caught BodyError
        end
  end.

(** The defaults of the last two parameters. *)
Definition defaultRetries : nat := 3.
Definition defaultDelay : Z := 2000.

(** [alpacaFetch] picks the base URL and the headers and returns the
    promise of [fetchWithBackoff] as it is. *)
Definition dataEndpoint (endpoint : string) : bool :=
  String.prefix "/v1beta1/" endpoint || String.prefix "/v2/stocks" endpoint.

Definition alpacaUrl (endpoint : string) : string :=
  if dataEndpoint endpoint
  then String.append "https://data.alpaca.markets" endpoint
  else String.append "https://paper-api.alpaca.markets" endpoint.

Definition alpacaFetch (net : nat -> Fetched) (n : nat)
  : Outcome Payload * list Event :=
  fetchWithBackoff net n defaultRetries defaultDelay.

End Fetch.

Arguments mkResponse {Json} status text json.
Arguments status {Json} r.
Arguments text {Json} r.
Arguments json {Json} r.
Arguments ok {Json} r.
Arguments Responded {Json} r.
Arguments FetchFailed {Json}.
Arguments NoContent {Json}.
Arguments Body {Json} j.
Arguments fetchWithBackoff {Json} net n retries delay.
Arguments alpacaFetch {Json} net n.

(** ** getIndicators *)

(** The body of a bars request: the [bars] array, [None] when absent. *)
Definition BarsBody : Type := option (list Utils.Bar).

Definition enoughBars (b : BarsBody) : bool :=
  match b with
  | Some bars => negb (length bars <? 50)%nat
  | None => false
  end.

Definition getIndicators (sym : string) (bars1m bars5m : Outcome BarsBody)
  : option Indicators :=
  match bars1m, bars5m with
  | Resolved b1, Resolved b5 =>
      match b1, b5 with
      | Some one, Some five =>
          if enoughBars b1 && enoughBars b5 then
            let prices1m := map Utils.c one in
            let prices5m := map Utils.c five in
            Some (mkIndicators sym
                    (Utils.get prices1m (length prices1m - 1))
                    (Utils.calculateRSI prices1m 14)
                    (Utils.calculateRSI prices5m 14)
                    (Utils.calculateATR five 14)
                    (Utils.calculateMACD prices5m 12 26 9))
          else None
      | _, _ => None
      end
  | _, _ => None
  end.

(** ** placeBracketOrder *)

(** The order is handed once to [alpacaFetch] (POST /v2/orders):
    [SubmitOrder o] records that call and [answer] is how it settles.  The
    call goes through [fetchWithBackoff], which sends the request again after
    a failure other than a 401, so one [SubmitOrder] stands for one to four
    requests: the event counts the calls, not the requests. *)
Definition placeBracketOrder (sym : string) (quantity : num) (side : string)
    (limitPrice stopPrice takeProfitPrice : num) (answer : Outcome unit)
  : list Event :=
  let o := mkOrder sym quantity side limitPrice stopPrice takeProfitPrice in
  SubmitOrder o ::
  match answer with
  | Resolved _ => [Log (LogOrderPlaced o)]
  | Rejected e => [Log (LogOrderFailed sym e)]
  end.

(** [placeBracketOrder] with its call of [alpacaFetch] followed to the
    network: [net] answers the calls of [fetch], from the [n]-th on.  The
    order is handed over once; every [Fetch] of the trace is one POST of
    it. *)
Definition placeBracketOrder_requests {Json : Type} (net : nat -> Fetched Json)
    (n : nat) (sym : string) (quantity : num) (side : string)
    (limitPrice stopPrice takeProfitPrice : num) : list Event :=
  let o := mkOrder sym quantity side limitPrice stopPrice takeProfitPrice in
  let '(answer, requests) := alpacaFetch net n in
  SubmitOrder o :: requests ++
  match answer with
  | Resolved _ => [Log (LogOrderPlaced o)]
  | Rejected e => [Log (LogOrderFailed sym e)]
  end.

(** ** updatePortfolioAndPositions *)

(** What the two requests of the refresh bring: the equity of the account
    (already through [parseFloat]) and the open positions. *)
Record Snapshot : Type := mkSnapshot {
  snap_equity : num;
  snap_positions : list Position
}.

Definition isToday (today : string) (d : PerfPoint) : bool :=
  match x_day d with
  | Some day => String.eqb day today
  | None => false
  end.

(** [todayEntry.y = newEquity] on the first point of today, or a push. *)
Fixpoint setTodayEntry (today : string) (newEquity : num)
    (perf : list PerfPoint) : option (list PerfPoint) :=
  match perf with
  | [] => None
  | d :: rest =>
      if isToday today d then Some (mkPerfPoint (x_day d) newEquity :: rest)
      else option_map (cons d) (setTodayEntry today newEquity rest)
  end.

Definition updatePerformance (today : string) (newEquity : num)
    (perf : list PerfPoint) : list PerfPoint :=
  match setTodayEntry today newEquity perf with
  | Some perf' => perf'
  | None => perf ++ [mkPerfPoint (Some today) newEquity]
  end.

Definition refreshedPortfolio (old : Portfolio) (newEquity : num) : Portfolio :=
  mkPortfolio newEquity
    (if last_equity old === Fin 0 then newEquity else last_equity old)
    (if initial_equity old === Fin 0 then newEquity else initial_equity old).

(** [updatePortfolioAndPositions()]: [answer] is how [Promise.all] of the
    two requests settles, [today] the ISO day.  The result is [inl] of the
    new state when the function returns, [inr] of the error it throws. *)
Definition updatePortfolioAndPositions (st : State) (today : string)
    (answer : Outcome Snapshot) : (State + Error) * list Event :=
  match answer with
  | Resolved snap =>
      let newEquity := snap_equity snap in
      (inl (set_refresh (refreshedPortfolio (portfolio st) newEquity)
                        (updatePerformance today newEquity (performanceData st))
                        (snap_positions snap) st),
       [RefreshUI])
  | Rejected error =>
      (if isAuthError error then inr error else inl st,
       [Log (LogPortfolioFailed error)])
  end.

End Api.

(* ================================================================== *)
(** * strategy.js *)
(* ================================================================== *)

Module Strategy.

Local Open Scope num_scope.

(** ** executeTrade *)

(** The object under [quote.quote]: ask and bid price, [None] when the
    field is absent. *)
Record Quote : Type := mkQuote { ap : option num; bp : option num }.

(** The answers of the network to one call of [executeTrade]: the latest
    quote ([None]: a body without [quote]) and the answer to the order. *)
Record TradeAnswers : Type := mkTradeAnswers {
  quoteAnswer : Outcome (option Quote);
  orderAnswer : Outcome unit
}.

(** The quote once the guard [!quote || !quote.quote || !quote.quote.ap ||
    !quote.quote.bp] is passed: ask and bid. *)
Definition validQuote (a : Outcome (option Quote)) : Error + (num * num) :=
  match a with
  | Rejected e => inl e
  | Resolved None => inl InvalidQuote
  | Resolved (Some q) =>
      match ap q, bp q with
      | Some ask, Some bid =>
          if truthy ask && truthy bid then inr (ask, bid) else inl InvalidQuote
      | _, _ => inl InvalidQuote
      end
  end.

(** The formulas of [executeTrade] are evaluated exactly here.  The code
    rounds each operation to a double, which moves the quantity by one share
    or a price by one cent where the exact value lies within that rounding of
    a whole number or of half a cent; what is stated of the code about them
    allows for it ([TradeMoreSpec.tolerance]). *)
Definition capitalToRisk (st : State) : num :=
  equity (portfolio st) * (riskPerTrade (settings st) / Fin 100).

Definition stopLossDistance (stock : WatchlistEntry) : num :=
  Fin 2 * atr stock.

Definition tradeQuantity (st : State) (stock : WatchlistEntry) : num :=
  floor (capitalToRisk st / stopLossDistance stock).

Definition stopPriceOf (stock : WatchlistEntry) (ask : num) : num :=
  toFixed (ask - stopLossDistance stock) 2.

Definition takeProfitPriceOf (stock : WatchlistEntry) (ask : num) : num :=
  toFixed (ask + stopLossDistance stock * Fin (15 # 10)) 2.

Definition limitPriceOf (st : State) (bid : num) : num :=
  toFixed (bid * (Fin 1 + limitOrderOffset (settings st) / Fin 100)) 2.

Definition executeTrade (st : State) (stock : WatchlistEntry)
    (answers : TradeAnswers) : list Event :=
  let sym := ticker stock in
  RequestQuote sym ::
  match validQuote (quoteAnswer answers) with
  | inl e => [Log (LogTradeFailed sym e)]
  | inr (currentPrice, bid) =>
      let quantity := tradeQuantity st stock in
      if gtb quantity (Fin 0) then
        let stopPrice := stopPriceOf stock currentPrice in
        let takeProfitPrice := takeProfitPriceOf stock currentPrice in
        let limitPrice := limitPriceOf st bid in
        Log (LogSizing sym quantity stopPrice takeProfitPrice) ::
        Api.placeBracketOrder sym quantity "buy" limitPrice stopPrice
          takeProfitPrice (orderAnswer answers)
      else [Log (LogSizeZero sym)]
  end.

(** ** runScalpingStrategy *)

(** [state.positions.some(p => p.symbol === stock.ticker)] *)
Definition hasPosition (st : State) (stock : WatchlistEntry) : bool :=
  existsb (fun p => String.eqb (symbol p) (ticker stock)) (positions st).

(** [state.positions.length >= state.settings.maxConcurrentScalps] *)
Definition capReached (st : State) : bool :=
  geb (of_nat (length (positions st))) (maxConcurrentScalps (settings st)).

Definition is5minTrendBullish (stock : WatchlistEntry) : bool :=
  gtb (Utils.histogram (macd stock)) (Fin 0).

Definition isRsiPullback (stock : WatchlistEntry) : bool :=
  ltb (rsi1m stock) (Fin 45).

(** The [for ... of state.aiWatchlist] loop; [i] is the index of the head
    of [stocks] in the watchlist, and [world i] holds the answers of the
    network for the trade on that entry. *)
Fixpoint scanWatchlist (st : State) (world : nat -> TradeAnswers) (i : nat)
    (stocks : list WatchlistEntry) : list Event :=
  match stocks with
  | [] => []
  | stock :: rest =>
      if hasPosition st stock then scanWatchlist st world (S i) rest
      else if capReached st then []
      else if is5minTrendBullish stock && isRsiPullback stock then
        Log (LogEntrySignal (ticker stock)) ::
        executeTrade st stock (world i) ++ scanWatchlist st world (S i) rest
      else scanWatchlist st world (S i) rest
  end.

Definition technicalScan (st : State) (world : nat -> TradeAnswers)
  : list Event :=
  Log LogTechnicalScan :: scanWatchlist st world 0 (aiWatchlist st).

Definition runScalpingStrategy (st : State) (world : nat -> TradeAnswers)
  : State * list Event :=
  match aiWatchlist st with
  | [] => (st, [Log LogScalpingScan])
  | stock :: _ =>
      if capReached st then (st, [Log LogScalpingScan; Log LogMaxPositions])
      else if negb (isFirstTradeMadeToday st) then
        if negb (hasPosition st stock) then
          (set_isFirstTradeMadeToday true st,
           Log LogScalpingScan :: Log LogFirstTrade ::
           executeTrade st stock (world 0%nat))
        else
          (st, Log LogScalpingScan :: Log LogFirstTrade :: technicalScan st world)
      else (st, Log LogScalpingScan :: technicalScan st world)
  end.

(** ** runAiDrivenAnalysis *)

(** [recommendation && recommendation.decision === 'BUY' &&
    recommendation.confidence >= 7] *)
Definition qualifies (r : Recommendation) : bool :=
  String.eqb (rec_decision r) "BUY" && geb (rec_confidence r) (Fin 7).

(** The comparator [(a, b) => b.confidence - a.confidence]. *)
Definition byConfidence (a b : WatchlistEntry) : num :=
  confidence b - confidence a.

(** [Array.prototype.sort] is stable and puts [a] after [b] exactly when
    the comparator is positive on (a, b), a NaN counting as 0.  This is the
    insertion sort with that behaviour. *)
Definition goesAfter (a b : WatchlistEntry) : bool :=
  gtb (byConfidence a b) (Fin 0).

Fixpoint insertSorted (a : WatchlistEntry) (sorted : list WatchlistEntry)
  : list WatchlistEntry :=
  match sorted with
  | [] => [a]
  | b :: rest =>
      if goesAfter a b then b :: insertSorted a rest else a :: b :: rest
  end.

Definition sortByConfidence (stocks : list WatchlistEntry)
  : list WatchlistEntry :=
  fold_right insertSorted [] stocks.

(** What the analysis of one candidate brings: the indicators
    ([getIndicators], [None] when unavailable) and the recommendation
    ([getAiRecommendationForStock], [None] on any failure). *)
Record CandidateAnswers : Type := mkCandidateAnswers {
  indicatorsAnswer : option Indicators;
  recommendationAnswer : option Recommendation
}.

(** The answers of the network to one analysis: the most active symbols,
    the headlines, and the answers for the candidate at each index. *)
Record AnalysisAnswers : Type := mkAnalysisAnswers {
  moversAnswer : Outcome (list string);
  newsAnswer : Outcome (list string);
  candidateAnswers : nat -> CandidateAnswers
}.

(** One turn of the loop over the candidates: the entry pushed on
    [recommendedStocks], if any. *)
Definition analyzeCandidate (a : CandidateAnswers) : option WatchlistEntry :=
  match indicatorsAnswer a with
  | None => None
  | Some indicators =>
      match recommendationAnswer a with
      | Some recommendation =>
          if qualifies recommendation
          then Some (mergeEntry recommendation indicators)
          else None
      | None => None
      end
  end.

Definition candidateLog (sym : string) (a : CandidateAnswers) : list Event :=
  Log (LogAnalyzing sym) ::
  match indicatorsAnswer a with
  | None => [Log (LogInsufficientData sym)]
  | Some _ => []
  end.

Fixpoint analyzeCandidates (answers : nat -> CandidateAnswers) (i : nat)
    (candidates : list string) : list WatchlistEntry * list Event :=
  match candidates with
  | [] => ([], [])
  | sym :: rest =>
      let '(stocks, t) := analyzeCandidates answers (S i) rest in
      (match analyzeCandidate (answers i) with
       | Some entry => entry :: stocks
       | None => stocks
       end,
       candidateLog sym (answers i) ++ t)
  end.

(** [headlines] is the join of the headlines with newlines: empty when
    there is none or all are empty. *)
Definition noHeadlines (headlines : list string) : bool :=
  match headlines with
  | [] => true
  | [hl] => String.eqb hl ""
  | _ => false
  end.

Definition runAiDrivenAnalysis (st : State) (world : AnalysisAnswers)
  : State * list Event :=
  if negb (isBotRunning st) then (st, [])
  else
    match moversAnswer world with
    | Rejected e => (st, [Log LogAiAnalysis; Log (LogAiFailed e)])
    | Resolved [] => (st, [Log LogAiAnalysis; Log LogNoMovers])
    | Resolved candidates =>
        match newsAnswer world with
        | Rejected e => (st, [Log LogAiAnalysis; Log (LogAiFailed e)])
        | Resolved headlines =>
            let '(recommendedStocks, t) :=
              analyzeCandidates (candidateAnswers world) 0 candidates in
            let pre :=
              Log LogAiAnalysis ::
              (if noHeadlines headlines then [Log LogNoHeadlines] else []) ++ t in
            match recommendedStocks with
            | [] => (st, pre ++ [Log LogNoRecommendations])
            | _ =>
                let sortedRecommendations := sortByConfidence recommendedStocks in
                (set_aiWatchlist sortedRecommendations st,
                 pre ++ [Log (LogNewWatchlist (map ticker sortedRecommendations))])
            end
        end
    end.

End Strategy.

(* ================================================================== *)
(** * utils.js: isMarketOpen; app.js: the scheduler *)
(* ================================================================== *)

Module App.

(** [isMarketOpen()] on the New York wall clock: day of the week
    (Sunday = 0), hour and minute. *)
Definition isMarketOpen (day hour minute : Z) : bool :=
  if ((day =? 0) || (day =? 6))%Z then false
  else if ((hour <? 9) || ((hour =? 9) && (minute <? 30)))%Z then false
  else if (hour >=? 16)%Z then false
  else true.

(** The two module variables holding the interval handles: whether the
    interval is still scheduled. *)
Record Timers : Type := mkTimers {
  tradeCycleInterval : bool;
  aiAnalysisInterval : bool
}.

Definition clearInterval (t : Timer) (ts : Timers) : Timers :=
  match t with
  | TradeCycleTimer => mkTimers false (aiAnalysisInterval ts)
  | AiAnalysisTimer => mkTimers (tradeCycleInterval ts) false
  end.

(** [saveDataAndSettings(force)] *)
Definition saveDataAndSettings (st : State) (force : bool) : list Event :=
  if negb (isBotRunning st) && negb force then [] else [Save force].

(** [stopBot()] *)
Definition stopBot (st : State) (ts : Timers) : State * Timers * list Event :=
  let st' := set_isBotRunning false st in
  (st',
   clearInterval AiAnalysisTimer (clearInterval TradeCycleTimer ts),
   ClearInterval TradeCycleTimer :: ClearInterval AiAnalysisTimer ::
   saveDataAndSettings st' true ++
   [UpdateStatus "Idle"; Log LogBotStopped]).

(** What one tick of the trade cycle meets outside: the local date, the
    ISO day, how the portfolio refresh settles, the New York clock, and the
    answers to the trades of the strategy. *)
Record CycleWorld : Type := mkCycleWorld {
  localDate : string;
  isoDay : string;
  refreshAnswer : Outcome Api.Snapshot;
  nyDay : Z;
  nyHour : Z;
  nyMinute : Z;
  tradeAnswers : nat -> Strategy.TradeAnswers
}.

Definition sameDate (last : option string) (today : string) : bool :=
  match last with
  | Some d => String.eqb d today
  | None => false
  end.

(** [tradeCycle()] *)
Definition tradeCycle (st : State) (ts : Timers) (w : CycleWorld)
  : State * Timers * list Event :=
  if negb (isBotRunning st) then (st, ts, [])
  else
    let '(st1, t1) :=
      if sameDate (lastTradeDate st) (localDate w) then (st, [])
      else (set_newDay (localDate w) st, [Log LogNewDay]) in
    let '(refreshed, t2) :=
      Api.updatePortfolioAndPositions st1 (isoDay w) (refreshAnswer w) in
    match refreshed with
    | inr error =>
        let '(st', ts', t3) :=
          if isAuthError error then stopBot st1 ts else (st1, ts, []) in
        (st', ts',
         t1 ++ Log LogCycleStart :: t2 ++ Log (LogCycleError error) :: t3)
    | inl st2 =>
        let '(st3, t3) :=
          if isMarketOpen (nyDay w) (nyHour w) (nyMinute w)
          then Strategy.runScalpingStrategy st2 (tradeAnswers w)
          else (st2, [Log LogMarketClosed]) in
        (st3, ts,
         t1 ++ Log LogCycleStart :: t2 ++ t3 ++
         saveDataAndSettings st3 false ++ [Log LogCycleFinished])
    end.

End App.

(* ================================================================== *)
(** * Observations and example data *)
(* ================================================================== *)

(** What the properties below read off a trace of effects. *)
Module Observe.

(** The symbols on which a trade is attempted, in order: every call of
    [executeTrade] starts by requesting the quote of its symbol. *)
Fixpoint tradeAttempts (trace : list Event) : list string :=
  match trace with
  | [] => []
  | RequestQuote sym :: rest => sym :: tradeAttempts rest
  | _ :: rest => tradeAttempts rest
  end.

(** The orders handed to the broker, in order: one for each call of
    [placeBracketOrder], however often [fetchWithBackoff] sends its
    request. *)
Fixpoint submittedOrders (trace : list Event) : list Order :=
  match trace with
  | [] => []
  | SubmitOrder o :: rest => o :: submittedOrders rest
  | _ :: rest => submittedOrders rest
  end.

(** The delays slept, in order, and the number of calls of [fetch]. *)
Fixpoint sleeps (trace : list Event) : list Z :=
  match trace with
  | [] => []
  | Sleep d :: rest => d :: sleeps rest
  | _ :: rest => sleeps rest
  end.

Fixpoint fetchCount (trace : list Event) : nat :=
  match trace with
  | [] => O
  | Fetch _ :: rest => S (fetchCount rest)
  | _ :: rest => fetchCount rest
  end.

(** The timers a trace cancels. *)
Fixpoint clearedTimers (trace : list Event) : list Timer :=
  match trace with
  | [] => []
  | ClearInterval t :: rest => t :: clearedTimers rest
  | _ :: rest => clearedTimers rest
  end.

End Observe.

Export Observe.

Module FetchSpec.
Import Api.

Section WithJson.

Variable Json : Type.
Implicit Types (net : nat -> Fetched Json) (f : Fetched Json).

(** The answer is an HTTP response with the given status. *)
Definition hasStatus (code : Z) f : bool :=
  match f with
  | Responded r => (status r =? code)%Z
  | FetchFailed => false
  end.

(** The answer is a success, and what the wrapper resolves with:
    [true] for a 204, else the parsed body. *)
Definition successOf f : option (Payload Json) :=
  match f with
  | Responded r =>
      if ok r then
        if (status r =? 204)%Z then Some NoContent else option_map (@Body Json) (json r)
      else None
  | FetchFailed => None
  end.

End WithJson.

Arguments hasStatus {Json} code f.
Arguments successOf {Json} f.

(** [k] delays, doubling from [d]. *)
Fixpoint doubling (d : Z) (k : nat) : list Z :=
  match k with
  | O => []
  | S k' => d :: doubling (d * 2) k'
  end.

(** Three rate-limited answers, then a body. *)
Definition net_429x3_then_ok (n : nat) : Fetched nat :=
  match n with
  | 0%nat | 1%nat | 2%nat => Responded (mkResponse 429 (Some "slow down"%string) None)
  | _ => Responded (mkResponse 200 None (Some 7%nat))
  end.

(** Every answer is a 401. *)
Definition net_401 (n : nat) : Fetched nat :=
  Responded (mkResponse 401 (Some "unauthorized"%string) None).

(** One rate-limited answer, then 401. *)
Definition net_429_then_401 (n : nat) : Fetched nat :=
  match n with
  | 0%nat => Responded (mkResponse 429 (Some "slow down"%string) None)
  | _ => Responded (mkResponse 401 (Some "unauthorized"%string) None)
  end.

End FetchSpec.

Module RsiSpec.
Import Utils.

(** Both running quantities are finite and non-negative. *)
Definition nonneg_pair (acc : num * num) : Prop :=
  exists g l : Q, acc = (Fin g, Fin l) /\ 0 <= g /\ 0 <= l.

(** Fifteen rising prices, and sixteen prices going up and down. *)
Definition rising15 : list Q :=
  [10; 11; 12; 13; 14; 15; 16; 17; 18; 19; 20; 21; 22; 23; 24].

Definition mixed16 : list Q :=
  [10; 11; 10; 12; 11; 13; 12; 14; 13; 15; 14; 16; 15; 17; 16; 15].

(** Prices of a size at which no sum or product of [calculateRSI]
    overflows a double: at most 2^900 in magnitude. *)
Definition priceBound : Q := inject_Z (2 ^ 900).

Definition boundedPrices (qs : list Q) : Prop :=
  Forall (fun q => Qabs q <= priceBound) qs.

(** Fifteen closes of which the eighth is missing: [b.c] of a bar without
    [c] is [undefined], NaN in every sum. *)
Definition missingClose15 : list num :=
  map Fin [10; 11; 12; 13; 14; 15; 16] ++ NaN :: map Fin [18; 19; 20; 21; 22; 23; 24].

End RsiSpec.

Module AtrSpec.
Import Utils.

(** A bar with finite high, low and close. *)
Definition finiteBar (b : Q * Q * Q) : Bar :=
  let '(high, low, close) := b in mkBar (Fin high) (Fin low) (Fin close).

(** A finite number that is not negative. *)
Definition nonnegative (x : num) : Prop := exists q : Q, x = Fin q /\ 0 <= q.

(** Fourteen bars, each with high 101, low 100 and close 100. *)
Definition unitBars : list Bar :=
  repeat (mkBar (Fin 101) (Fin 100) (Fin 100)) 14.

End AtrSpec.

Module MacdSpec.
Import Utils.

(** Thirty-three closes at 100, then one at 101. *)
Definition stepPrices : list num := repeat (Fin 100) 33 ++ [Fin 101].

End MacdSpec.

Module ScalpingSpec.
Import Strategy.

(** The entry condition of the technical scan. *)
Definition entrySignal (st : State) (stock : WatchlistEntry) : bool :=
  negb (hasPosition st stock) && is5minTrendBullish stock && isRsiPullback stock.

(** The same condition in the words of the specification, written without
    any of the code's predicates: no open position on the symbol of the
    entry, a 5-minute MACD histogram above 0 and a 1-minute RSI below 45; and
    the cap in its words: at least [maxConcurrentScalps] open positions. *)
Definition spec_noOpenPosition (st : State) (stock : WatchlistEntry) : bool :=
  forallb (fun p => negb (String.eqb (symbol p) (ticker stock))) (positions st).

Definition spec_entryCondition (st : State) (stock : WatchlistEntry) : bool :=
  spec_noOpenPosition st stock &&
  gtb (Utils.histogram (macd stock)) (Fin 0) &&
  ltb (rsi1m stock) (Fin 45).

Definition spec_capReached (st : State) : bool :=
  geb (of_nat (length (positions st))) (maxConcurrentScalps (settings st)).

(** Concrete states for the two gates. *)
Definition entryOf (sym : string) (conf hist rsi : Q) : WatchlistEntry :=
  mkEntry sym "BUY" (Fin conf) "" sym (Fin 100) (Fin rsi) (Fin 50)
          (Fin (1 # 2)) (Utils.mkMacd (Fin 0) (Fin 0) (Fin hist)).

Definition entryA : WatchlistEntry := entryOf "A" 9 (-1 # 10) 30.
Definition entryB : WatchlistEntry := entryOf "B" 8 (2 # 10) 40.

Definition stateAB (firstMade : bool) : State :=
  mkState true (settings initialState)
          (mkPortfolio (Fin 10000) (Fin 10000) (Fin 10000))
          [] [] [entryA; entryB] None firstMade.

(** Four entries after the first trade of the day: A with a histogram
    below 0, B meeting the whole condition, C with a histogram above 0 but an
    RSI of 80, D meeting the condition but held. *)
Definition entryC : WatchlistEntry := entryOf "C" 8 (2 # 10) 80.
Definition entryD : WatchlistEntry := entryOf "D" 7 (2 # 10) 40.

Definition stateABCD : State :=
  mkState true (settings initialState)
          (mkPortfolio (Fin 10000) (Fin 10000) (Fin 10000))
          [mkPosition "D" "10" "99.00" "100.00" "10.00" "0.01" None] []
          [entryA; entryB; entryC; entryD] None true.

(** Every quote is 100.00 / 99.95 and every order is accepted. *)
Definition steadyWorld (i : nat) : TradeAnswers :=
  mkTradeAnswers
    (Resolved (Some (mkQuote (Some (Fin 100)) (Some (Fin (9995 # 100))))))
    (Resolved tt).

End ScalpingSpec.

Module AnalysisSpec.
Import Strategy.

(** The entry of the candidate at index [i] if it qualifies: its
    indicators are available and its recommendation is a BUY of confidence
    at least 7. *)
Definition qualifyingAt (answers : nat -> CandidateAnswers) (i : nat)
  : list WatchlistEntry :=
  match indicatorsAnswer (answers i), recommendationAnswer (answers i) with
  | Some indicators, Some r =>
      if String.eqb (rec_decision r) "BUY" && geb (rec_confidence r) (Fin 7)
      then [mergeEntry r indicators]
      else []
  | _, _ => []
  end.

(** The entries of one analysis that qualify, in scan order. *)
Definition qualifyingEntries (world : AnalysisAnswers)
    (candidates : list string) : list WatchlistEntry :=
  flat_map (qualifyingAt (candidateAnswers world)) (seq 0 (length candidates)).

(** An entry that passed the filter of the analysis. *)
Definition qualified (e : WatchlistEntry) : Prop :=
  decision e = "BUY"%string /\ geb (confidence e) (Fin 7) = true.

(** Sorted descending by confidence: every entry has at least the
    confidence of every later one. *)
Definition higherOrEqual (a b : WatchlistEntry) : Prop :=
  geb (confidence a) (confidence b) = true.

Definition descending (stocks : list WatchlistEntry) : Prop :=
  StronglySorted higherOrEqual stocks.

(** Ties keep the order of [before]: the entries of any one confidence
    come in [after] in the order they have in [before]. *)
Definition sameConfidence (c : num) (e : WatchlistEntry) : bool :=
  (confidence e === c)%num.

Definition keepsTieOrder (before after : list WatchlistEntry) : Prop :=
  forall c, filter (sameConfidence c) after = filter (sameConfidence c) before.

(** Four candidates: confidences 8, 9, a HOLD, and 8 again. *)
Definition someIndicators (sym : string) : Indicators :=
  mkIndicators sym (Fin 100) (Fin 40) (Fin 50) (Fin (1 # 2))
               (Utils.mkMacd (Fin 0) (Fin 0) (Fin 0)).

Definition fourCandidates (i : nat) : CandidateAnswers :=
  match i with
  | 0%nat => mkCandidateAnswers (Some (someIndicators "AAA"))
               (Some (mkRecommendation "AAA" "BUY" (Fin 8) ""))
  | 1%nat => mkCandidateAnswers (Some (someIndicators "BBB"))
               (Some (mkRecommendation "BBB" "BUY" (Fin 9) ""))
  | 2%nat => mkCandidateAnswers (Some (someIndicators "CCC"))
               (Some (mkRecommendation "CCC" "HOLD" (Fin 10) ""))
  | _ => mkCandidateAnswers (Some (someIndicators "DDD"))
               (Some (mkRecommendation "DDD" "BUY" (Fin 8) ""))
  end.

Definition fourWorld : AnalysisAnswers :=
  mkAnalysisAnswers (Resolved ["AAA"; "BBB"; "CCC"; "DDD"]%string)
                    (Resolved ["markets open higher"%string])
                    fourCandidates.

(** No candidate has indicators. *)
Definition barrenWorld : AnalysisAnswers :=
  mkAnalysisAnswers (Resolved ["AAA"; "BBB"]%string) (Resolved [])
                    (fun _ => mkCandidateAnswers None None).

(** The bot running, with a watchlist of two entries. *)
Definition runningState : State := ScalpingSpec.stateAB true.

End AnalysisSpec.

Module CycleSpec.
Import App.

(** The three components of what a cycle returns. *)
Definition cycleState (r : State * Timers * list Event) : State := fst (fst r).
Definition cycleTimers (r : State * Timers * list Event) : Timers := snd (fst r).
Definition cycleTrace (r : State * Timers * list Event) : list Event := snd r.

(** The state once the date check at the head of the cycle is done, and
    the log line of that check. *)
Definition afterDateCheck (st : State) (w : CycleWorld) : State :=
  if sameDate (lastTradeDate st) (localDate w) then st
  else set_newDay (localDate w) st.

Definition dateCheckLog (st : State) (w : CycleWorld) : list Event :=
  if sameDate (lastTradeDate st) (localDate w) then [] else [Log LogNewDay].

(** What the cycle does after the refresh when it goes on. *)
Definition strategyStep (st : State) (w : CycleWorld) : State * list Event :=
  if isMarketOpen (nyDay w) (nyHour w) (nyMinute w)
  then Strategy.runScalpingStrategy st (tradeAnswers w)
  else (st, [Log LogMarketClosed]).

(** A Monday at noon in New York, the refresh settling as [answer]. *)
Definition mondayNoon (answer : Outcome Api.Snapshot) : CycleWorld :=
  mkCycleWorld "11/2/2026" "2026-11-02" answer 1 12 0 ScalpingSpec.steadyWorld.

(** Both intervals scheduled; the bot running, no trade made today. *)
Definition bothTimers : Timers := mkTimers true true.

Definition freshState : State := ScalpingSpec.stateAB false.

End CycleSpec.

Module TradeSpec.
Import Strategy.

(** The state, entry and quote of the sizing example: equity 10000,
    riskPerTrade 1, limitOrderOffset 0.05, ATR 0.5, ask 100.00, bid 99.95. *)
Definition exampleState : State := ScalpingSpec.stateAB false.
Definition exampleEntry : WatchlistEntry := ScalpingSpec.entryA.
Definition exampleAnswers : TradeAnswers := ScalpingSpec.steadyWorld 0.

(** An entry with an ATR of 0.333. *)
Definition thirdsEntry : WatchlistEntry :=
  mkEntry "T" "BUY" (Fin 9) "" "T" (Fin 100) (Fin 30) (Fin 50)
          (Fin (333 # 1000)) (Utils.mkMacd (Fin 0) (Fin 0) (Fin 1)).

(** A flat stock: its last bars did not move, so its ATR is 0. *)
Definition flatEntry : WatchlistEntry :=
  mkEntry "F" "BUY" (Fin 9) "" "F" (Fin (51 # 100)) (Fin 50) (Fin 50)
          (Fin 0) (Utils.mkMacd (Fin 0) (Fin 0) (Fin 0)).

(** A quote in whole cents, and one below the cent. *)
Definition centsQuote : TradeAnswers :=
  mkTradeAnswers
    (Resolved (Some (mkQuote (Some (Fin (51 # 100))) (Some (Fin (50 # 100))))))
    (Resolved tt).

Definition subPennyQuote : TradeAnswers :=
  mkTradeAnswers
    (Resolved (Some (mkQuote (Some (Fin (5123 # 10000))) (Some (Fin (5121 # 10000))))))
    (Resolved tt).

End TradeSpec.

(* ================================================================== *)
(** * More vocabulary: the gateway *)
(* ================================================================== *)

Module GatewaySpec.
Import Api.

Section WithJson.

Variable Json : Type.
Implicit Types (f : Fetched Json).

(** The error an answer raises inside the wrapper, for an answer that is
    neither a success nor a 401: a failed fetch, a status outside 200..299
    (its body read for the message), or a body that does not parse. *)
Definition failureOf f : option Error :=
  match f with
  | FetchFailed => Some NetworkError
  | Responded r =>
      if ok r then
        if (status r =? 204)%Z then None
        else match json r with Some _ => None | None => Some BodyError end
      else if (status r =? 401)%Z then None
      else match text r with
           | Some errorText => Some (ApiError (status r) errorText)
           | None => Some BodyError
           end
  end.

End WithJson.

Arguments failureOf {Json} f.

(** The total time slept. *)
Definition totalSleep (trace : list Event) : Z :=
  fold_right Z.add 0%Z (sleeps trace).

(** The network is down. *)
Definition net_down (n : nat) : Fetched nat := FetchFailed.

End GatewaySpec.

Module PortfolioSpec.
Import Api.

(** The refresh applied to a state, for a refresh that settles well;
    [updatePortfolioAndPositions] then always returns. *)
Definition refreshed (st : State) (today : string) (snap : Snapshot) : State :=
  match fst (updatePortfolioAndPositions st today (Resolved snap)) with
  | inl st' => st'
  | inr _ => st
  end.

(** Successive refreshes, each with its day and what the broker sent. *)
Definition refreshedAll (st : State) (snaps : list (string * Snapshot)) : State :=
  fold_left (fun s ds => refreshed s (fst ds) (snd ds)) snaps st.

(** The equities of a run of snapshots. *)
Definition equitiesOf (snaps : list (string * Snapshot)) : list num :=
  map (fun ds => snap_equity (snd ds)) snaps.

(** Three refreshes: the account is empty on the first day. *)
Definition threeRefreshes : list (string * Snapshot) :=
  [("2026-10-29"%string, mkSnapshot (Fin 0) []);
   ("2026-10-30"%string, mkSnapshot (Fin 9500) []);
   ("2026-11-02"%string, mkSnapshot (Fin 9700) [])].

(** The first of the equities that is not 0; 0 when there is none. *)
Fixpoint firstNonZero (equities : list Q) : Q :=
  match equities with
  | [] => 0
  | q :: rest => match q ?= 0 with Eq => firstNonZero rest | _ => q end
  end.

(** The days of the points of the equity curve. *)
Definition daysOf (perf : list PerfPoint) : list (option string) :=
  map x_day perf.

(** The curve has a point for the day. *)
Definition hasDay (day : string) (perf : list PerfPoint) : bool :=
  existsb (isToday day) perf.

(** The equity recorded for a day: that of the first point of that day. *)
Fixpoint equityOn (day : string) (perf : list PerfPoint) : option num :=
  match perf with
  | [] => None
  | d :: rest => if isToday day d then Some (y d) else equityOn day rest
  end.

Definition twoDays : list PerfPoint :=
  [mkPerfPoint (Some "2026-10-30"%string) (Fin 9900);
   mkPerfPoint (Some "2026-11-02"%string) (Fin 10000)].

End PortfolioSpec.

Module ScalpingMoreSpec.
Import Strategy ScalpingSpec.

(** The first-trade gate is taken: no trade made today yet and the top
    entry of the watchlist is not held. *)
Definition firstGateTaken (st : State) (top : WatchlistEntry) : bool :=
  negb (isFirstTradeMadeToday st) && negb (hasPosition st top).

(** The first-trade gate in the words of the specification: no trade
    made today yet and no open position on the symbol of the top entry. *)
Definition spec_firstTradeDue (st : State) (top : WatchlistEntry) : bool :=
  negb (isFirstTradeMadeToday st) && spec_noOpenPosition st top.

(** A position is open on the symbol. *)
Definition holds (st : State) (sym : string) : bool :=
  existsb (fun p => String.eqb (symbol p) sym) (positions st).

(** What every order of the strategy must be: a buy of a quantity above
    0, for the ticker of a watchlist entry on which no position is open. *)
Definition soundOrder (st : State) (o : Order) : Prop :=
  order_side o = "buy"%string /\
  gtb (order_qty o) (Fin 0) = true /\
  holds st (order_symbol o) = false /\
  exists stock, In stock (aiWatchlist st) /\ ticker stock = order_symbol o.

(** A position on "A". *)
Definition positionA : Position :=
  mkPosition "A" "100" "99.50" "100.00" "50.00" "0.005" None.

(** The state of the two gates with "A" held. *)
Definition stateHoldingA (firstMade : bool) : State :=
  mkState true (settings initialState)
          (mkPortfolio (Fin 10000) (Fin 10000) (Fin 10000))
          [positionA] [] [entryA; entryB] None firstMade.

End ScalpingMoreSpec.

Module TradeMoreSpec.
Import Strategy.

(** A number of whole cents. *)
Definition wholeCents (q : Q) : Prop := exists n : Z, q == inject_Z n / 100.

(** The largest magnitude [toFixed] still rounds. *)
Definition toFixedLimit : Q := inject_Z (pow10 21).

(** The code computes in doubles, each operation rounded; the formulas
    below are exact.  [tolerance] = 2^-50 bounds the relative error of the
    few rounded operations of [executeTrade], for numbers of a size at which
    neither overflow nor underflow occurs: 0, or between 10^-9 and 10^9 in
    magnitude. *)
Definition tolerance : Q := 1 # (2 ^ 50).

Definition sizeBound : Q := inject_Z (10 ^ 9).

Definition marketSized (q : Q) : bool :=
  Qeq_bool q 0 ||
  (Qle_bool (/ sizeBound) (Qabs q) && Qle_bool (Qabs q) sizeBound).

End TradeMoreSpec.

Module AnalysisMoreSpec.
Import Strategy AnalysisSpec.

(** The watchlist is what an analysis leaves: BUYs of confidence at least
    7, descending by confidence. *)
Definition rankedWatchlist (st : State) : Prop :=
  Forall qualified (aiWatchlist st) /\ descending (aiWatchlist st).

(** The bot running on a first day: nothing held, no watchlist yet. *)
Definition startedState : State :=
  mkState true (settings initialState)
          (mkPortfolio (Fin 10000) (Fin 10000) (Fin 10000))
          [] [] [] None false.

End AnalysisMoreSpec.

Module IndicatorsSpec.
Import Api.

(** The closes of finite bars. *)
Definition closesOf (bs : list (Q * Q * Q)) : list Q := map snd bs.

(** Bars of a size at which no sum of [calculateRSI] or [calculateATR]
    overflows a double: high, low and close at most 2^900 in magnitude. *)
Definition boundedBars (bs : list (Q * Q * Q)) : bool :=
  forallb (fun b : Q * Q * Q =>
             let '(high, low, close) := b in
             Qle_bool (Qabs high) RsiSpec.priceBound &&
             Qle_bool (Qabs low) RsiSpec.priceBound &&
             Qle_bool (Qabs close) RsiSpec.priceBound) bs.

(** Sixty flat bars at 100, and sixty bars climbing from 100. *)
Definition flatBars : list (Q * Q * Q) := repeat (100, 100, 100) 60.

Definition climbingBars : list (Q * Q * Q) :=
  map (fun i => let p := inject_Z (Z.of_nat i) in (101 + p, 100 + p, 100 + p))
      (seq 0 60).

End IndicatorsSpec.

Module CycleMoreSpec.
Import Api App CycleSpec PortfolioSpec ScalpingMoreSpec.

(** The state the strategy of a cycle runs on when the refresh settles
    well: the date check, then the refresh. *)
Definition refreshedForCycle (st : State) (w : CycleWorld) (snap : Snapshot)
  : State :=
  refreshed (afterDateCheck st w) (isoDay w) snap.

(** A symbol is among the positions the broker reports. *)
Definition reported (snap : Snapshot) (sym : string) : bool :=
  existsb (fun p => String.eqb (symbol p) sym) (snap_positions snap).

(** The cap is reached by the positions the broker reports. *)
Definition capReachedBy (st : State) (snap : Snapshot) : bool :=
  geb (of_nat (length (snap_positions snap))) (maxConcurrentScalps (settings st)).

(** One tick of the scheduler: a trade cycle or an AI analysis. *)
Inductive Tick : Type :=
| TradeTick (w : CycleWorld)
| AnalysisTick (w : Strategy.AnalysisAnswers).

Definition tick (st : State) (ts : Timers) (t : Tick)
  : State * Timers * list Event :=
  match t with
  | TradeTick w => tradeCycle st ts w
  | AnalysisTick w =>
      (fst (Strategy.runAiDrivenAnalysis st w), ts,
       snd (Strategy.runAiDrivenAnalysis st w))
  end.

(** The ticks of a run, one after the other, each run to its end. *)
Fixpoint runTicks (st : State) (ts : Timers) (ticks : list Tick)
  : State * Timers * list Event :=
  match ticks with
  | [] => (st, ts, [])
  | t :: rest =>
      let r := tick st ts t in
      let r' := runTicks (cycleState r) (cycleTimers r) rest in
      (cycleState r', cycleTimers r', cycleTrace r ++ cycleTrace r')
  end.

(** Yesterday's state: a trade was made on 10/30, "A" and "B" on watch. *)
Definition yesterdayState : State :=
  mkState true (settings initialState)
          (mkPortfolio (Fin 10000) (Fin 10000) (Fin 10000))
          [] [] [ScalpingSpec.entryA; ScalpingSpec.entryB]
          (Some "10/30/2026"%string) true.

Definition emptySnapshot : Snapshot := mkSnapshot (Fin 10000) [].

(** The broker reports a position on "B". *)
Definition snapshotHoldingB : Snapshot :=
  mkSnapshot (Fin 10000)
             [mkPosition "B" "10" "99.00" "100.00" "10.00" "0.01" None].

(** A Saturday at noon. *)
Definition saturdayNoon (answer : Outcome Snapshot) : CycleWorld :=
  mkCycleWorld "10/31/2026" "2026-10-31" answer 6 12 0 ScalpingSpec.steadyWorld.

End CycleMoreSpec.

Module RunSpec.
Import Api App CycleSpec CycleMoreSpec.

(** An order the engine may submit: a buy of a quantity above 0. *)
Definition buyOrder (o : Order) : Prop :=
  order_side o = "buy"%string /\ gtb (order_qty o) (Fin 0) = true.

(** A run of three ticks: a cycle whose refresh fails on authentication
    between an analysis and a later cycle. *)
Definition authFailureRun : list Tick :=
  [AnalysisTick AnalysisSpec.fourWorld;
   TradeTick (mondayNoon (Rejected AuthError));
   TradeTick (mondayNoon (Resolved emptySnapshot))].

End RunSpec.

Module TrendSpec.

(** No price is below the one before it (flat prices included), and every
    price is below the one before it. *)
Fixpoint neverFalls (qs : list Q) : bool :=
  match qs with
  | a :: (b :: _) as rest => Qle_bool a b && neverFalls rest
  | _ => true
  end.

Fixpoint alwaysFalls (qs : list Q) : bool :=
  match qs with
  | a :: (b :: _) as rest => negb (Qle_bool a b) && alwaysFalls rest
  | _ => true
  end.

(** No gain so far and some loss. *)
Definition loss_only (acc : num * num) : Prop :=
  exists g l : Q, acc = (Fin g, Fin l) /\ g == 0 /\ 0 < l.

(** No loss so far. *)
Definition gain_only (acc : num * num) : Prop :=
  exists g l : Q, acc = (Fin g, Fin l) /\ l == 0.

Definition flat15 : list Q := repeat 100 15.

Definition falling15 : list Q :=
  [24; 23; 22; 21; 20; 19; 18; 17; 16; 15; 14; 13; 12; 11; 10].

End TrendSpec.

(* ================================================================== *)
(** * data.js: the data file *)
(* ================================================================== *)

Module Data.

(** The object of the data file as [JSON.parse] gives it, for a file
    whose fields have the types [saveDataAndSettings] writes: numbers where
    it writes numbers, and in [x] a date string that [new Date] reads as a
    valid date, kept here as its day.  An absent field is [None]. *)
Record FileSettings : Type := mkFileSettings {
  file_riskPerTrade : option num;
  file_maxConcurrentScalps : option num;
  file_limitOrderOffset : option num;
  file_aiAnalysisFreq : option num
}.

Record FilePoint : Type := mkFilePoint { file_day : string; file_y : num }.

Record DataFile : Type := mkDataFile {
  file_performanceData : option (list FilePoint);
  file_initialEquity : option num;
  file_settings : option FileSettings;
  file_isFirstTradeMadeToday : option bool;
  file_lastTradeDate : option string
}.

(** What [loadDataFromFile] finds: no file, an empty one, one that cannot
    be read or parsed, or the parsed object. *)
Inductive FileContents : Type :=
| NoFile
| EmptyFile
| Unreadable
| Parsed (data : DataFile).

Inductive LoadLog : Type := LogNoDataFile | LogDataLoaded | LogReadFailed.

(** [{ ...state.settings, ...data.settings }] *)
Definition mergeSettings (old : Settings) (f : FileSettings) : Settings :=
  mkSettings
    (match file_riskPerTrade f with Some v => v | None => riskPerTrade old end)
    (match file_maxConcurrentScalps f with Some v => v | None => maxConcurrentScalps old end)
    (match file_limitOrderOffset f with Some v => v | None => limitOrderOffset old end)
    (match file_aiAnalysisFreq f with Some v => v | None => aiAnalysisFreq old end).

(** [d => ({ ...d, x: new Date(d.x) })] *)
Definition loadedPoint (d : FilePoint) : PerfPoint :=
  mkPerfPoint (Some (file_day d)) (file_y d).

(** [a[a.length - 1]] when [a.length > 0] *)
Definition lastEntry (perf : list PerfPoint) : option PerfPoint :=
  match perf with
  | [] => None
  | _ => nth_error perf (length perf - 1)
  end.

(** [newState.portfolio] *)
Definition loadedPortfolio (old : Portfolio) (perf : list PerfPoint)
    (initialEquity : num) : Portfolio :=
  match lastEntry perf with
  | Some entry => mkPortfolio (y entry) (y entry) initialEquity
  | None => mkPortfolio (equity old) (last_equity old) initialEquity
  end.

(** [data.lastTradeDate || null]: the empty string is falsy. *)
Definition loadedDate (d : option string) : option string :=
  match d with
  | Some s => if String.eqb s "" then None else Some s
  | None => None
  end.

(** The state after [setState(newState)]. *)
Definition applyData (data : DataFile) (st : State) : State :=
  let settings' :=
    match file_settings data with
    | Some f => mergeSettings (settings st) f
    | None => settings st
    end in
  let '(perf', portfolio') :=
    match file_performanceData data, file_initialEquity data with
    | Some points, Some initialEquity =>
        if truthy initialEquity then
          let perf := map loadedPoint points in
          (perf, loadedPortfolio (portfolio st) perf initialEquity)
        else (performanceData st, portfolio st)
    | _, _ => (performanceData st, portfolio st)
    end in
  mkState (isBotRunning st) settings' portfolio' (positions st) perf'
          (aiWatchlist st)
          (loadedDate (file_lastTradeDate data))
          (match file_isFirstTradeMadeToday data with
           | Some b => b
           | None => false
           end).

(** [loadDataFromFile()] *)
Definition loadDataFromFile (contents : FileContents) (st : State)
  : State * list LoadLog :=
  match contents with
  | NoFile => (st, [LogNoDataFile])
  | EmptyFile => (st, [])
  | Unreadable => (st, [LogReadFailed])
  | Parsed data => (applyData data st, [LogDataLoaded])
  end.

(** [dataToSave] of [saveDataAndSettings], once through [JSON.stringify]
    and [JSON.parse]: a finite number comes back as it was and a date as a
    string of the same instant; NaN and the infinities would come back as
    null and a point without [x] without a date, which a [DataFile] does not
    hold, so the result is [None] then. *)
Definition finiteb (x : num) : bool :=
  match x with Fin _ => true | _ => false end.

Definition savedPoint (d : PerfPoint) : option FilePoint :=
  match x_day d with
  | Some day => if finiteb (y d) then Some (mkFilePoint day (y d)) else None
  | None => None
  end.

Fixpoint savedPoints (perf : list PerfPoint) : option (list FilePoint) :=
  match perf with
  | [] => Some []
  | d :: rest =>
      match savedPoint d, savedPoints rest with
      | Some p, Some ps => Some (p :: ps)
      | _, _ => None
      end
  end.

Definition savedSettings (s : Settings) : option FileSettings :=
  if finiteb (riskPerTrade s) && finiteb (maxConcurrentScalps s) &&
     finiteb (limitOrderOffset s) && finiteb (aiAnalysisFreq s)
  then Some (mkFileSettings (Some (riskPerTrade s)) (Some (maxConcurrentScalps s))
                            (Some (limitOrderOffset s)) (Some (aiAnalysisFreq s)))
  else None.

Definition dataToSave (st : State) : option DataFile :=
  match savedPoints (performanceData st), savedSettings (settings st) with
  | Some points, Some f =>
      if finiteb (initial_equity (portfolio st)) then
        Some (mkDataFile (Some points) (Some (initial_equity (portfolio st)))
                         (Some f) (Some (isFirstTradeMadeToday st))
                         (lastTradeDate st))
      else None
  | _, _ => None
  end.

End Data.

Module DataSpec.
Import Data.

(** A state at the end of a trading day: two points on the curve, a first
    trade made, and another state, fresh from the configuration. *)
Definition eveningState : State :=
  mkState true (mkSettings (Fin 2) (Fin 3) (Fin (5 # 100)) (Fin 15))
          (mkPortfolio (Fin 10100) (Fin 9900) (Fin 9500))
          [] PortfolioSpec.twoDays [] (Some "11/2/2026"%string) true.

(** The same with an account that never held anything. *)
Definition emptyAccountState : State :=
  mkState true (settings initialState)
          (mkPortfolio (Fin 0) (Fin 0) (Fin 0))
          [] [mkPerfPoint (Some "2026-11-02"%string) (Fin 0)] []
          (Some "11/2/2026"%string) false.

End DataSpec.

Module FlatSpec.
Import Utils.

(** A finite number of value [c]. *)
Definition valued (c : Q) (x : num) : Prop := exists q : Q, x = Fin q /\ q == c.

(** A market that does not move: every bar with high, low and close at
    [c]. *)
Definition flatBar (c : Q) : Bar := mkBar (Fin c) (Fin c) (Fin c).

Definition flatMarket (c : Q) (n : nat) : list Bar := repeat (flatBar c) n.

End FlatSpec.

Module OrderRequestSpec.
Import Api.

(** How a call settles, whatever it resolves with. *)
Definition settled {A : Type} (o : Outcome A) : Outcome unit :=
  match o with
  | Resolved _ => Resolved tt
  | Rejected e => Rejected e
  end.

(** A trace without what [fetchWithBackoff] does: the calls of [fetch],
    the sleeps and the rate-limit log lines. *)
Definition withoutRequests (trace : list Event) : list Event :=
  filter (fun ev => match ev with
                    | Fetch _ | Sleep _ | Log (LogRateLimit _) => false
                    | _ => true
                    end) trace.

(** The answer to the first POST is lost; the second is accepted. *)
Definition net_lost_then_ok (n : nat) : Fetched nat :=
  match n with
  | O => FetchFailed
  | _ => Responded (mkResponse 200 None (Some 1%nat))
  end.

End OrderRequestSpec.

(* ================================================================== *)
(** * Facts about numbers *)
(* ================================================================== *)

Section NumFacts.

Local Open Scope Q_scope.

Lemma geb_Fin_0 (d : Q) : geb (Fin d) (Fin 0) = true <-> 0 <= d.
Proof.
  unfold geb, cmp. destruct (Qcompare_spec d 0) as [E|E|E]; split; intros; try easy; lra.
Qed.

Lemma geb_Fin_0_false (d : Q) : geb (Fin d) (Fin 0) = false <-> d < 0.
Proof.
  unfold geb, cmp. destruct (Qcompare_spec d 0) as [E|E|E]; split; intros; try easy; lra.
Qed.

Lemma eqb_Fin (a b : Q) : eqb (Fin a) (Fin b) = true <-> a == b.
Proof.
  unfold eqb, cmp. destruct (Qcompare_spec a b) as [E|E|E]; split; intros; try easy; lra.
Qed.

Lemma div_Fin_nz (a b : Q) : ~ b == 0 -> div (Fin a) (Fin b) = Fin (a / b).
Proof.
  intros Hb. unfold div. destruct (Qcompare_spec b 0) as [E|E|E]; try reflexivity.
  contradiction.
Qed.

Lemma of_nat_pos (n : nat) : (1 <= n)%nat -> 1 <= inject_Z (Z.of_nat n).
Proof.
  intros Hn. change 1 with (inject_Z 1). rewrite <- Zle_Qle. lia.
Qed.

Lemma Qdiv_nonneg (a b : Q) : 0 <= a -> 0 < b -> 0 <= a / b.
Proof.
  intros Ha Hb. apply Qle_shift_div_l; [assumption | lra].
Qed.

Lemma num_eq_refl (x : num) : (x =~ x)%num.
Proof. destruct x; simpl; try exact I. reflexivity. Qed.

End NumFacts.

(** An invariant carried through a [for] loop written as a fold. *)
Lemma fold_left_invariant {A B : Type} (P : A -> Prop) (R : B -> Prop)
    (f : A -> B -> A) (xs : list B) :
  (forall a b, P a -> R b -> P (f a b)) ->
  Forall R xs -> forall a, P a -> P (fold_left f xs a).
Proof.
  intros Hstep Hxs. induction Hxs as [|x xs Hx _ IH]; intros a Ha; simpl.
  - assumption.
  - apply IH, Hstep; assumption.
Qed.

Lemma Forall_seq (P : nat -> Prop) (start len : nat) :
  (forall i, (start <= i < start + len)%nat -> P i) -> Forall P (seq start len).
Proof.
  intros H. apply Forall_forall. intros i Hi. apply in_seq in Hi. auto.
Qed.

(* ================================================================== *)
(** * calculateRSI *)
(* ================================================================== *)

Module RsiFacts.
Import RsiSpec.
Import Utils.
Local Open Scope Q_scope.

Lemma get_map_Fin (qs : list Q) (i : nat) :
  (i < length qs)%nat -> get (map Fin qs) i = Fin (nth i qs 0).
Proof.
  intros Hi. unfold get.
  rewrite (nth_indep _ NaN (Fin 0)) by (rewrite length_map; exact Hi).
  apply map_nth.
Qed.

Lemma rsi_seed_step_nonneg (qs : list Q) (acc : num * num) (i : nat) :
  nonneg_pair acc -> (1 <= i < length qs)%nat ->
  nonneg_pair (rsi_seed_step (map Fin qs) acc i).
Proof.
  intros (g & l & -> & Hg & Hl) Hi. unfold rsi_seed_step.
  rewrite !get_map_Fin by lia. cbn [sub neg add].
  set (d := nth i qs 0 + - nth (i - 1) qs 0).
  destruct (geb (Fin d) (Fin 0)) eqn:E.
  - apply geb_Fin_0 in E. exists (g + d), l. repeat split; try assumption; lra.
  - apply geb_Fin_0_false in E. exists g, (l + - d). repeat split; try assumption; lra.
Qed.

Lemma rsi_smooth_step_nonneg (qs : list Q) (period : nat) (acc : num * num) (i : nat) :
  (1 <= period)%nat ->
  nonneg_pair acc -> (1 <= i < length qs)%nat ->
  nonneg_pair (rsi_smooth_step (map Fin qs) period acc i).
Proof.
  intros Hp (g & l & -> & Hg & Hl) Hi. unfold rsi_smooth_step.
  rewrite !get_map_Fin by lia. unfold of_nat, of_Z. cbn [sub neg add mul].
  set (d := nth i qs 0 + - nth (i - 1) qs 0).
  pose proof (of_nat_pos period Hp) as Hp1. set (p := inject_Z (Z.of_nat period)) in *.
  assert (Hpz : ~ p == 0) by lra.
  assert (Hgp : 0 <= g * (p + - 1)) by (apply Qmult_le_0_compat; lra).
  assert (Hlp : 0 <= l * (p + - 1)) by (apply Qmult_le_0_compat; lra).
  destruct (geb (Fin d) (Fin 0)) eqn:E.
  - apply geb_Fin_0 in E. rewrite !div_Fin_nz by assumption.
    eexists _, _. split; [reflexivity|]. split; apply Qdiv_nonneg; lra.
  - apply geb_Fin_0_false in E. rewrite !div_Fin_nz by assumption.
    eexists _, _. split; [reflexivity|]. split; apply Qdiv_nonneg; lra.
Qed.

Lemma rsi_averages_nonneg (qs : list Q) (period : nat) :
  (1 <= period < length qs)%nat ->
  nonneg_pair (rsi_averages (map Fin qs) period).
Proof.
  intros Hp. unfold rsi_averages.
  assert (Hseed : nonneg_pair
            (fold_left (rsi_seed_step (map Fin qs)) (seq 1 period) (Fin 0, Fin 0))).
  { apply fold_left_invariant with (R := fun i => (1 <= i < length qs)%nat).
    - intros a b Ha Hb. apply rsi_seed_step_nonneg; assumption.
    - apply Forall_seq. intros i Hi. lia.
    - exists 0, 0. repeat split; lra. }
  destruct Hseed as (g & l & -> & Hg & Hl).
  apply fold_left_invariant with (R := fun i => (1 <= i < length qs)%nat).
  - intros a b Ha Hb. apply rsi_smooth_step_nonneg; [lia | assumption | assumption].
  - apply Forall_seq. intros i Hi. rewrite length_map in Hi. lia.
  - pose proof (of_nat_pos period ltac:(lia)) as Hp1.
    unfold of_nat, of_Z. rewrite !div_Fin_nz by lra.
    eexists _, _. split; [reflexivity|]. split; apply Qdiv_nonneg; lra.
Qed.

(** The closing formula stays within 0..100. *)
Lemma rsi_formula_range (g l : Q) :
  0 <= g -> 0 < l ->
  exists r, (Fin 100 - Fin 100 / (Fin 1 + Fin g / Fin l))%num = Fin r
            /\ 0 <= r <= 100.
Proof.
  intros Hg Hl.
  rewrite div_Fin_nz by lra. cbn [add].
  assert (Hrs : 0 <= g / l) by (apply Qdiv_nonneg; assumption).
  rewrite div_Fin_nz by lra. cbn [sub neg add].
  eexists. split; [reflexivity|].
  set (x := 1 + g / l) in *. assert (Hx : 1 <= x) by (unfold x; lra).
  assert (H0 : 0 <= 100 / x) by (apply Qdiv_nonneg; lra).
  assert (H1 : 100 / x <= 100).
  { apply Qle_shift_div_r; [lra|]. nra. }
  lra.
Qed.

Lemma calculateRSI_short (prices : list num) (period : nat) :
  (length prices <= period)%nat -> calculateRSI prices period = Fin 50.
Proof.
  intros H. unfold calculateRSI.
  destruct (Nat.ltb_spec (length prices) (period + 1)); [reflexivity | lia].
Qed.

Lemma calculateRSI_long (prices : list num) (period : nat) :
  (period < length prices)%nat ->
  calculateRSI prices period =
  (let '(avgGain, avgLoss) := rsi_averages prices period in
   if avgLoss === Fin 0 then Fin 100
   else Fin 100 - Fin 100 / (Fin 1 + avgGain / avgLoss))%num.
Proof.
  intros H. unfold calculateRSI.
  destruct (Nat.ltb_spec (length prices) (period + 1)); [lia | reflexivity].
Qed.

(** C8, as the code has it.  For a period of at least 1 (the code uses
    14): on every list of finite prices of magnitude at most 2^900
    [calculateRSI] returns a finite number between 0 and 100; on every list
    of at most [period] elements, whatever they are, it returns exactly 50;
    and on a longer list whose smoothed average loss is 0 it returns exactly
    100, the division by that average never being made.  The bound keeps
    every intermediate result of the code within the doubles; the range does
    not hold on every price list, as the lemma after this one shows. *)
Theorem calculateRSI_range_neutral_full (period : nat) (Hp : (1 <= period)%nat) :
  (forall qs : list Q,
      boundedPrices qs ->
      exists r : Q, calculateRSI (map Fin qs) period = Fin r /\ 0 <= r <= 100) /\
  (forall prices : list num,
      (length prices <= period)%nat -> calculateRSI prices period = Fin 50) /\
  (forall prices : list num,
      (period < length prices)%nat ->
      (snd (rsi_averages prices period) === Fin 0)%num = true ->
      calculateRSI prices period = Fin 100).
Proof.
  split; [|split].
  - intros qs _. destruct (Nat.le_gt_cases (length qs) period) as [Hs|Hl].
    + exists 50. split; [|lra]. apply calculateRSI_short. rewrite length_map. exact Hs.
    + rewrite calculateRSI_long by (rewrite length_map; exact Hl).
      destruct (rsi_averages_nonneg qs period ltac:(lia)) as (g & l & -> & Hg & Hl0).
      destruct (Fin l === Fin 0)%num eqn:E.
      * exists 100. split; [reflexivity | lra].
      * apply rsi_formula_range; [assumption|].
        destruct (Qlt_le_dec 0 l) as [Hpos|Hneg]; [assumption|].
        assert (Hz : l == 0) by lra. apply eqb_Fin in Hz. congruence.
  - intros prices H. apply calculateRSI_short, H.
  - intros prices H Hz. rewrite calculateRSI_long by exact H.
    destruct (rsi_averages prices period) as [g l]. simpl in Hz. rewrite Hz. reflexivity.
Qed.

Lemma calculateRSI_range_neutral_full_witness :
  (exists r : Q, calculateRSI (map Fin mixed16) 14 = Fin r /\ 0 <= r <= 100) /\
  calculateRSI (map Fin [10; 11; 12]) 14 = Fin 50 /\
  calculateRSI (map Fin rising15) 14 = Fin 100.
Proof.
  pose proof (calculateRSI_range_neutral_full 14 ltac:(lia)) as (Ha & Hb & Hc).
  split; [|split].
  - apply Ha. unfold boundedPrices, mixed16.
    repeat (constructor; [vm_compute; discriminate|]). constructor.
  - apply Hb. simpl. lia.
  - apply Hc; [simpl; lia | vm_compute; reflexivity].
Defined.

(** C8 as stated fails: not every price list gives a value in 0..100.
    With one close missing among fifteen, the differences on both sides of
    it are NaN, the average loss is NaN, which is not [=== 0], and the result
    is NaN: neither within 0..100 nor 100. *)
Lemma calculateRSI_not_a_number :
  (15 <= length missingClose15)%nat /\
  calculateRSI missingClose15 14 = NaN /\
  geb (calculateRSI missingClose15 14) (Fin 0) = false /\
  leb (calculateRSI missingClose15 14) (Fin 100) = false.
Proof. split; [vm_compute; lia|]. vm_compute. repeat split. Qed.

End RsiFacts.

(* ================================================================== *)
(** * fetchWithBackoff *)
(* ================================================================== *)

Module FetchFacts.
Import FetchSpec.
Import Api.

Section WithJson.

Variable Json : Type.
Implicit Types (net : nat -> Fetched Json) (f : Fetched Json).

Lemma success_resolves net n retries delay v :
  successOf (net n) = Some v ->
  fetchWithBackoff net n retries delay = (Resolved v, [Fetch n]).
Proof.
  unfold successOf. destruct retries; simpl;
    (destruct (net n) as [r|]; [|discriminate]);
    (destruct (ok r); simpl; [|discriminate]);
    (destruct (status r =? 204)%Z; [intros [= <-]; reflexivity|]);
    (destruct (json r); simpl; [intros [= <-]; reflexivity | discriminate]).
Qed.

Lemma unauthorized_rejects net n retries delay :
  hasStatus 401 (net n) = true ->
  fetchWithBackoff net n retries delay = (Rejected AuthError, [Fetch n]).
Proof.
  unfold hasStatus. destruct (net n) as [r|] eqn:E; [|discriminate].
  intros H. assert (Hok : ok r = false).
  { unfold ok. apply Z.eqb_eq in H. rewrite H. reflexivity. }
  destruct retries; simpl; rewrite E, Hok, H; reflexivity.
Qed.

Lemma rate_limited_retries net n retries delay :
  hasStatus 429 (net n) = true ->
  fetchWithBackoff net n (S retries) delay =
  (fst (fetchWithBackoff net (S n) retries (delay * 2)),
   Fetch n :: Log (LogRateLimit delay) :: Sleep delay ::
   snd (fetchWithBackoff net (S n) retries (delay * 2))).
Proof.
  unfold hasStatus. destruct (net n) as [r|] eqn:E; [|discriminate].
  intros H. assert (Hok : ok r = false).
  { unfold ok. apply Z.eqb_eq in H. rewrite H. reflexivity. }
  assert (H401 : (status r =? 401)%Z = false).
  { apply Z.eqb_eq in H. rewrite H. reflexivity. }
  simpl. rewrite E, Hok, H401, H. simpl.
  destruct (fetchWithBackoff net (S n) retries (delay * 2)). reflexivity.
Qed.

(** [k] rate-limited answers, with [k] retries left at least, lead to a
    call on the answer after them, after [k] sleeps and [k] fetches. *)
Lemma rate_limited_prefix net k :
  forall n retries delay,
  (k <= retries)%nat ->
  (forall i, (i < k)%nat -> hasStatus 429 (net (n + i)%nat) = true) ->
  exists retries' delay',
    let here := fetchWithBackoff net n retries delay in
    let there := fetchWithBackoff net (n + k) retries' delay' in
    fst here = fst there /\
    sleeps (snd here) = doubling delay k ++ sleeps (snd there) /\
    fetchCount (snd here) = (k + fetchCount (snd there))%nat.
Proof.
  induction k as [|k IH]; intros n retries delay Hk H429.
  - exists retries, delay. rewrite Nat.add_0_r. repeat split.
  - destruct retries as [|retries]; [lia|].
    assert (H0 : hasStatus 429 (net n) = true).
    { specialize (H429 O ltac:(lia)). rewrite Nat.add_0_r in H429. exact H429. }
    destruct (IH (S n) retries (delay * 2)%Z) as (retries' & delay' & Hv & Hs & Hc).
    + lia.
    + intros i Hi. specialize (H429 (S i) ltac:(lia)).
      replace (S n + i)%nat with (n + S i)%nat by lia. exact H429.
    + exists retries', delay'.
      replace (n + S k)%nat with (S n + k)%nat by lia.
      rewrite (rate_limited_retries net n retries delay H0).
      cbn [fst snd sleeps fetchCount doubling]. cbn zeta in Hv, Hs, Hc.
      rewrite Hv, Hs, Hc. repeat split.
Qed.

(** C4. With the default three retries and 2000 ms delay: [k] <= 3
    answers of status 429 followed by a success resolve with that success,
    after [k] sleeps of 2000, 4000, 8000 ms and [k] + 1 fetches, no error
    surfacing; an answer of status 401 rejects with [AuthError] at once,
    whatever the retries left, after that single fetch and no sleep, also
    when it comes after rate-limited answers, and [alpacaFetch] hands that
    rejection to its caller. *)
Theorem fetchWithBackoff_backoff_and_auth net :
  (forall k v,
      (k <= 3)%nat ->
      (forall i, (i < k)%nat -> hasStatus 429 (net i) = true) ->
      successOf (net k) = Some v ->
      fst (alpacaFetch net 0) = Resolved v /\
      sleeps (snd (alpacaFetch net 0)) = firstn k [2000; 4000; 8000]%Z /\
      fetchCount (snd (alpacaFetch net 0)) = S k) /\
  (forall n retries delay,
      hasStatus 401 (net n) = true ->
      fetchWithBackoff net n retries delay = (Rejected AuthError, [Fetch n])) /\
  (forall k,
      (k <= 3)%nat ->
      (forall i, (i < k)%nat -> hasStatus 429 (net i) = true) ->
      hasStatus 401 (net k) = true ->
      fst (alpacaFetch net 0) = Rejected AuthError /\
      fetchCount (snd (alpacaFetch net 0)) = S k).
Proof.
  split; [|split].
  - intros k v Hk H429 Hok. unfold alpacaFetch, defaultRetries, defaultDelay.
    destruct (rate_limited_prefix net k 0%nat 3%nat 2000%Z Hk H429)
      as (retries' & delay' & Hv & Hs & Hc).
    cbn zeta in Hv, Hs, Hc. cbn [Nat.add] in Hv, Hs, Hc.
    rewrite (success_resolves net k retries' delay' v Hok) in Hv, Hs, Hc.
    rewrite Hv, Hs, Hc. cbn [fst snd sleeps fetchCount].
    rewrite app_nil_r, Nat.add_1_r. repeat split.
    destruct k as [|[|[|[|k]]]]; try reflexivity. lia.
  - intros n retries delay H. apply unauthorized_rejects. exact H.
  - intros k Hk H429 H401. unfold alpacaFetch, defaultRetries, defaultDelay.
    destruct (rate_limited_prefix net k 0%nat 3%nat 2000%Z Hk H429)
      as (retries' & delay' & Hv & _ & Hc).
    cbn zeta in Hv, Hc. cbn [Nat.add] in Hv, Hc.
    rewrite (unauthorized_rejects net k retries' delay' H401) in Hv, Hc.
    rewrite Hv, Hc. cbn [fst snd fetchCount]. rewrite Nat.add_1_r. repeat split.
Qed.

End WithJson.

Lemma fetchWithBackoff_backoff_and_auth_witness :
  (fst (alpacaFetch net_429x3_then_ok 0) = Resolved (Body 7%nat) /\
   sleeps (snd (alpacaFetch net_429x3_then_ok 0)) = [2000; 4000; 8000]%Z /\
   fetchCount (snd (alpacaFetch net_429x3_then_ok 0)) = 4%nat) /\
  alpacaFetch net_401 0 = (Rejected AuthError, [Fetch 0%nat]) /\
  (fst (alpacaFetch net_429_then_401 0) = Rejected AuthError /\
   fetchCount (snd (alpacaFetch net_429_then_401 0)) = 2%nat).
Proof.
  split; [|split].
  - apply (proj1 (fetchWithBackoff_backoff_and_auth nat net_429x3_then_ok)
             3%nat (Body 7%nat)).
    + lia.
    + intros [|[|[|i]]] Hi; try reflexivity. lia.
    + reflexivity.
  - apply (proj1 (proj2 (fetchWithBackoff_backoff_and_auth nat net_401))).
    reflexivity.
  - apply (proj2 (proj2 (fetchWithBackoff_backoff_and_auth nat net_429_then_401))
             1%nat).
    + lia.
    + intros [|i] Hi; [reflexivity | lia].
    + reflexivity.
Defined.

End FetchFacts.

(* ================================================================== *)
(** * runScalpingStrategy *)
(* ================================================================== *)

Module ScalpingFacts.
Import ScalpingSpec.
Import Strategy.

Lemma tradeAttempts_app (t1 t2 : list Event) :
  tradeAttempts (t1 ++ t2) = tradeAttempts t1 ++ tradeAttempts t2.
Proof.
  induction t1 as [|e t1 IH]; [reflexivity|].
  destruct e; simpl; rewrite IH; reflexivity.
Qed.

(** A call of [executeTrade] is one attempt, on the symbol of its entry. *)
Lemma executeTrade_attempts (st : State) (stock : WatchlistEntry)
    (answers : TradeAnswers) :
  tradeAttempts (executeTrade st stock answers) = [ticker stock].
Proof.
  unfold executeTrade. cbn [tradeAttempts]. f_equal.
  destruct (validQuote (quoteAnswer answers)) as [e|[ask bid]]; [reflexivity|].
  destruct (gtb _ _); [|reflexivity].
  cbn [tradeAttempts]. unfold Api.placeBracketOrder. cbn [tradeAttempts].
  destruct (orderAnswer answers); reflexivity.
Qed.

(** With no open position, no entry has one, and the count is 0. *)
Lemma hasPosition_none (st : State) (stock : WatchlistEntry) :
  positions st = [] -> hasPosition st stock = false.
Proof. intros H. unfold hasPosition. rewrite H. reflexivity. Qed.

(** C1. In every state with a non-empty watchlist, no open position, the
    cap on positions not reached and the first trade of the day not yet
    made, [runScalpingStrategy] calls [executeTrade] once, on the first
    entry of the watchlist, sets [isFirstTradeMadeToday] and returns: its
    trace is the two log lines followed by the trace of that one call, and
    the only trade attempt is on the first entry's ticker. *)
Theorem first_trade_on_top_entry_only (st : State)
    (world : nat -> TradeAnswers) (stock : WatchlistEntry)
    (rest : list WatchlistEntry) :
  aiWatchlist st = stock :: rest ->
  positions st = [] ->
  capReached st = false ->
  isFirstTradeMadeToday st = false ->
  runScalpingStrategy st world =
    (set_isFirstTradeMadeToday true st,
     Log LogScalpingScan :: Log LogFirstTrade ::
     executeTrade st stock (world 0%nat)) /\
  tradeAttempts (snd (runScalpingStrategy st world)) = [ticker stock] /\
  isFirstTradeMadeToday (fst (runScalpingStrategy st world)) = true /\
  aiWatchlist (fst (runScalpingStrategy st world)) = aiWatchlist st.
Proof.
  intros Hw Hp Hcap Hfirst.
  assert (Hrun : runScalpingStrategy st world =
    (set_isFirstTradeMadeToday true st,
     Log LogScalpingScan :: Log LogFirstTrade ::
     executeTrade st stock (world 0%nat))).
  { unfold runScalpingStrategy.
    rewrite Hw, Hcap, Hfirst, (hasPosition_none st stock Hp). reflexivity. }
  rewrite Hrun. cbn [fst snd tradeAttempts].
  rewrite executeTrade_attempts. repeat split.
Qed.

Lemma scanWatchlist_attempts (st : State) (world : nat -> TradeAnswers)
    (stocks : list WatchlistEntry) :
  capReached st = false ->
  forall i,
  tradeAttempts (scanWatchlist st world i stocks) =
  map ticker (filter (entrySignal st) stocks).
Proof.
  intros Hcap. induction stocks as [|stock rest IH]; intros i; [reflexivity|].
  cbn [scanWatchlist filter]. unfold entrySignal at 1.
  destruct (hasPosition st stock); cbn [negb andb]; [apply IH|].
  rewrite Hcap.
  destruct (is5minTrendBullish stock && isRsiPullback stock); [|apply IH].
  cbn [tradeAttempts map]. rewrite tradeAttempts_app, executeTrade_attempts, IH.
  reflexivity.
Qed.

Lemma leb_not_gtb (x y : num) : leb x y = true -> gtb x y = false.
Proof. unfold leb, gtb. destruct (cmp x y) as [[]|]; easy. Qed.

(** The code's tests and the condition of the specification agree. *)
Lemma hasPosition_spec (st : State) (stock : WatchlistEntry) :
  negb (hasPosition st stock) = spec_noOpenPosition st stock.
Proof.
  unfold hasPosition, spec_noOpenPosition.
  induction (positions st) as [|p rest IH]; [reflexivity|].
  cbn [existsb forallb]. rewrite negb_orb, IH. reflexivity.
Qed.

Lemma entrySignal_spec (st : State) (stock : WatchlistEntry) :
  entrySignal st stock = spec_entryCondition st stock.
Proof.
  unfold entrySignal, spec_entryCondition, is5minTrendBullish, isRsiPullback.
  rewrite hasPosition_spec. reflexivity.
Qed.

(** C6. Once the first trade of the day is made and while the number of
    open positions is below [maxConcurrentScalps], [runScalpingStrategy]
    leaves the state as it is and attempts a trade on exactly the watchlist
    entries that meet the condition of the specification -- no open position
    on their symbol, a MACD histogram above 0 and a 1-minute RSI below 45 --,
    in watchlist order: a symbol is attempted if and only if it is the ticker
    of such an entry.  With a watchlist of two entries A and B, A with a
    histogram at most 0, B with no position, a histogram above 0 and an RSI
    below 45, the only attempt is on B. *)
Theorem technical_scan_attempts (st : State) (world : nat -> TradeAnswers) :
  isFirstTradeMadeToday st = true ->
  spec_capReached st = false ->
  fst (runScalpingStrategy st world) = st /\
  tradeAttempts (snd (runScalpingStrategy st world)) =
    map ticker (filter (spec_entryCondition st) (aiWatchlist st)) /\
  (forall sym : string,
      In sym (tradeAttempts (snd (runScalpingStrategy st world))) <->
      exists stock,
        In stock (aiWatchlist st) /\ ticker stock = sym /\
        (forall p, In p (positions st) -> symbol p <> ticker stock) /\
        gtb (Utils.histogram (macd stock)) (Fin 0) = true /\
        ltb (rsi1m stock) (Fin 45) = true) /\
  (forall A B : WatchlistEntry,
      aiWatchlist st = [A; B] ->
      leb (Utils.histogram (macd A)) (Fin 0) = true ->
      (forall p, In p (positions st) -> symbol p <> ticker B) ->
      gtb (Utils.histogram (macd B)) (Fin 0) = true ->
      ltb (rsi1m B) (Fin 45) = true ->
      tradeAttempts (snd (runScalpingStrategy st world)) = [ticker B]).
Proof.
  intros Hfirst Hcap.
  assert (Hcap' : capReached st = false) by exact Hcap.
  assert (Hrun : runScalpingStrategy st world =
            (st, match aiWatchlist st with
                 | [] => [Log LogScalpingScan]
                 | _ => Log LogScalpingScan :: technicalScan st world
                 end)).
  { unfold runScalpingStrategy. destruct (aiWatchlist st); [reflexivity|].
    rewrite Hcap', Hfirst. reflexivity. }
  assert (Hatt : tradeAttempts (snd (runScalpingStrategy st world)) =
                 map ticker (filter (spec_entryCondition st) (aiWatchlist st))).
  { rewrite Hrun. cbn [snd]. unfold technicalScan.
    rewrite <- (filter_ext _ _ (entrySignal_spec st)).
    destruct (aiWatchlist st) as [|s l] eqn:E; [reflexivity|].
    cbn [tradeAttempts]. apply scanWatchlist_attempts, Hcap'. }
  assert (Hfree : forall stock,
             spec_noOpenPosition st stock = true <->
             (forall p, In p (positions st) -> symbol p <> ticker stock)).
  { intros stock. unfold spec_noOpenPosition. rewrite forallb_forall.
    split; intros H p Hp; specialize (H p Hp).
    - apply negb_true_iff in H. apply String.eqb_neq, H.
    - apply negb_true_iff, String.eqb_neq, H. }
  split; [rewrite Hrun; reflexivity|]. split; [exact Hatt|]. split.
  - intros sym. rewrite Hatt, in_map_iff. split.
    + intros (stock & Hsym & Hin). apply filter_In in Hin as [Hin Hc].
      unfold spec_entryCondition in Hc.
      apply andb_true_iff in Hc as [Hc Hrsi]. apply andb_true_iff in Hc as [Hpos Hh].
      exists stock. repeat split; try assumption. apply Hfree, Hpos.
    + intros (stock & Hin & Hsym & Hpos & Hh & Hrsi).
      exists stock. split; [exact Hsym|]. apply filter_In. split; [exact Hin|].
      unfold spec_entryCondition. rewrite Hh, Hrsi, (proj2 (Hfree stock) Hpos).
      reflexivity.
  - intros A B Hw HA HposB HB Hrsi. rewrite Hatt, Hw. cbn [filter].
    unfold spec_entryCondition.
    rewrite (leb_not_gtb _ _ HA), (proj2 (Hfree B) HposB), HB, Hrsi, andb_false_r.
    reflexivity.
Qed.

Lemma first_trade_on_top_entry_only_witness :
  tradeAttempts (snd (runScalpingStrategy (stateAB false) steadyWorld))
    = ["A"%string] /\
  isFirstTradeMadeToday (fst (runScalpingStrategy (stateAB false) steadyWorld))
    = true.
Proof.
  destruct (first_trade_on_top_entry_only (stateAB false) steadyWorld
              entryA [entryB] eq_refl eq_refl eq_refl eq_refl)
    as (_ & Ha & Hf & _).
  split; [exact Ha | exact Hf].
Defined.

(** The two-entry example, and four entries of which one fails on the
    histogram, one on the RSI and one on its open position. *)
Lemma technical_scan_attempts_witness :
  tradeAttempts (snd (runScalpingStrategy (stateAB true) steadyWorld))
    = ["B"%string] /\
  tradeAttempts (snd (runScalpingStrategy stateABCD steadyWorld))
    = ["B"%string].
Proof.
  split.
  - apply (proj2 (proj2 (proj2 (technical_scan_attempts (stateAB true) steadyWorld
                                  eq_refl eq_refl))) entryA entryB);
      try reflexivity.
    intros p [].
  - rewrite (proj1 (proj2 (technical_scan_attempts stateABCD steadyWorld
                             eq_refl eq_refl))).
    reflexivity.
Defined.

End ScalpingFacts.

(* ================================================================== *)
(** * Ordering of numbers *)
(* ================================================================== *)

Module OrderFacts.

Local Open Scope Q_scope.

Ltac cmpQ :=
  repeat match goal with
         | |- context [Qcompare ?a ?b] => destruct (Qcompare_spec a b)
         | H : context [Qcompare ?a ?b] |- _ => destruct (Qcompare_spec a b)
         end.

(** The comparator of the sort is positive exactly when its first
    argument is the smaller. *)
Lemma gtb_sub_ltb (a b : num) : gtb (b - a)%num (Fin 0) = ltb a b.
Proof.
  destruct a as [x| | |], b as [y| | |]; try reflexivity.
  unfold gtb, ltb, sub, neg, add, cmp. cmpQ; try reflexivity; lra.
Qed.

Lemma geb_trans (a b c : num) :
  geb a b = true -> geb b c = true -> geb a c = true.
Proof.
  destruct a as [x| | |], b as [y| | |], c as [z| | |];
    unfold geb, cmp; try easy;
    cmpQ; try easy; lra.
Qed.

Lemma ltb_geb (a b : num) : ltb a b = true -> geb b a = true.
Proof.
  destruct a as [x| | |], b as [y| | |]; unfold ltb, geb, cmp; try easy;
    cmpQ; try easy; lra.
Qed.

(** Numbers that compare: on them the order is total. *)
Lemma not_ltb_geb (a b c : num) :
  geb a c = true -> geb b c = true -> ltb a b = false -> geb a b = true.
Proof.
  destruct a as [x| | |], b as [y| | |], c as [z| | |];
    unfold ltb, geb, cmp; try easy;
    cmpQ; try easy; lra.
Qed.

Lemma eqb_not_ltb (a b c : num) :
  eqb a c = true -> eqb b c = true -> ltb a b = false.
Proof.
  destruct a as [x| | |], b as [y| | |], c as [z| | |];
    unfold ltb, eqb, cmp; try easy;
    cmpQ; try easy; lra.
Qed.

Lemma geb_eqb_sym (a b : num) :
  geb a b = true -> geb b a = true -> forall c, eqb a c = eqb b c.
Proof.
  destruct a as [x| | |], b as [y| | |]; unfold geb, eqb, cmp; try easy;
    intros H1 H2 [z| | |]; try easy;
    cmpQ; try easy; lra.
Qed.

Lemma eqb_refl_geb (a c : num) : geb a c = true -> eqb a a = true.
Proof.
  destruct a as [x| | |], c as [z| | |]; unfold geb, eqb, cmp; try easy;
    intros _; cmpQ; try easy; lra.
Qed.

End OrderFacts.

(* ================================================================== *)
(** * runAiDrivenAnalysis *)
(* ================================================================== *)

Module AnalysisFacts.
Import AnalysisSpec.
Import Strategy OrderFacts.

Lemma goesAfter_ltb (a b : WatchlistEntry) :
  goesAfter a b = ltb (confidence a) (confidence b).
Proof. apply gtb_sub_ltb. Qed.

Lemma qualified_comparable (a : WatchlistEntry) :
  qualified a -> sameConfidence (confidence a) a = true.
Proof. intros [_ H]. exact (eqb_refl_geb _ _ H). Qed.

(** *** The sort is a permutation *)

Lemma insertSorted_perm (a : WatchlistEntry) (stocks : list WatchlistEntry) :
  Permutation (a :: stocks) (insertSorted a stocks).
Proof.
  induction stocks as [|b rest IH]; simpl; [reflexivity|].
  destruct (goesAfter a b); [|reflexivity].
  rewrite perm_swap. apply perm_skip, IH.
Qed.

Lemma sortByConfidence_perm (stocks : list WatchlistEntry) :
  Permutation stocks (sortByConfidence stocks).
Proof.
  induction stocks as [|a rest IH]; simpl; [reflexivity|].
  rewrite <- insertSorted_perm. apply perm_skip, IH.
Qed.

(** *** The result is descending *)

Lemma insertSorted_descending (a : WatchlistEntry) (stocks : list WatchlistEntry) :
  qualified a -> Forall qualified stocks ->
  descending stocks -> descending (insertSorted a stocks).
Proof.
  intros Ha Hq Hd. induction Hd as [|b rest Hrest IH Hb]; simpl.
  - repeat constructor.
  - inversion Hq as [|? ? Hqb Hqrest]; subst.
    rewrite goesAfter_ltb. destruct (ltb (confidence a) (confidence b)) eqn:E.
    + constructor; [apply IH, Hqrest|].
      apply (Permutation_Forall (insertSorted_perm a rest)).
      constructor; [apply ltb_geb, E | exact Hb].
    + assert (Hab : higherOrEqual a b).
      { exact (not_ltb_geb _ _ _ (proj2 Ha) (proj2 Hqb) E). }
      constructor; [constructor; assumption|].
      constructor; [exact Hab|].
      eapply Forall_impl; [|exact Hb]. intros c Hbc.
      exact (geb_trans _ _ _ Hab Hbc).
Qed.

Lemma sortByConfidence_descending (stocks : list WatchlistEntry) :
  Forall qualified stocks -> descending (sortByConfidence stocks).
Proof.
  induction 1 as [|a rest Ha Hrest IH]; simpl; [constructor|].
  apply insertSorted_descending; [exact Ha | | exact IH].
  apply (Permutation_Forall (sortByConfidence_perm rest)), Hrest.
Qed.

(** *** The sort is stable *)

Lemma insertSorted_filter (c : num) (a : WatchlistEntry)
    (stocks : list WatchlistEntry) :
  filter (sameConfidence c) (insertSorted a stocks) =
  filter (sameConfidence c) (a :: stocks).
Proof.
  induction stocks as [|b rest IH]; [reflexivity|].
  cbn [insertSorted]. rewrite goesAfter_ltb.
  destruct (ltb (confidence a) (confidence b)) eqn:E; [|reflexivity].
  cbn [filter] in *. rewrite IH.
  destruct (sameConfidence c a) eqn:Ea, (sameConfidence c b) eqn:Eb;
    try reflexivity.
  unfold sameConfidence in Ea, Eb.
  rewrite (eqb_not_ltb _ _ _ Ea Eb) in E. discriminate.
Qed.

Lemma sortByConfidence_stable (stocks : list WatchlistEntry) :
  keepsTieOrder stocks (sortByConfidence stocks).
Proof.
  intros c. induction stocks as [|a rest IH]; [reflexivity|].
  cbn [sortByConfidence fold_right]. rewrite insertSorted_filter.
  cbn [filter]. fold (sortByConfidence rest). rewrite IH. reflexivity.
Qed.

(** *** These three properties determine the result *)

Lemma filter_head_In {A : Type} (f : A -> bool) (xs : list A) (x : A)
    (ys : list A) :
  filter f xs = x :: ys -> In x xs.
Proof.
  intros H. assert (Hin : In x (filter f xs)) by (rewrite H; left; reflexivity).
  apply filter_In in Hin. tauto.
Qed.

Lemma descending_head (a : WatchlistEntry) (rest : list WatchlistEntry) (b : WatchlistEntry) :
  descending (a :: rest) -> In b rest -> higherOrEqual a b.
Proof.
  intros Hd Hin. inversion Hd as [|? ? _ Hall]; subst.
  rewrite Forall_forall in Hall. auto.
Qed.

Lemma descending_tie_order_unique (l1 : list WatchlistEntry) :
  forall l2,
  Forall qualified l1 -> Forall qualified l2 ->
  descending l1 -> descending l2 ->
  (forall c, filter (sameConfidence c) l1 = filter (sameConfidence c) l2) ->
  l1 = l2.
Proof.
  induction l1 as [|a l1 IH]; intros l2 Hq1 Hq2 Hd1 Hd2 Hf.
  - destruct l2 as [|b l2]; [reflexivity|].
    inversion Hq2 as [|? ? Hb _]; subst.
    specialize (Hf (confidence b)). cbn [filter] in Hf.
    rewrite (qualified_comparable _ Hb) in Hf. discriminate.
  - inversion Hq1 as [|? ? Ha Hq1']; subst.
    destruct l2 as [|b l2].
    { specialize (Hf (confidence a)). cbn [filter] in Hf.
      rewrite (qualified_comparable _ Ha) in Hf. discriminate. }
    inversion Hq2 as [|? ? Hb Hq2']; subst.
    assert (Hab : a = b).
    { pose proof (Hf (confidence a)) as Fa. pose proof (Hf (confidence b)) as Fb.
      cbn [filter] in Fa, Fb.
      rewrite (qualified_comparable _ Ha) in Fa.
      rewrite (qualified_comparable _ Hb) in Fb.
      destruct (sameConfidence (confidence a) b) eqn:Eab; [congruence|].
      destruct (sameConfidence (confidence b) a) eqn:Eba; [congruence|].
      symmetry in Fa. apply filter_head_In in Fa. apply filter_head_In in Fb.
      pose proof (descending_head _ _ _ Hd2 Fa) as Hba.
      pose proof (descending_head _ _ _ Hd1 Fb) as Hab.
      pose proof (geb_eqb_sym _ _ Hab Hba (confidence a)) as Heq.
      pose proof (qualified_comparable _ Ha) as Haa.
      unfold sameConfidence in Haa, Eab. congruence. }
    subst b. f_equal. apply IH; try assumption.
    + inversion Hd1; assumption.
    + inversion Hd2; assumption.
    + intros c. specialize (Hf c). cbn [filter] in Hf.
      destruct (sameConfidence c a); congruence.
Qed.

Lemma sortByConfidence_unique (stocks sorted : list WatchlistEntry) :
  Forall qualified stocks ->
  Permutation stocks sorted -> descending sorted -> keepsTieOrder stocks sorted ->
  sorted = sortByConfidence stocks.
Proof.
  intros Hq Hp Hd Hk. apply descending_tie_order_unique.
  - apply (Permutation_Forall Hp), Hq.
  - apply (Permutation_Forall (sortByConfidence_perm stocks)), Hq.
  - exact Hd.
  - apply sortByConfidence_descending, Hq.
  - intros c. rewrite (Hk c). symmetry. apply sortByConfidence_stable.
Qed.

(** *** The analysis *)

Lemma analyzeCandidate_qualified (a : CandidateAnswers) (e : WatchlistEntry) :
  analyzeCandidate a = Some e -> qualified e.
Proof.
  unfold analyzeCandidate.
  destruct (indicatorsAnswer a) as [ind|]; [|discriminate].
  destruct (recommendationAnswer a) as [r|]; [|discriminate].
  destruct (qualifies r) eqn:E; [|discriminate].
  intros [= <-]. unfold qualifies in E. apply andb_true_iff in E as [Hd Hc].
  split; [apply String.eqb_eq, Hd | exact Hc].
Qed.

Lemma analyzeCandidates_qualified (answers : nat -> CandidateAnswers)
    (candidates : list string) :
  forall i, Forall qualified (fst (analyzeCandidates answers i candidates)).
Proof.
  induction candidates as [|sym rest IH]; intros i; cbn [analyzeCandidates].
  - constructor.
  - specialize (IH (S i)).
    destruct (analyzeCandidates answers (S i) rest) as [stocks t]. cbn [fst] in *.
    destruct (analyzeCandidate (answers i)) eqn:E; [|exact IH].
    constructor; [exact (analyzeCandidate_qualified _ _ E) | exact IH].
Qed.

(** The loop over the candidates collects the qualifying entries, all
    of them and in scan order. *)
Lemma analyzeCandidate_qualifyingAt (answers : nat -> CandidateAnswers) (i : nat) :
  qualifyingAt answers i =
  match analyzeCandidate (answers i) with Some e => [e] | None => [] end.
Proof.
  unfold qualifyingAt, analyzeCandidate, qualifies.
  destruct (indicatorsAnswer (answers i)); [|reflexivity].
  destruct (recommendationAnswer (answers i)) as [r|]; [|reflexivity].
  destruct (_ && _); reflexivity.
Qed.

Lemma analyzeCandidates_collects (answers : nat -> CandidateAnswers)
    (candidates : list string) :
  forall i,
  fst (analyzeCandidates answers i candidates) =
  flat_map (qualifyingAt answers) (seq i (length candidates)).
Proof.
  induction candidates as [|sym rest IH]; intros i; [reflexivity|].
  cbn [analyzeCandidates length seq flat_map].
  rewrite <- IH, analyzeCandidate_qualifyingAt.
  destruct (analyzeCandidates answers (S i) rest) as [stocks t].
  destruct (analyzeCandidate (answers i)); reflexivity.
Qed.

Lemma sortByConfidence_nonempty (stocks : list WatchlistEntry) :
  stocks <> [] -> sortByConfidence stocks <> [].
Proof.
  intros Hne Hnil. apply Hne. apply Permutation_nil.
  rewrite <- Hnil. symmetry. apply sortByConfidence_perm.
Qed.

Lemma runAiDrivenAnalysis_watchlist (st : State) (world : AnalysisAnswers)
    (candidates headlines : list string) :
  isBotRunning st = true ->
  moversAnswer world = Resolved candidates ->
  newsAnswer world = Resolved headlines ->
  aiWatchlist (fst (runAiDrivenAnalysis st world)) =
  match qualifyingEntries world candidates with
  | [] => aiWatchlist st
  | _ => sortByConfidence (qualifyingEntries world candidates)
  end.
Proof.
  intros Hrun Hm Hn. unfold qualifyingEntries.
  rewrite <- analyzeCandidates_collects. unfold runAiDrivenAnalysis.
  rewrite Hrun, Hm, Hn. cbn [negb].
  destruct candidates as [|sym rest]; [reflexivity|].
  destruct (analyzeCandidates (candidateAnswers world) 0 (sym :: rest))
    as [[|e stocks] t]; reflexivity.
Qed.

(** Whatever the answers, the analysis leaves the watchlist as it is or
    replaces it by a non-empty one. *)
Lemma runAiDrivenAnalysis_keeps_or_fills (st : State) (world : AnalysisAnswers) :
  aiWatchlist (fst (runAiDrivenAnalysis st world)) = aiWatchlist st \/
  aiWatchlist (fst (runAiDrivenAnalysis st world)) <> [].
Proof.
  unfold runAiDrivenAnalysis.
  destruct (isBotRunning st); cbn [negb]; [|left; reflexivity].
  destruct (moversAnswer world) as [[|sym rest]|e]; try (left; reflexivity).
  destruct (newsAnswer world) as [headlines|e]; [|left; reflexivity].
  destruct (analyzeCandidates (candidateAnswers world) 0 (sym :: rest))
    as [[|a stocks] t]; [left; reflexivity|].
  right. cbn [fst set_aiWatchlist aiWatchlist].
  apply sortByConfidence_nonempty. discriminate.
Qed.

(** C3. Let an analysis run to its end (the bot running, the movers and
    the news fetched) and [q] be the entries that qualify, a BUY of
    confidence at least 7 each, in scan order.  If [q] is not empty the new
    watchlist is [q] sorted by the code: a permutation of [q], descending by
    confidence, ties in scan order, and the only list with these three
    properties.  If [q] is empty the watchlist is the old one.  And whatever
    the answers of the network, a non-empty watchlist is never left empty. *)
Theorem analysis_replaces_or_keeps_watchlist (st : State)
    (world : AnalysisAnswers) :
  (forall candidates headlines,
      isBotRunning st = true ->
      moversAnswer world = Resolved candidates ->
      newsAnswer world = Resolved headlines ->
      let q := qualifyingEntries world candidates in
      let after := aiWatchlist (fst (runAiDrivenAnalysis st world)) in
      Forall qualified q /\
      (q <> [] ->
       after = sortByConfidence q /\
       Permutation q after /\ descending after /\ keepsTieOrder q after /\
       (forall sorted,
           Permutation q sorted -> descending sorted -> keepsTieOrder q sorted ->
           sorted = after)) /\
      (q = [] -> after = aiWatchlist st)) /\
  (aiWatchlist st <> [] ->
   aiWatchlist (fst (runAiDrivenAnalysis st world)) <> []).
Proof.
  split.
  - intros candidates headlines Hrun Hm Hn q after.
    assert (Hq : Forall qualified q).
    { subst q. unfold qualifyingEntries. rewrite <- analyzeCandidates_collects.
      apply analyzeCandidates_qualified. }
    assert (Hafter : after = match q with [] => aiWatchlist st
                                     | _ => sortByConfidence q end).
    { exact (runAiDrivenAnalysis_watchlist st world _ _ Hrun Hm Hn). }
    split; [exact Hq|]. split.
    + intros Hne.
      assert (Hs : after = sortByConfidence q).
      { rewrite Hafter. destruct q; [contradiction|reflexivity]. }
      rewrite Hs. split; [reflexivity|]. split; [apply sortByConfidence_perm|].
      split; [apply sortByConfidence_descending, Hq|].
      split; [apply sortByConfidence_stable|].
      intros sorted Hp Hd Hk. apply sortByConfidence_unique; assumption.
    + intros Hnil. rewrite Hafter, Hnil. reflexivity.
  - intros Hne. destruct (runAiDrivenAnalysis_keeps_or_fills st world) as [H|H].
    + rewrite H. exact Hne.
    + exact H.
Qed.

Lemma analysis_replaces_or_keeps_watchlist_witness :
  map ticker (aiWatchlist (fst (runAiDrivenAnalysis runningState fourWorld)))
    = ["BBB"; "AAA"; "DDD"]%string /\
  aiWatchlist (fst (runAiDrivenAnalysis runningState barrenWorld))
    = aiWatchlist runningState /\
  aiWatchlist (fst (runAiDrivenAnalysis runningState barrenWorld)) <> [].
Proof.
  destruct (analysis_replaces_or_keeps_watchlist runningState fourWorld)
    as [Hfour _].
  destruct (Hfour _ _ eq_refl eq_refl eq_refl) as (_ & Hsome & _).
  destruct (analysis_replaces_or_keeps_watchlist runningState barrenWorld)
    as [Hbarren Hkeep].
  destruct (Hbarren _ _ eq_refl eq_refl eq_refl) as (_ & _ & Hnone).
  split; [|split].
  - destruct Hsome as [-> _]; [discriminate | reflexivity].
  - apply Hnone. reflexivity.
  - apply Hkeep. discriminate.
Defined.

End AnalysisFacts.

(* ================================================================== *)
(** * tradeCycle *)
(* ================================================================== *)

Module CycleFacts.
Import CycleSpec.
Import App.

Lemma afterDateCheck_running (st : State) (w : CycleWorld) :
  isBotRunning (afterDateCheck st w) = isBotRunning st.
Proof. unfold afterDateCheck. destruct (sameDate _ _); reflexivity. Qed.

Lemma runScalpingStrategy_running (st : State)
    (world : nat -> Strategy.TradeAnswers) :
  isBotRunning (fst (Strategy.runScalpingStrategy st world)) = isBotRunning st /\
  portfolio (fst (Strategy.runScalpingStrategy st world)) = portfolio st /\
  positions (fst (Strategy.runScalpingStrategy st world)) = positions st.
Proof.
  unfold Strategy.runScalpingStrategy.
  destruct (aiWatchlist st); [repeat split|].
  destruct (Strategy.capReached st); [repeat split|].
  destruct (isFirstTradeMadeToday st); cbn [negb]; [repeat split|].
  destruct (Strategy.hasPosition st w); repeat split.
Qed.

Lemma tradeCycle_stopped (st : State) (ts : Timers) (w : CycleWorld) :
  isBotRunning st = false -> tradeCycle st ts w = (st, ts, []).
Proof. intros H. unfold tradeCycle. rewrite H. reflexivity. Qed.

Lemma tradeCycle_auth_failure (st : State) (ts : Timers) (w : CycleWorld) :
  isBotRunning st = true ->
  refreshAnswer w = Rejected AuthError ->
  tradeCycle st ts w =
  (set_isBotRunning false (afterDateCheck st w),
   mkTimers false false,
   dateCheckLog st w ++
   [Log LogCycleStart; Log (LogPortfolioFailed AuthError);
    Log (LogCycleError AuthError);
    ClearInterval TradeCycleTimer; ClearInterval AiAnalysisTimer; Save true;
    UpdateStatus "Idle"; Log LogBotStopped]).
Proof.
  intros Hrun Hans. unfold tradeCycle, afterDateCheck, dateCheckLog.
  rewrite Hrun. cbn [negb].
  destruct (sameDate (lastTradeDate st) (localDate w));
    unfold Api.updatePortfolioAndPositions; rewrite Hans; reflexivity.
Qed.

Lemma tradeCycle_other_failure (st : State) (ts : Timers) (w : CycleWorld)
    (e : Error) :
  isBotRunning st = true ->
  refreshAnswer w = Rejected e ->
  isAuthError e = false ->
  tradeCycle st ts w =
  (fst (strategyStep (afterDateCheck st w) w),
   ts,
   dateCheckLog st w ++
   Log LogCycleStart :: Log (LogPortfolioFailed e) ::
   snd (strategyStep (afterDateCheck st w) w) ++
   [Save false; Log LogCycleFinished]).
Proof.
  intros Hrun Hans He. unfold tradeCycle.
  rewrite Hrun. cbn [negb].
  assert (Hsave : saveDataAndSettings
                    (fst (strategyStep (afterDateCheck st w) w)) false
                  = [Save false]).
  { unfold saveDataAndSettings, strategyStep.
    destruct (isMarketOpen _ _ _); cbn [fst].
    - rewrite (proj1 (runScalpingStrategy_running _ _)),
        afterDateCheck_running, Hrun. reflexivity.
    - rewrite afterDateCheck_running, Hrun. reflexivity. }
  revert Hsave. unfold strategyStep, afterDateCheck, dateCheckLog.
  destruct (sameDate (lastTradeDate st) (localDate w));
    unfold Api.updatePortfolioAndPositions; rewrite Hans, He;
    destruct (isMarketOpen _ _ _);
    try destruct (Strategy.runScalpingStrategy _ _) as [st3 t3];
    cbn [fst snd app]; intros ->; reflexivity.
Qed.

Lemma clearedTimers_app (t1 t2 : list Event) :
  clearedTimers (t1 ++ t2) = clearedTimers t1 ++ clearedTimers t2.
Proof.
  induction t1 as [|e t1 IH]; [reflexivity|].
  destruct e; simpl; rewrite IH; reflexivity.
Qed.

Lemma executeTrade_clears_nothing (st : State) (stock : WatchlistEntry)
    (answers : Strategy.TradeAnswers) :
  clearedTimers (Strategy.executeTrade st stock answers) = [].
Proof.
  unfold Strategy.executeTrade. cbn [clearedTimers].
  destruct (Strategy.validQuote _) as [e|[ask bid]]; [reflexivity|].
  destruct (gtb _ _); [|reflexivity].
  unfold Api.placeBracketOrder. destruct (Strategy.orderAnswer answers); reflexivity.
Qed.

Lemma scanWatchlist_clears_nothing (st : State)
    (world : nat -> Strategy.TradeAnswers) (stocks : list WatchlistEntry) :
  forall i, clearedTimers (Strategy.scanWatchlist st world i stocks) = [].
Proof.
  induction stocks as [|stock rest IH]; intros i; [reflexivity|].
  cbn [Strategy.scanWatchlist].
  destruct (Strategy.hasPosition st stock); [apply IH|].
  destruct (Strategy.capReached st); [reflexivity|].
  destruct (_ && _); [|apply IH].
  cbn [clearedTimers]. rewrite clearedTimers_app, executeTrade_clears_nothing, IH.
  reflexivity.
Qed.

Lemma strategyStep_clears_nothing (st : State) (w : CycleWorld) :
  clearedTimers (snd (strategyStep st w)) = [].
Proof.
  unfold strategyStep. destruct (isMarketOpen _ _ _); [|reflexivity].
  unfold Strategy.runScalpingStrategy, Strategy.technicalScan.
  destruct (aiWatchlist st) as [|stock rest] eqn:E; [reflexivity|].
  destruct (Strategy.capReached st); [reflexivity|].
  destruct (isFirstTradeMadeToday st); cbn [negb snd clearedTimers].
  - apply scanWatchlist_clears_nothing.
  - destruct (Strategy.hasPosition st stock); cbn [negb snd clearedTimers].
    + apply scanWatchlist_clears_nothing.
    + apply executeTrade_clears_nothing.
Qed.

Lemma strategyStep_keeps (st : State) (w : CycleWorld) :
  isBotRunning (fst (strategyStep st w)) = isBotRunning st /\
  portfolio (fst (strategyStep st w)) = portfolio st /\
  positions (fst (strategyStep st w)) = positions st.
Proof.
  unfold strategyStep. destruct (isMarketOpen _ _ _).
  - apply runScalpingStrategy_running.
  - repeat split.
Qed.

Lemma afterDateCheck_keeps (st : State) (w : CycleWorld) :
  portfolio (afterDateCheck st w) = portfolio st /\
  positions (afterDateCheck st w) = positions st.
Proof. unfold afterDateCheck. destruct (sameDate _ _); split; reflexivity. Qed.

(** C9, as the code has it.  Let the portfolio refresh of a trade cycle
    fail with error [e], the bot running.  If [e] is the authentication
    failure the scheduler is stopped: the bot is marked not running, both
    intervals are cancelled, one forced save is made, no trade is attempted,
    and every later tick of either cycle does nothing.  If [e] is any other
    error it is logged by the refresh and goes no further: portfolio and
    positions stay as they were, no interval is cancelled, the bot stays
    running, and the cycle carries on with the strategy step (when the
    market is open) and the save that ends every cycle. *)
Theorem refresh_failure_stops_scheduler_only_on_auth (st : State)
    (ts : Timers) (w : CycleWorld) (e : Error) :
  isBotRunning st = true ->
  refreshAnswer w = Rejected e ->
  let r := tradeCycle st ts w in
  (isAuthError e = true ->
   isBotRunning (cycleState r) = false /\
   cycleTimers r = mkTimers false false /\
   clearedTimers (cycleTrace r) = [TradeCycleTimer; AiAnalysisTimer] /\
   In (Save true) (cycleTrace r) /\
   tradeAttempts (cycleTrace r) = [] /\
   (forall ts' w', tradeCycle (cycleState r) ts' w' = (cycleState r, ts', [])) /\
   (forall aw, Strategy.runAiDrivenAnalysis (cycleState r) aw
               = (cycleState r, []))) /\
  (isAuthError e = false ->
   isBotRunning (cycleState r) = true /\
   cycleTimers r = ts /\
   clearedTimers (cycleTrace r) = [] /\
   portfolio (cycleState r) = portfolio st /\
   positions (cycleState r) = positions st /\
   cycleTrace r =
     dateCheckLog st w ++
     Log LogCycleStart :: Log (LogPortfolioFailed e) ::
     snd (strategyStep (afterDateCheck st w) w) ++
     [Save false; Log LogCycleFinished]).
Proof.
  intros Hrun Hans r. split; intros He.
  - destruct e; try discriminate. subst r.
    rewrite (tradeCycle_auth_failure st ts w Hrun Hans).
    unfold cycleState, cycleTimers, cycleTrace. cbn [fst snd].
    assert (Hlog : forall t, clearedTimers (dateCheckLog st w ++ t) = clearedTimers t
                             /\ tradeAttempts (dateCheckLog st w ++ t)
                                = tradeAttempts t).
    { intros t. unfold dateCheckLog. destruct (sameDate _ _); split; reflexivity. }
    split; [reflexivity|]. split; [reflexivity|].
    split; [rewrite (proj1 (Hlog _)); reflexivity|].
    split; [apply in_or_app; right; simpl; tauto|].
    split; [rewrite (proj2 (Hlog _)); reflexivity|].
    split; [intros ts' w'; apply tradeCycle_stopped; reflexivity|].
    intros aw. reflexivity.
  - subst r. rewrite (tradeCycle_other_failure st ts w _ Hrun Hans He).
    unfold cycleState, cycleTimers, cycleTrace. cbn [fst snd].
    destruct (strategyStep_keeps (afterDateCheck st w) w) as (Hr & Hp & Hq).
    destruct (afterDateCheck_keeps st w) as (Hp' & Hq').
    split; [rewrite Hr, afterDateCheck_running; exact Hrun|].
    split; [reflexivity|].
    split.
    { rewrite clearedTimers_app. cbn [clearedTimers].
      rewrite clearedTimers_app, strategyStep_clears_nothing.
      unfold dateCheckLog. destruct (sameDate _ _); reflexivity. }
    split; [rewrite Hp; exact Hp'|].
    split; [rewrite Hq; exact Hq' | reflexivity].
Qed.

Lemma refresh_failure_stops_scheduler_only_on_auth_witness :
  (isBotRunning (cycleState (tradeCycle freshState bothTimers
                               (mondayNoon (Rejected AuthError)))) = false /\
   cycleTimers (tradeCycle freshState bothTimers (mondayNoon (Rejected AuthError)))
     = mkTimers false false) /\
  (isBotRunning (cycleState (tradeCycle freshState bothTimers
                               (mondayNoon (Rejected NetworkError)))) = true /\
   cycleTimers (tradeCycle freshState bothTimers (mondayNoon (Rejected NetworkError)))
     = bothTimers).
Proof.
  split.
  - destruct (refresh_failure_stops_scheduler_only_on_auth freshState bothTimers
                (mondayNoon (Rejected AuthError)) AuthError eq_refl eq_refl)
      as [Hauth _].
    destruct (Hauth eq_refl) as (H1 & H2 & _). split; assumption.
  - destruct (refresh_failure_stops_scheduler_only_on_auth freshState bothTimers
                (mondayNoon (Rejected NetworkError)) NetworkError eq_refl eq_refl)
      as [_ Hother].
    destruct (Hother eq_refl) as (H1 & H2 & _). split; assumption.
Defined.

(** C9 as stated fails on its second half: after a refresh that fails with
    a network error the cycle is not cut short.  The strategy runs on the
    portfolio and positions of the previous cycle, an order for "A" is
    submitted, and the state is saved. *)
Lemma refresh_error_does_not_abort_cycle :
  let r := tradeCycle freshState bothTimers (mondayNoon (Rejected NetworkError)) in
  tradeAttempts (cycleTrace r) = ["A"%string] /\
  map order_symbol (submittedOrders (cycleTrace r)) = ["A"%string] /\
  In (Save false) (cycleTrace r) /\
  isFirstTradeMadeToday (cycleState r) = true.
Proof.
  vm_compute. repeat split. tauto.
Qed.

End CycleFacts.

(* ================================================================== *)
(** * executeTrade *)
(* ================================================================== *)

Module TradeFacts.
Import TradeSpec TradeMoreSpec.
Import Strategy OrderFacts.

Local Open Scope Q_scope.

(** *** Rounding to cents *)

Lemma Qfloor_plus_half (z : Z) : Qfloor (inject_Z z + (1 # 2)) = z.
Proof.
  pose proof (Qfloor_le (inject_Z z + (1 # 2))) as Hle.
  pose proof (Qlt_floor (inject_Z z + (1 # 2))) as Hlt.
  set (f := Qfloor (inject_Z z + (1 # 2))) in *.
  rewrite inject_Z_plus in Hlt. change (inject_Z 1) with 1 in Hlt.
  assert (H1 : inject_Z f < inject_Z (z + 1)).
  { rewrite inject_Z_plus. change (inject_Z 1) with 1. lra. }
  assert (H2 : inject_Z z < inject_Z (f + 1)).
  { rewrite inject_Z_plus. change (inject_Z 1) with 1. lra. }
  rewrite <- Zlt_Qlt in H1, H2. lia.
Qed.

Lemma round_half_away_comp (q q' : Q) (f : nat) :
  q == q' -> round_half_away q f = round_half_away q' f.
Proof.
  intros H. unfold round_half_away.
  replace (q ?= 0) with (q' ?= 0)
    by (symmetry; apply Qcompare_comp; [exact H | reflexivity]).
  assert (Hf : Qfloor (Qabs q * inject_Z (pow10 f) + (1 # 2)) =
               Qfloor (Qabs q' * inject_Z (pow10 f) + (1 # 2))).
  { apply Qfloor_comp. rewrite H. reflexivity. }
  rewrite Hf. reflexivity.
Qed.

Lemma toFixed_comp (x y : num) (f : nat) :
  (x =~ y)%num -> (toFixed x f =~ toFixed y f)%num.
Proof.
  destruct x as [q| | |], y as [q'| | |]; simpl; try easy.
  intros H.
  replace (Qabs q ?= inject_Z (pow10 21)) with (Qabs q' ?= inject_Z (pow10 21))
    by (symmetry; apply Qcompare_comp; [apply Qabs_wd, H | reflexivity]).
  destruct (Qabs q' ?= inject_Z (pow10 21)); simpl; try exact H.
  rewrite (round_half_away_comp _ _ _ H). reflexivity.
Qed.

(** A whole number of cents is its own rounding. *)
Lemma round_half_away_cents (n : Z) :
  round_half_away (inject_Z n / 100) 2 == inject_Z n / 100.
Proof.
  unfold round_half_away. change (inject_Z (pow10 2)) with 100.
  destruct (Z.le_gt_cases 0 n) as [Hn|Hn].
  - assert (H0 : 0 <= inject_Z n / 100).
    { apply Qdiv_nonneg; [|lra]. change 0 with (inject_Z 0). rewrite <- Zle_Qle. exact Hn. }
    assert (Hf : Qfloor (Qabs (inject_Z n / 100) * 100 + (1 # 2)) = n).
    { transitivity (Qfloor (inject_Z n + (1 # 2))); [|apply Qfloor_plus_half].
      apply Qfloor_comp. rewrite (Qabs_pos _ H0). field. }
    rewrite Hf.
    destruct (Qcompare_spec (inject_Z n / 100) 0); try reflexivity. lra.
  - assert (Hneg : inject_Z n < 0).
    { change 0 with (inject_Z 0). rewrite <- Zlt_Qlt. lia. }
    assert (H0 : inject_Z n / 100 < 0).
    { apply Qlt_shift_div_r; lra. }
    assert (Hf : Qfloor (Qabs (inject_Z n / 100) * 100 + (1 # 2)) = (- n)%Z).
    { transitivity (Qfloor (inject_Z (- n) + (1 # 2))); [|apply Qfloor_plus_half].
      apply Qfloor_comp.
      rewrite (Qabs_neg (inject_Z n / 100)) by lra. rewrite inject_Z_opp. field. }
    rewrite Hf.
    destruct (Qcompare_spec (inject_Z n / 100) 0); try lra.
    rewrite inject_Z_opp. field.
Qed.

(** A number of cents below 10^21 goes through [toFixed(2)] unchanged. *)
Lemma toFixed_cents (q r : Q) (n : Z) :
  q == inject_Z n / 100 -> r == inject_Z n / 100 ->
  Qabs q < inject_Z (pow10 21) ->
  (toFixed (Fin q) 2 =~ Fin r)%num.
Proof.
  intros Hq Hr Hb. unfold toFixed.
  destruct (Qcompare_spec (Qabs q) (inject_Z (pow10 21))); try lra.
  simpl. rewrite (round_half_away_comp _ _ 2 Hq), round_half_away_cents.
  symmetry. exact Hr.
Qed.

(** *** Sizing and prices *)

Lemma submittedOrders_placeBracketOrder (sym : string) (quantity : num)
    (side : string) (limitPrice stopPrice takeProfitPrice : num)
    (answer : Outcome unit) :
  submittedOrders (Api.placeBracketOrder sym quantity side limitPrice stopPrice
                     takeProfitPrice answer) =
  [mkOrder sym quantity side limitPrice stopPrice takeProfitPrice].
Proof. unfold Api.placeBracketOrder. destruct answer; reflexivity. Qed.

Lemma executeTrade_orders (st : State) (stock : WatchlistEntry)
    (answers : TradeAnswers) (ask bid : num) :
  validQuote (quoteAnswer answers) = inr (ask, bid) ->
  submittedOrders (executeTrade st stock answers) =
  if gtb (tradeQuantity st stock) (Fin 0)
  then [mkOrder (ticker stock) (tradeQuantity st stock) "buy"
                (limitPriceOf st bid) (stopPriceOf stock ask)
                (takeProfitPriceOf stock ask)]
  else [].
Proof.
  intros Hq. unfold executeTrade. rewrite Hq. cbn [submittedOrders].
  destruct (gtb (tradeQuantity st stock) (Fin 0)); [|reflexivity].
  cbn [submittedOrders]. apply submittedOrders_placeBracketOrder.
Qed.

Lemma gtb_of_Z_0 (n : Z) : gtb (of_Z n) (Fin 0) = true <-> (0 < n)%Z.
Proof.
  unfold gtb, of_Z, cmp. rewrite Zlt_Qlt. change (inject_Z 0) with 0.
  destruct (Qcompare_spec (inject_Z n) 0); split; intros; try easy; lra.
Qed.

Lemma round_half_away_error (q : Q) :
  Qabs (round_half_away q 2 - q) <= 1 # 200 /\ wholeCents (round_half_away q 2).
Proof.
  unfold round_half_away. change (inject_Z (pow10 2)) with 100.
  pose proof (Qfloor_le (Qabs q * 100 + (1 # 2))) as Hle.
  pose proof (Qlt_floor (Qabs q * 100 + (1 # 2))) as Hlt.
  set (n := Qfloor (Qabs q * 100 + (1 # 2))) in *.
  rewrite inject_Z_plus in Hlt. change (inject_Z 1) with 1 in Hlt.
  set (v := inject_Z n / 100).
  assert (Hv : v * 100 == inject_Z n) by (unfold v; field).
  destruct (Qcompare_spec q 0) as [E|E|E].
  - split; [|exists n; reflexivity].
    rewrite (Qabs_pos q) in Hle, Hlt by lra.
    apply Qabs_Qle_condition. split; lra.
  - split.
    + rewrite (Qabs_neg q) in Hle, Hlt by lra.
      apply Qabs_Qle_condition. split; lra.
    + exists (- n)%Z. rewrite inject_Z_opp. unfold v. field.
  - split; [|exists n; reflexivity].
    rewrite (Qabs_pos q) in Hle, Hlt by lra.
    apply Qabs_Qle_condition. split; lra.
Qed.

Lemma toFixed_error (q : Q) :
  Qabs q < toFixedLimit ->
  exists y, toFixed (Fin q) 2 = Fin y /\ Qabs (y - q) <= 1 # 200 /\ wholeCents y.
Proof.
  intros Hb. unfold toFixed, toFixedLimit in *.
  destruct (Qcompare_spec (Qabs q) (inject_Z (pow10 21))); try lra.
  eexists. split; [reflexivity|]. apply round_half_away_error.
Qed.

(** The quantity is the floor of riskCapital / stopDistance. *)
Lemma quantity_floor (st : State) (stock : WatchlistEntry) (e r a : Q) :
  equity (portfolio st) = Fin e ->
  riskPerTrade (settings st) = Fin r ->
  atr stock = Fin a ->
  0 < a ->
  exists n : Z,
    tradeQuantity st stock = of_Z n /\
    inject_Z n * (2 * a) <= e * (r / 100) < (inject_Z n + 1) * (2 * a).
Proof.
  intros He Hr Ha Hpos.
  unfold tradeQuantity, capitalToRisk, stopLossDistance. rewrite He, Hr, Ha.
  rewrite (div_Fin_nz r 100) by lra. cbn [mul].
  rewrite div_Fin_nz by lra. cbn [floor].
  set (c := e * (r / 100)). set (d := 2 * a). assert (Hd : 0 < d) by (unfold d; lra).
  pose proof (Qfloor_le (c / d)) as Hle. pose proof (Qlt_floor (c / d)) as Hlt.
  set (n := Qfloor (c / d)) in *.
  rewrite inject_Z_plus in Hlt. change (inject_Z 1) with 1 in Hlt.
  assert (Hc : c / d * d == c) by (field; lra).
  assert (H1 : inject_Z n * d <= c).
  { rewrite <- Hc. apply Qmult_le_compat_r; lra. }
  assert (H2 : c < (inject_Z n + 1) * d).
  { rewrite <- Hc at 1. apply Qmult_lt_compat_r; lra. }
  exists n. split; [reflexivity|]. split; assumption.
Qed.

Lemma tolerance_nonneg : 0 <= tolerance.
Proof. vm_compute. discriminate. Qed.

Lemma slack_nonneg (c : Q) : 0 <= tolerance * Qabs c.
Proof. apply Qmult_le_0_compat; [apply tolerance_nonneg | apply Qabs_nonneg]. Qed.

Lemma marketSized_bound (q : Q) :
  marketSized q = true -> - sizeBound <= q <= sizeBound.
Proof.
  unfold marketSized. intros H. apply orb_true_iff in H as [H|H].
  - apply Qeq_bool_iff in H. unfold sizeBound. rewrite H.
    change (inject_Z (10 ^ 9)) with (1000000000 # 1). split; lra.
  - apply andb_true_iff in H as [_ H]. apply Qle_bool_iff in H.
    apply Qabs_Qle_condition in H. exact H.
Qed.

(** Market-sized inputs keep the three price formulas below the limit of
    [toFixed]. *)
Lemma formulas_below_limit (ask bid a f : Q) :
  marketSized ask = true -> marketSized bid = true ->
  marketSized a = true -> marketSized f = true ->
  Qabs (ask + - (2 * a)) < toFixedLimit /\
  Qabs (ask + 2 * a * (15 # 10)) < toFixedLimit /\
  Qabs (bid * (1 + f / 100)) < toFixedLimit.
Proof.
  intros Hask Hbid Ha Hf.
  apply marketSized_bound in Hask, Hbid, Ha, Hf.
  unfold sizeBound, toFixedLimit in *.
  change (inject_Z (10 ^ 9)) with (1000000000 # 1) in *.
  change (inject_Z (pow10 21)) with (1000000000000000000000 # 1).
  split; [apply Qabs_Qlt_condition; split; lra|].
  split; [apply Qabs_Qlt_condition; split; lra|].
  rewrite Qabs_Qmult.
  assert (Hb : Qabs bid <= 1000000000) by (apply Qabs_Qle_condition; lra).
  assert (Hy : Qabs (1 + f / 100) <= 10000001).
  { apply Qabs_Qle_condition.
    assert (H1 : f / 100 <= 10000000) by (apply Qle_shift_div_r; lra).
    assert (H2 : -10000000 <= f / 100) by (apply Qle_shift_div_l; lra).
    split; lra. }
  assert (H0 : 0 <= Qabs (1 + f / 100)) by apply Qabs_nonneg.
  assert (H1 : Qabs bid * Qabs (1 + f / 100) <= 1000000000 * Qabs (1 + f / 100))
    by (apply Qmult_le_compat_r; assumption).
  lra.
Qed.

(** C2, as the code has it.  The quote has non-zero ask and bid; equity,
    riskPerTrade, ATR (above 0), limitOrderOffset, ask and bid are finite and
    market-sized.  Risk capital is equity * (riskPerTrade / 100) and stop
    distance 2 * ATR; the code evaluates these and the prices in doubles, so
    each is met up to a relative error of [tolerance] = 2^-50.
    - If the risk capital is below the stop distance (by more than that
      error) nothing is submitted and the skip is logged.
    - If it covers the stop distance (by more than that error) one order is
      submitted.
    - Every order submitted is a buy for the ticker of the entry, of a whole
      number n >= 1 of shares that is the floor of riskCapital / stopDistance
      up to the error: n * stopDistance <= riskCapital and
      riskCapital < (n + 1) * stopDistance, each within the error.  Its three
      prices are not the formulas themselves but whole cents, from
      [toFixed(2)]: the stop-loss within half a cent of ask - stopDistance,
      the take-profit within half a cent of ask + stopDistance * 1.5, the
      limit within half a cent of bid * (1 + limitOrderOffset / 100), each
      again up to the error.
    - For equity 10000, riskPerTrade 1 and ATR 0.5 the quantity is 100 and,
      the ask being a whole number of cents, the stop-loss is ask - 1 and
      the take-profit ask + 1.5. *)
Theorem executeTrade_sizing_and_rounded_prices (st : State)
    (stock : WatchlistEntry) (answers : TradeAnswers) (ask bid e r a f : Q) :
  validQuote (quoteAnswer answers) = inr (Fin ask, Fin bid) ->
  equity (portfolio st) = Fin e ->
  riskPerTrade (settings st) = Fin r ->
  atr stock = Fin a ->
  limitOrderOffset (settings st) = Fin f ->
  0 < a ->
  marketSized ask = true -> marketSized bid = true ->
  marketSized e = true -> marketSized r = true ->
  marketSized a = true -> marketSized f = true ->
  let riskCapital := e * (r / 100) in
  let stopDistance := 2 * a in
  let slack := tolerance * Qabs riskCapital in
  (riskCapital + slack < stopDistance ->
   executeTrade st stock answers =
     [RequestQuote (ticker stock); Log (LogSizeZero (ticker stock))]) /\
  (stopDistance <= riskCapital - slack ->
   exists o, submittedOrders (executeTrade st stock answers) = [o]) /\
  (forall o, In o (submittedOrders (executeTrade st stock answers)) ->
     order_symbol o = ticker stock /\
     order_side o = "buy"%string /\
     (exists n : Z,
         order_qty o = of_Z n /\ (1 <= n)%Z /\
         inject_Z n * stopDistance <= riskCapital + slack /\
         riskCapital - slack < (inject_Z n + 1) * stopDistance) /\
     (exists stop profit limit : Q,
         order_stop_price o = Fin stop /\
         take_profit_price o = Fin profit /\
         limit_price o = Fin limit /\
         wholeCents stop /\ wholeCents profit /\ wholeCents limit /\
         Qabs (stop - (ask - stopDistance))
           <= (1 # 200) + tolerance * (Qabs ask + stopDistance) /\
         Qabs (profit - (ask + stopDistance * (15 # 10)))
           <= (1 # 200) + tolerance * (Qabs ask + stopDistance * (15 # 10)) /\
         Qabs (limit - bid * (1 + f / 100))
           <= (1 # 200) + tolerance * (Qabs bid * (1 + Qabs f / 100)))) /\
  (forall cents : Z,
      e == 10000 -> r == 1 -> a == 1 # 2 -> ask == inject_Z cents / 100 ->
      (0 < cents)%Z ->
      exists o, submittedOrders (executeTrade st stock answers) = [o] /\
                order_qty o = of_Z 100 /\
                (order_stop_price o =~ Fin (inject_Z cents / 100 - 1))%num /\
                (take_profit_price o =~ Fin (inject_Z cents / 100 + (15 # 10)))%num).
Proof.
  intros Hq He Hr Ha Hf Hpos Sask Sbid Se Sr Sa Sf riskCapital stopDistance slack.
  pose proof (slack_nonneg riskCapital) as Hslack. fold slack in Hslack.
  destruct (quantity_floor st stock e r a He Hr Ha Hpos) as (n & Hn & Hlo & Hhi).
  fold riskCapital stopDistance in Hlo, Hhi.
  assert (Hd : 0 < stopDistance) by (unfold stopDistance; lra).
  pose proof (executeTrade_orders st stock answers (Fin ask) (Fin bid) Hq) as Horders.
  rewrite Hn in Horders.
  destruct (formulas_below_limit ask bid a f Sask Sbid Sa Sf) as (Hb1 & Hb2 & Hb3).
  split; [|split; [|split]].
  - intros Hskip. unfold executeTrade. rewrite Hq, Hn.
    assert (Hz : gtb (of_Z n) (Fin 0) = false).
    { destruct (gtb (of_Z n) (Fin 0)) eqn:E; [|reflexivity]. exfalso.
      apply gtb_of_Z_0 in E.
      assert (Hn1 : 1 <= inject_Z n).
      { change 1 with (inject_Z 1). rewrite <- Zle_Qle. lia. }
      assert (H3 : 1 * stopDistance <= inject_Z n * stopDistance)
        by (apply Qmult_le_compat_r; lra).
      lra. }
    rewrite Hz. reflexivity.
  - intros Hcov. rewrite Horders.
    assert (Hz : gtb (of_Z n) (Fin 0) = true).
    { apply gtb_of_Z_0.
      assert (H3 : 0 < inject_Z n).
      { destruct (Qlt_le_dec 0 (inject_Z n)) as [H|H]; [exact H|]. exfalso.
        assert (H4 : (inject_Z n + 1) * stopDistance <= 1 * stopDistance)
          by (apply Qmult_le_compat_r; lra).
        lra. }
      change 0 with (inject_Z 0) in H3. rewrite <- Zlt_Qlt in H3. exact H3. }
    rewrite Hz. eexists. reflexivity.
  - intros o Hin. rewrite Horders in Hin.
    destruct (gtb (of_Z n) (Fin 0)) eqn:Hz; [|contradiction].
    apply gtb_of_Z_0 in Hz. destruct Hin as [<-|[]].
    cbn [order_symbol order_side order_qty order_stop_price take_profit_price
         limit_price].
    split; [reflexivity|]. split; [reflexivity|]. split.
    + exists n. split; [reflexivity|]. split; [lia|]. split; lra.
    + unfold stopPriceOf, takeProfitPriceOf, limitPriceOf, stopLossDistance.
      rewrite Ha, Hf. rewrite (div_Fin_nz f 100) by lra. cbn [mul sub add neg].
      destruct (toFixed_error (ask + - (2 * a)) Hb1) as (s & -> & Hs & Hsc).
      destruct (toFixed_error (ask + 2 * a * (15 # 10)) Hb2) as (t & -> & Ht & Htc).
      destruct (toFixed_error (bid * (1 + f / 100)) Hb3) as (l & -> & Hl & Hlc).
      exists s, t, l.
      assert (T1 : 0 <= tolerance * (Qabs ask + stopDistance)).
      { apply Qmult_le_0_compat; [apply tolerance_nonneg|].
        pose proof (Qabs_nonneg ask). lra. }
      assert (T2 : 0 <= tolerance * (Qabs ask + stopDistance * (15 # 10))).
      { apply Qmult_le_0_compat; [apply tolerance_nonneg|].
        pose proof (Qabs_nonneg ask). lra. }
      assert (T3 : 0 <= tolerance * (Qabs bid * (1 + Qabs f / 100))).
      { apply Qmult_le_0_compat; [apply tolerance_nonneg|].
        apply Qmult_le_0_compat; [apply Qabs_nonneg|].
        assert (H0 : 0 <= Qabs f / 100) by (apply Qdiv_nonneg; [apply Qabs_nonneg | lra]).
        lra. }
      unfold stopDistance in *. unfold Qminus in *.
      set (t1 := tolerance * (Qabs ask + 2 * a)) in *.
      set (t2 := tolerance * (Qabs ask + 2 * a * (15 # 10))) in *.
      set (t3 := tolerance * (Qabs bid * (1 + Qabs f / 100))) in *.
      split; [reflexivity|]. split; [reflexivity|]. split; [reflexivity|].
      split; [exact Hsc|]. split; [exact Htc|]. split; [exact Hlc|].
      split; [eapply Qle_trans; [exact Hs | lra]|].
      split; [eapply Qle_trans; [exact Ht | lra]|].
      eapply Qle_trans; [exact Hl | lra].
  - intros cents Ee Er Ea Eask Hc.
    assert (Hn100 : n = 100%Z).
    { assert (Hrc : riskCapital == 100) by (unfold riskCapital; rewrite Ee, Er; reflexivity).
      assert (Hsd : stopDistance == 1) by (unfold stopDistance; rewrite Ea; reflexivity).
      rewrite Hrc, Hsd in Hlo, Hhi.
      assert (H1 : inject_Z n <= inject_Z 100) by (change (inject_Z 100) with 100; lra).
      assert (H2 : inject_Z 100 < inject_Z (n + 1)).
      { rewrite inject_Z_plus. change (inject_Z 100) with 100.
        change (inject_Z 1) with 1. lra. }
      rewrite <- Zle_Qle in H1. rewrite <- Zlt_Qlt in H2. lia. }
    subst n. rewrite Horders. cbn [gtb cmp of_Z].
    eexists. split; [reflexivity|].
    cbn [order_qty order_stop_price take_profit_price].
    split; [reflexivity|].
    unfold stopPriceOf, takeProfitPriceOf, stopLossDistance. rewrite Ha.
    cbn [mul sub add neg].
    assert (Hb1' : Qabs (ask + - (2 * a)) < inject_Z (pow10 21)) by exact Hb1.
    assert (Hb2' : Qabs (ask + 2 * a * (15 # 10)) < inject_Z (pow10 21)) by exact Hb2.
    split.
    + apply toFixed_cents with (n := (cents - 100)%Z); [| |exact Hb1'].
      * rewrite Eask, Ea. unfold Z.sub. rewrite inject_Z_plus.
        change (inject_Z (- (100))) with (-100). field.
      * unfold Z.sub. rewrite inject_Z_plus. change (inject_Z (- (100))) with (-100). field.
    + apply toFixed_cents with (n := (cents + 150)%Z); [| |exact Hb2'].
      * rewrite Eask, Ea. rewrite inject_Z_plus. change (inject_Z 150) with 150. field.
      * rewrite inject_Z_plus. change (inject_Z 150) with 150. field.
Qed.

Lemma executeTrade_sizing_and_rounded_prices_witness :
  exists o,
    submittedOrders (executeTrade exampleState exampleEntry exampleAnswers) = [o] /\
    order_qty o = of_Z 100 /\
    (order_stop_price o =~ Fin 99)%num /\
    (take_profit_price o =~ Fin (1015 # 10))%num.
Proof.
  destruct (executeTrade_sizing_and_rounded_prices exampleState exampleEntry
              exampleAnswers 100 (9995 # 100) 10000 1 (1 # 2) (5 # 100)
              eq_refl eq_refl eq_refl eq_refl eq_refl ltac:(reflexivity)
              eq_refl eq_refl eq_refl eq_refl eq_refl eq_refl)
    as (_ & _ & _ & Hex).
  destruct (Hex 10000%Z ltac:(reflexivity) ltac:(reflexivity)
              ltac:(reflexivity) ltac:(reflexivity) ltac:(lia))
    as (o & Ho & Hqty & Hstop & Htp).
  exists o. split; [exact Ho|]. split; [exact Hqty|].
  split.
  - destruct (order_stop_price o); try contradiction. cbn [num_eq] in *.
    rewrite Hstop. vm_compute. reflexivity.
  - destruct (take_profit_price o); try contradiction. cbn [num_eq] in *.
    rewrite Htp. vm_compute. reflexivity.
Defined.

(** C2 as stated fails: the prices of the order are not the three
    formulas but their roundings to cents.  In the sizing example itself
    the limit price is 100.00, not 99.95 * 1.0005 = 99.999975; with an ATR
    of 0.333 and an ask of 100 the stop-loss is 99.33, not 99.334, and the
    take-profit 101.00, not 100.999. *)
Lemma order_prices_are_rounded :
  (exists o,
      submittedOrders (executeTrade exampleState exampleEntry exampleAnswers) = [o] /\
      (limit_price o === Fin (9995 # 100) * (Fin 1 + Fin (5 # 100) / Fin 100))%num
        = false /\
      (limit_price o === Fin 100)%num = true) /\
  (exists o,
      submittedOrders (executeTrade exampleState thirdsEntry exampleAnswers) = [o] /\
      (order_stop_price o === Fin 100 - Fin 2 * Fin (333 # 1000))%num = false /\
      (order_stop_price o === Fin (9933 # 100))%num = true /\
      (take_profit_price o
       === Fin 100 + Fin 2 * Fin (333 # 1000) * Fin (15 # 10))%num = false /\
      (take_profit_price o === Fin 101)%num = true).
Proof.
  split; eexists; (split; [vm_compute; reflexivity|]); vm_compute; repeat split.
Qed.

(** *** A zero ATR *)

Lemma zero_atr_quantity (e r : num) (a : Q) :
  gtb (e * r)%num (Fin 0) = true -> a == 0 ->
  floor (e * (r / Fin 100) / (Fin 2 * Fin a))%num = PInf.
Proof.
  intros Hpos Ha.
  assert (H2a : (2 * a ?= 0) = Eq) by (apply Qeq_alt; lra).
  destruct e as [e| | |], r as [r| | |]; cbn [mul div] in *;
    change (100 ?= 0) with Gt in *; cbn [mul div] in *;
    unfold gtb, cmp in Hpos; try discriminate.
  - rewrite H2a.
    destruct (Qcompare_spec (e * r) 0) as [H|H|H]; try discriminate.
    assert (Hc : 0 < e * (r / 100)).
    { setoid_replace (e * (r / 100)) with (e * r / 100) by field.
      apply Qlt_shift_div_l; lra. }
    apply Qgt_alt in Hc. rewrite Hc. reflexivity.
  - destruct (Qcompare_spec e 0); cbn [signed_inf] in *; try discriminate.
    cbn [div]. rewrite H2a. reflexivity.
  - destruct (Qcompare_spec e 0); cbn [signed_inf flip CompOpp] in *;
      try discriminate.
    cbn [div]. rewrite H2a. reflexivity.
  - destruct (Qcompare_spec r 0) as [H|H|H]; cbn [signed_inf] in *;
      try discriminate.
    assert (Hc : 0 < r / 100) by (apply Qlt_shift_div_l; lra).
    apply Qgt_alt in Hc. rewrite Hc. cbn [signed_inf div]. rewrite H2a. reflexivity.
  - rewrite H2a. reflexivity.
  - destruct (Qcompare_spec r 0) as [H|H|H]; cbn [signed_inf flip CompOpp] in *;
      try discriminate.
    assert (Hc : (r / 100 ?= 0) = Lt) by (apply Qlt_alt, Qlt_shift_div_r; lra).
    rewrite Hc. cbn [signed_inf flip CompOpp div].
    rewrite H2a. reflexivity.
  - rewrite H2a. reflexivity.
Qed.

Lemma zero_distance_prices (ask : num) (a : Q) :
  a == 0 ->
  (ask - Fin 2 * Fin a =~ ask)%num /\
  (ask + Fin 2 * Fin a * Fin (15 # 10) =~ ask)%num.
Proof.
  intros Ha. destruct ask as [k| | |]; cbn; split; try exact I; rewrite Ha; ring.
Qed.

(** C10, as the code has it.  With a quote whose ask and bid are present
    and non-zero, an ATR of 0 and equity * riskPerTrade above 0: the
    quantity is floor(riskCapital / 0) = +Infinity, it passes the test
    [quantity > 0], and one order is submitted, not skipped, with that
    quantity and with stop-loss and take-profit both at the ask rounded to
    cents by [toFixed(2)]; the stop-loss is the ask itself when the ask is a
    whole number of cents. *)
Theorem zero_atr_submits_unbounded_order (st : State) (stock : WatchlistEntry)
    (answers : TradeAnswers) (ask bid : num) :
  validQuote (quoteAnswer answers) = inr (ask, bid) ->
  (atr stock === Fin 0)%num = true ->
  gtb (equity (portfolio st) * riskPerTrade (settings st))%num (Fin 0) = true ->
  tradeQuantity st stock = PInf /\
  gtb (tradeQuantity st stock) (Fin 0) = true /\
  exists o,
    submittedOrders (executeTrade st stock answers) = [o] /\
    order_symbol o = ticker stock /\
    order_qty o = PInf /\
    (order_stop_price o =~ toFixed ask 2)%num /\
    (take_profit_price o =~ toFixed ask 2)%num /\
    (forall cents : Z,
        (ask =~ Fin (inject_Z cents / 100))%num ->
        (Z.abs cents < 10 ^ 23)%Z ->
        (order_stop_price o =~ ask)%num).
Proof.
  intros Hq Hatr Hpos.
  destruct (atr stock) as [a| | |] eqn:Ea; try discriminate.
  apply eqb_Fin in Hatr.
  assert (Hquant : tradeQuantity st stock = PInf).
  { unfold tradeQuantity, capitalToRisk, stopLossDistance. rewrite Ea.
    apply zero_atr_quantity; assumption. }
  split; [exact Hquant|]. split; [rewrite Hquant; reflexivity|].
  rewrite (executeTrade_orders st stock answers ask bid Hq), Hquant.
  cbn [gtb cmp]. eexists. split; [reflexivity|].
  cbn [order_symbol order_qty order_stop_price take_profit_price].
  unfold stopPriceOf, takeProfitPriceOf, stopLossDistance. rewrite Ea.
  destruct (zero_distance_prices ask a Hatr) as [Hs Ht].
  split; [reflexivity|]. split; [reflexivity|].
  split; [apply toFixed_comp, Hs|]. split; [apply toFixed_comp, Ht|].
  intros cents Hask Hc. destruct ask as [k| | |]; try contradiction.
  cbn [num_eq] in Hask. cbn [mul sub add neg].
  assert (Hb : Qabs (inject_Z cents / 100) < inject_Z (pow10 21)).
  { change (inject_Z (pow10 21)) with (1000000000000000000000 # 1).
    assert (H1 : inject_Z (- 10 ^ 23) < inject_Z cents < inject_Z (10 ^ 23))
      by (rewrite <- !Zlt_Qlt; lia).
    change (inject_Z (- 10 ^ 23)) with (-100000000000000000000000 # 1) in H1.
    change (inject_Z (10 ^ 23)) with (100000000000000000000000 # 1) in H1.
    apply Qabs_Qlt_condition. split.
    - apply Qlt_shift_div_l; lra.
    - apply Qlt_shift_div_r; lra. }
  apply toFixed_cents with (n := cents).
  - rewrite Hask, Hatr. ring.
  - exact Hask.
  - setoid_replace (k + - (2 * a)) with (inject_Z cents / 100)
      by (rewrite Hask, Hatr; ring).
    exact Hb.
Qed.

Lemma zero_atr_submits_unbounded_order_witness :
  exists o,
    submittedOrders (executeTrade exampleState flatEntry centsQuote) = [o] /\
    order_qty o = PInf /\
    (order_stop_price o =~ Fin (51 # 100))%num.
Proof.
  destruct (zero_atr_submits_unbounded_order exampleState flatEntry centsQuote
              (Fin (51 # 100)) (Fin (50 # 100)) eq_refl eq_refl eq_refl)
    as (_ & _ & o & Ho & _ & Hqty & _ & _ & Hcents).
  exists o. split; [exact Ho|]. split; [exact Hqty|].
  apply (Hcents 51%Z); [reflexivity | reflexivity].
Defined.

(** C10 as stated fails on the stop-loss price: it is the ask rounded to
    cents, not the ask.  With an ask of 0.5123 the order of infinite quantity
    carries a stop-loss (and a take-profit) of 0.51. *)
Lemma zero_atr_stop_is_rounded_ask :
  exists o,
    submittedOrders (executeTrade exampleState flatEntry subPennyQuote) = [o] /\
    order_qty o = PInf /\
    (order_stop_price o === Fin (5123 # 10000))%num = false /\
    (order_stop_price o === Fin (51 # 100))%num = true.
Proof.
  eexists. split; [vm_compute; reflexivity|]. vm_compute. repeat split.
Qed.

End TradeFacts.

(* ================================================================== *)
(** * calculateATR *)
(* ================================================================== *)

Module AtrFacts.
Import AtrSpec.
Import Utils.

Local Open Scope Q_scope.

Lemma calculateATR_short (bars : list Bar) (period : nat) :
  (length bars < period)%nat -> calculateATR bars period = Fin 0.
Proof.
  intros H. unfold calculateATR.
  destruct (Nat.ltb_spec (length bars) period); [reflexivity | lia].
Qed.

Lemma length_trueRanges (bars : list Bar) :
  length (trueRanges bars) = (length bars - 1)%nat.
Proof. unfold trueRanges. rewrite length_map, length_seq. reflexivity. Qed.

(** With more bars than the period the average is over exactly [period]
    true ranges, the last ones. *)
Lemma calculateATR_full_window (bars : list Bar) (period : nat) :
  (1 <= period < length bars)%nat ->
  calculateATR bars period =
    (sum (skipn (length bars - 1 - period) (trueRanges bars)) / of_nat period)%num /\
  length (skipn (length bars - 1 - period) (trueRanges bars)) = period.
Proof.
  intros H. split.
  - unfold calculateATR.
    destruct (Nat.ltb_spec (length bars) period); [lia|].
    unfold slice_last. destruct period; [lia|].
    rewrite length_trueRanges. reflexivity.
  - rewrite length_skipn, length_trueRanges. lia.
Qed.

Lemma max2_Fin (x y : Q) :
  exists m, max2 (Fin x) (Fin y) = Fin m /\ x <= m /\ y <= m.
Proof.
  unfold max2, cmp. destruct (Qcompare_spec x y).
  - exists x. repeat split; lra.
  - exists y. repeat split; lra.
  - exists x. repeat split; lra.
Qed.

Lemma getBar_finite (bs : list (Q * Q * Q)) (i : nat) :
  (i < length bs)%nat ->
  exists high low close, getBar (map finiteBar bs) i = mkBar (Fin high) (Fin low) (Fin close).
Proof.
  intros Hi. unfold getBar.
  rewrite (nth_indep _ bar_undefined (finiteBar (0, 0, 0)))
    by (rewrite length_map; exact Hi).
  rewrite map_nth. destruct (nth i bs (0, 0, 0)) as [[high low] close].
  exists high, low, close. reflexivity.
Qed.

Lemma trueRange_nonnegative (bs : list (Q * Q * Q)) (i : nat) :
  (1 <= i < length bs)%nat -> nonnegative (trueRange (map finiteBar bs) i).
Proof.
  intros Hi. unfold trueRange.
  destruct (getBar_finite bs i ltac:(lia)) as (hi & lo & cl & ->).
  destruct (getBar_finite bs (i - 1) ltac:(lia)) as (hi' & lo' & cl' & ->).
  cbn [h l c sub neg add abs]. unfold max3.
  destruct (max2_Fin (hi + - lo) (Qabs (hi + - cl'))) as (m1 & -> & _ & H1).
  destruct (max2_Fin m1 (Qabs (lo + - cl'))) as (m2 & -> & H2 & _).
  exists m2. split; [reflexivity|].
  pose proof (Qabs_nonneg (hi + - cl')). lra.
Qed.

Lemma sum_nonnegative (xs : list num) :
  Forall nonnegative xs -> nonnegative (sum xs).
Proof.
  intros H. unfold sum.
  apply fold_left_invariant with (R := nonnegative); try assumption.
  - intros a b (x & -> & Hx) (y & -> & Hy). exists (x + y). split; [reflexivity | lra].
  - exists 0. split; [reflexivity | lra].
Qed.

Lemma Forall_skipn {A : Type} (P : A -> Prop) (n : nat) (xs : list A) :
  Forall P xs -> Forall P (skipn n xs).
Proof.
  intros H. revert n. induction H as [|x xs Hx Hxs IH]; intros [|n]; simpl;
    try constructor; auto.
Qed.

(** On finite bars the result is finite and not negative. *)
Lemma calculateATR_nonnegative (bs : list (Q * Q * Q)) (period : nat) :
  (1 <= period)%nat -> nonnegative (calculateATR (map finiteBar bs) period).
Proof.
  intros Hp. unfold calculateATR.
  destruct (Nat.ltb_spec (length (map finiteBar bs)) period).
  - exists 0. split; [reflexivity | lra].
  - assert (Hall : Forall nonnegative (trueRanges (map finiteBar bs))).
    { unfold trueRanges. apply Forall_map, Forall_seq.
      intros i Hi. apply trueRange_nonnegative. rewrite length_map in Hi. lia. }
    assert (Hsl : Forall nonnegative
                    (slice_last period (trueRanges (map finiteBar bs)))).
    { unfold slice_last. destruct period; [exact Hall | apply Forall_skipn, Hall]. }
    destruct (sum_nonnegative _ Hsl) as (s & -> & Hs).
    pose proof (of_nat_pos period Hp) as Hp1.
    unfold of_nat, of_Z. rewrite div_Fin_nz by lra.
    eexists. split; [reflexivity|]. apply Qdiv_nonneg; lra.
Qed.

(** C7, the input on which the code leaves the claim.  Fourteen bars have
    thirteen true ranges.  On [unitBars] each of them is 1, so their
    average is 1, but [calculateATR] divides their sum by 14 and returns
    13/14. *)
Theorem calculateATR_fourteen_bars :
  length unitBars = 14%nat /\
  trueRanges unitBars = repeat (Fin 1) 13 /\
  (calculateATR unitBars 14 =~ Fin (13 # 14))%num /\
  (calculateATR unitBars 14 === Fin 1)%num = false.
Proof.
  split; [reflexivity|]. split; [vm_compute; reflexivity|].
  split; vm_compute; reflexivity.
Qed.

End AtrFacts.

(* ================================================================== *)
(** * calculateMACD *)
(* ================================================================== *)

Module MacdFacts.
Import MacdSpec.
Import Utils.

Lemma get_map_seq (f : nat -> num) (start len i : nat) :
  (i < len)%nat -> get (map f (seq start len)) i = f (start + i)%nat.
Proof.
  intros Hi. unfold get.
  rewrite (nth_indep _ NaN (f 0%nat)) by (rewrite length_map, length_seq; exact Hi).
  rewrite map_nth, seq_nth by exact Hi. reflexivity.
Qed.

Lemma length_macdLine (prices : list num) (shortPeriod longPeriod : nat) :
  (1 <= longPeriod)%nat ->
  length (macdLine prices shortPeriod longPeriod) =
  (length prices - (longPeriod - 1))%nat.
Proof.
  intros H. unfold macdLine. destruct longPeriod; [lia|].
  cbn [app]. rewrite length_map, length_seq. reflexivity.
Qed.

(** With fewer than 26 + 9 - 1 = 34 prices the result is the zero triple. *)
Lemma calculateMACD_insufficient (prices : list num) :
  (length prices < 34)%nat -> calculateMACD prices 12 26 9 = zeroMacd.
Proof.
  intros H. unfold calculateMACD.
  destruct (Nat.ltb_spec (length prices) 26); [reflexivity|].
  rewrite length_macdLine by lia.
  destruct (Nat.ltb_spec (length prices - (26 - 1)) 9); [reflexivity | lia].
Qed.

(** The histogram is macd - signal, whatever the input. *)
Lemma calculateMACD_histogram (prices : list num)
    (shortPeriod longPeriod signalPeriod : nat) :
  let r := calculateMACD prices shortPeriod longPeriod signalPeriod in
  (histogram r =~ macd r - signal r)%num.
Proof.
  unfold calculateMACD.
  destruct (length prices <? longPeriod)%nat; [simpl; reflexivity|].
  destruct (length (macdLine prices shortPeriod longPeriod) <? signalPeriod)%nat;
    [simpl; reflexivity|].
  apply num_eq_refl.
Qed.

(** With at least 34 prices, [macd] is the last point of the line the
    code builds: the short EMA taken 14 prices before the last one, minus
    the long EMA at the last price. *)
Lemma calculateMACD_last_point (prices : list num) :
  (34 <= length prices)%nat ->
  macd (calculateMACD prices 12 26 9) =
  (get (calculateEMA prices 12) (length prices - 1 - 14)
   - get (calculateEMA prices 26) (length prices - 1))%num.
Proof.
  intros H. unfold calculateMACD.
  destruct (Nat.ltb_spec (length prices) 26); [lia|].
  rewrite length_macdLine by lia.
  destruct (Nat.ltb_spec (length prices - (26 - 1)) 9); [lia|].
  cbn [macd]. unfold macdLine. cbn [app].
  rewrite get_map_seq by lia.
  replace (26 - 1 + (length prices - (26 - 1) - 1))%nat
    with (length prices - 1)%nat by lia.
  unfold getZ.
  destruct (Z.ltb_spec (Z.of_nat (length prices - 1) - (Z.of_nat 26 - Z.of_nat 12)) 0);
    [lia|].
  replace (Z.to_nat (Z.of_nat (length prices - 1) - (Z.of_nat 26 - Z.of_nat 12)))
    with (length prices - 1 - 14)%nat by lia.
  reflexivity.
Qed.

(** C5, the input on which the code leaves the claim.  On [stepPrices]
    the EMA(12) ends at 100 + 2/13 and the EMA(26) at 100 + 2/27, so the
    MACD line at the last price is 2/13 - 2/27 = 28/351; [calculateMACD]
    returns a [macd] of -2/27, the EMA(12) of fourteen prices earlier (100)
    minus the last EMA(26), and with it a signal of -2/135 and a histogram
    of -8/135: a rise in price reported as a bearish histogram. *)
Theorem calculateMACD_misaligned :
  let r := calculateMACD stepPrices 12 26 9 in
  length stepPrices = 34%nat /\
  (get (calculateEMA stepPrices 12) 33 - get (calculateEMA stepPrices 26) 33
   =~ Fin (28 # 351))%num /\
  (macd r =~ Fin (-2 # 27))%num /\
  (macd r =~ get (calculateEMA stepPrices 12) 19
            - get (calculateEMA stepPrices 26) 33)%num /\
  (macd r === get (calculateEMA stepPrices 12) 33
              - get (calculateEMA stepPrices 26) 33)%num = false /\
  (signal r =~ Fin (-2 # 135))%num /\
  (histogram r =~ Fin (-8 # 135))%num.
Proof.
  repeat split; vm_compute; reflexivity.
Qed.

End MacdFacts.

(* ================================================================== *)
(** * fetchWithBackoff: every outcome *)
(* ================================================================== *)

Module GatewayFacts.
Import Api FetchSpec GatewaySpec.

Section WithJson.

Variable Json : Type.
Implicit Types (net : nat -> Fetched Json) (f : Fetched Json).

(** An answer is a success, a 401 or a failure. *)
Lemma answer_cases f :
  (exists v, successOf f = Some v) \/
  hasStatus 401 f = true \/
  (exists e, failureOf f = Some e).
Proof.
  destruct f as [r|]; [|right; right; eexists; reflexivity].
  unfold successOf, hasStatus, failureOf.
  destruct (ok r).
  - destruct (status r =? 204)%Z; [left; eexists; reflexivity|].
    destruct (json r); [left; eexists; reflexivity | right; right; eexists; reflexivity].
  - destruct (status r =? 401)%Z; [right; left; reflexivity|].
    right; right. destruct (text r); eexists; reflexivity.
Qed.

Lemma failure_rejects net n delay e :
  failureOf (net n) = Some e ->
  fetchWithBackoff net n 0 delay = (Rejected e, [Fetch n]).
Proof.
  unfold failureOf. cbn [fetchWithBackoff].
  destruct (net n) as [r|]; [|intros [= <-]; reflexivity].
  destruct (ok r); cbn [negb].
  - destruct (status r =? 204)%Z; [discriminate|].
    destruct (json r); [discriminate | intros [= <-]; reflexivity].
  - destruct (status r =? 401)%Z; [discriminate|].
    destruct (status r =? 429)%Z; destruct (text r); intros [= <-]; reflexivity.
Qed.

Lemma failure_retries net n retries delay e :
  failureOf (net n) = Some e ->
  let next := fetchWithBackoff net (S n) retries (delay * 2) in
  fst (fetchWithBackoff net n (S retries) delay) = fst next /\
  sleeps (snd (fetchWithBackoff net n (S retries) delay)) = delay :: sleeps (snd next) /\
  fetchCount (snd (fetchWithBackoff net n (S retries) delay)) = S (fetchCount (snd next)).
Proof.
  unfold failureOf. cbn [fetchWithBackoff]. cbn zeta.
  destruct (fetchWithBackoff net (S n) retries (delay * 2)) as [o t].
  destruct (net n) as [r|]; [|intros _; repeat split].
  destruct (ok r); cbn [negb].
  - destruct (status r =? 204)%Z; [discriminate|].
    destruct (json r); [discriminate | intros _; repeat split].
  - destruct (status r =? 401)%Z; [discriminate|].
    destruct (status r =? 429)%Z; destruct (text r); intros _; repeat split.
Qed.

(** How many calls of [fetch] and which sleeps a run makes. *)
Lemma backoff_counts net retries :
  forall n delay,
  exists k,
    (k <= retries)%nat /\
    sleeps (snd (fetchWithBackoff net n retries delay)) = doubling delay k /\
    fetchCount (snd (fetchWithBackoff net n retries delay)) = S k.
Proof.
  induction retries as [|retries IH]; intros n delay.
  - exists 0%nat. split; [lia|].
    destruct (answer_cases (net n)) as [[v Hv]|[H401|[e He]]].
    + rewrite (FetchFacts.success_resolves Json net n 0 delay v Hv). split; reflexivity.
    + rewrite (FetchFacts.unauthorized_rejects Json net n 0 delay H401). split; reflexivity.
    + rewrite (failure_rejects net n delay e He). split; reflexivity.
  - destruct (answer_cases (net n)) as [[v Hv]|[H401|[e He]]].
    + exists 0%nat. split; [lia|].
      rewrite (FetchFacts.success_resolves Json net n (S retries) delay v Hv).
      split; reflexivity.
    + exists 0%nat. split; [lia|].
      rewrite (FetchFacts.unauthorized_rejects Json net n (S retries) delay H401).
      split; reflexivity.
    + destruct (IH (S n) (delay * 2)%Z) as (k & Hk & Hs & Hc).
      destruct (failure_retries net n retries delay e He) as (_ & Hs' & Hc').
      exists (S k). split; [lia|]. rewrite Hs', Hc', Hs, Hc. split; reflexivity.
Qed.

(** X1. Whatever the network answers, the outcome of [fetchWithBackoff]
    is decided by the first answer, among the first [retries] + 1, that is a
    success or a 401; every answer before it is a failure and costs one
    sleep, the delays doubling.  If there is a success first the call
    resolves with it; if a 401, it rejects with [AuthError]; if all
    [retries] + 1 answers are failures it rejects with the error of the
    last one. *)
Theorem fetchWithBackoff_outcome net retries :
  forall n delay,
  exists k,
    (k <= retries)%nat /\
    (forall i, (i < k)%nat -> exists e, failureOf (net (n + i)%nat) = Some e) /\
    sleeps (snd (fetchWithBackoff net n retries delay)) = doubling delay k /\
    fetchCount (snd (fetchWithBackoff net n retries delay)) = S k /\
    ((exists v, successOf (net (n + k)%nat) = Some v /\
                fst (fetchWithBackoff net n retries delay) = Resolved v) \/
     (hasStatus 401 (net (n + k)%nat) = true /\
      fst (fetchWithBackoff net n retries delay) = Rejected AuthError) \/
     (k = retries /\
      exists e, failureOf (net (n + k)%nat) = Some e /\
                fst (fetchWithBackoff net n retries delay) = Rejected e)).
Proof.
  induction retries as [|retries IH]; intros n delay.
  - exists 0%nat. rewrite Nat.add_0_r. split; [lia|]. split; [intros i Hi; lia|].
    destruct (answer_cases (net n)) as [[v Hv]|[H401|[e He]]].
    + rewrite (FetchFacts.success_resolves Json net n 0 delay v Hv).
      repeat split. left. exists v. split; [exact Hv | reflexivity].
    + rewrite (FetchFacts.unauthorized_rejects Json net n 0 delay H401).
      repeat split. right; left. split; [exact H401 | reflexivity].
    + rewrite (failure_rejects net n delay e He).
      repeat split. right; right. split; [reflexivity|].
      exists e. split; [exact He | reflexivity].
  - destruct (answer_cases (net n)) as [[v Hv]|[H401|[e He]]].
    + exists 0%nat. rewrite Nat.add_0_r. split; [lia|]. split; [intros i Hi; lia|].
      rewrite (FetchFacts.success_resolves Json net n (S retries) delay v Hv).
      repeat split. left. exists v. split; [exact Hv | reflexivity].
    + exists 0%nat. rewrite Nat.add_0_r. split; [lia|]. split; [intros i Hi; lia|].
      rewrite (FetchFacts.unauthorized_rejects Json net n (S retries) delay H401).
      repeat split. right; left. split; [exact H401 | reflexivity].
    + destruct (IH (S n) (delay * 2)%Z) as (k & Hk & Hfail & Hs & Hc & Hout).
      destruct (failure_retries net n retries delay e He) as (Hv' & Hs' & Hc').
      exists (S k). split; [lia|]. split.
      { intros [|i] Hi.
        - rewrite Nat.add_0_r. exists e. exact He.
        - replace (n + S i)%nat with (S n + i)%nat by lia. apply Hfail. lia. }
      rewrite Hv', Hs', Hc', Hs, Hc. cbn [doubling].
      replace (n + S k)%nat with (S n + k)%nat by lia.
      split; [reflexivity|]. split; [reflexivity|].
      destruct Hout as [Hout|[Hout|(-> & Hout)]]; [left | right; left | right; right];
        try exact Hout.
      split; [reflexivity | exact Hout].
Qed.

Lemma doubling_total (k : nat) :
  forall d, fold_right Z.add 0%Z (doubling d k) = (d * (2 ^ Z.of_nat k - 1))%Z.
Proof.
  induction k as [|k IH]; intros d.
  - simpl. lia.
  - cbn [doubling fold_right]. rewrite IH.
    rewrite Nat2Z.inj_succ, Z.pow_succ_r by lia. lia.
Qed.

(** X2. One call of [alpacaFetch] makes at most 4 calls of [fetch] and
    sleeps at most 14000 ms in all, whatever the network answers; with
    [retries] retries and a first delay [d] >= 0 the bounds are
    [retries] + 1 fetches and d * (2^retries - 1) ms. *)
Theorem fetchWithBackoff_bounded net :
  (forall n retries delay,
      (0 <= delay)%Z ->
      (fetchCount (snd (fetchWithBackoff net n retries delay)) <= S retries)%nat /\
      (0 <= totalSleep (snd (fetchWithBackoff net n retries delay))
         <= delay * (2 ^ Z.of_nat retries - 1))%Z) /\
  (forall n,
      (fetchCount (snd (alpacaFetch net n)) <= 4)%nat /\
      (totalSleep (snd (alpacaFetch net n)) <= 14000)%Z).
Proof.
  assert (Hgen : forall n retries delay,
      (0 <= delay)%Z ->
      (fetchCount (snd (fetchWithBackoff net n retries delay)) <= S retries)%nat /\
      (0 <= totalSleep (snd (fetchWithBackoff net n retries delay))
         <= delay * (2 ^ Z.of_nat retries - 1))%Z).
  { intros n retries delay Hd.
    destruct (backoff_counts net retries n delay) as (k & Hk & Hs & Hc).
    unfold totalSleep. rewrite Hs, Hc, doubling_total. split; [lia|].
    assert (H1 : (1 <= 2 ^ Z.of_nat k)%Z) by (apply Z.pow_le_mono_r with (b := 0%Z); lia).
    assert (H2 : (2 ^ Z.of_nat k <= 2 ^ Z.of_nat retries)%Z)
      by (apply Z.pow_le_mono_r; lia).
    split; [nia|]. apply Z.mul_le_mono_nonneg_l; lia. }
  split; [exact Hgen|].
  intros n. unfold alpacaFetch, defaultRetries, defaultDelay.
  destruct (Hgen n 3%nat 2000%Z ltac:(lia)) as [Hc Hs]. split; [exact Hc|].
  change (2000 * (2 ^ Z.of_nat 3 - 1))%Z with 14000%Z in Hs. lia.
Qed.

End WithJson.

Lemma fetchWithBackoff_bounded_witness :
  (fetchCount (snd (alpacaFetch net_down 0)) <= 4)%nat /\
  (totalSleep (snd (alpacaFetch net_down 0)) <= 14000)%Z.
Proof.
  destruct (proj1 (fetchWithBackoff_bounded nat net_down) 0%nat 3%nat 2000%Z
              ltac:(lia)) as [Hc Hs].
  split; [exact Hc|].
  change (2000 * (2 ^ Z.of_nat 3 - 1))%Z with 14000%Z in Hs. exact (proj2 Hs).
Defined.

End GatewayFacts.

(* ================================================================== *)
(** * isMarketOpen *)
(* ================================================================== *)

Module MarketFacts.
Import App.

(** X3. On a New York clock with day in 0..6 (Sunday = 0), hour in 0..23
    and minute in 0..59, [isMarketOpen] answers true exactly from Monday to
    Friday between 9:30 included and 16:00 excluded, that is when the minute
    of the day is in 570..959. *)
Theorem isMarketOpen_hours (day hour minute : Z) :
  (0 <= day <= 6)%Z -> (0 <= hour < 24)%Z -> (0 <= minute < 60)%Z ->
  isMarketOpen day hour minute = true <->
  ((1 <= day <= 5)%Z /\ (570 <= 60 * hour + minute < 960)%Z).
Proof.
  intros Hd Hh Hm. unfold isMarketOpen. rewrite Z.geb_leb.
  destruct (Z.eqb_spec day 0), (Z.eqb_spec day 6), (Z.ltb_spec hour 9),
    (Z.eqb_spec hour 9), (Z.ltb_spec minute 30), (Z.leb_spec 16 hour);
    cbn [orb andb]; split; intros Hopen; try discriminate; try reflexivity; lia.
Qed.

Lemma isMarketOpen_hours_witness :
  isMarketOpen 1 9 30 = true /\ isMarketOpen 5 15 59 = true.
Proof.
  split.
  - apply (proj2 (isMarketOpen_hours 1 9 30 ltac:(lia) ltac:(lia) ltac:(lia))). lia.
  - apply (proj2 (isMarketOpen_hours 5 15 59 ltac:(lia) ltac:(lia) ltac:(lia))). lia.
Defined.

End MarketFacts.

(* ================================================================== *)
(** * updatePortfolioAndPositions *)
(* ================================================================== *)

Module PortfolioFacts.
Import Api PortfolioSpec.

Local Open Scope Q_scope.

Lemma refreshed_eq (st : State) (today : string) (snap : Snapshot) :
  refreshed st today snap =
  set_refresh (refreshedPortfolio (portfolio st) (snap_equity snap))
              (updatePerformance today (snap_equity snap) (performanceData st))
              (snap_positions snap) st.
Proof. reflexivity. Qed.

(** What a run of refreshes makes of the three equities. *)
Lemma refreshedAll_portfolio (snaps : list (string * Snapshot)) :
  forall st,
  portfolio (refreshedAll st snaps) =
  fold_left refreshedPortfolio (map (fun ds => snap_equity (snd ds)) snaps)
            (portfolio st).
Proof.
  induction snaps as [|ds rest IH]; intros st; [reflexivity|].
  cbn [refreshedAll fold_left map]. fold (refreshedAll (refreshed st (fst ds) (snd ds)) rest).
  rewrite IH, refreshed_eq. reflexivity.
Qed.

Lemma fold_refreshedPortfolio_set (equities : list Q) :
  forall (cur last0 init0 : Q),
  ~ last0 == 0 -> ~ init0 == 0 ->
  exists cur',
    fold_left refreshedPortfolio (map Fin equities)
              (mkPortfolio (Fin cur) (Fin last0) (Fin init0))
    = mkPortfolio (Fin cur') (Fin last0) (Fin init0).
Proof.
  induction equities as [|q rest IH]; intros cur last0 init0 Hl Hi.
  - exists cur. reflexivity.
  - cbn [map fold_left]. unfold refreshedPortfolio at 2.
    cbn [last_equity initial_equity].
    assert (El : (Fin last0 === Fin 0)%num = false).
    { destruct (Fin last0 === Fin 0)%num eqn:E; [|reflexivity].
      apply eqb_Fin in E. contradiction. }
    assert (Ei : (Fin init0 === Fin 0)%num = false).
    { destruct (Fin init0 === Fin 0)%num eqn:E; [|reflexivity].
      apply eqb_Fin in E. contradiction. }
    rewrite El, Ei. apply IH; assumption.
Qed.

Lemma fold_refreshedPortfolio_unset (equities : list Q) :
  forall (cur z1 z2 : Q),
  z1 == 0 -> z2 == 0 ->
  exists cur' last' init',
    fold_left refreshedPortfolio (map Fin equities)
              (mkPortfolio (Fin cur) (Fin z1) (Fin z2))
    = mkPortfolio (Fin cur') (Fin last') (Fin init') /\
    last' == firstNonZero equities /\ init' == firstNonZero equities.
Proof.
  induction equities as [|q rest IH]; intros cur z1 z2 H1 H2.
  - exists cur, z1, z2. cbn [firstNonZero]. repeat split; assumption.
  - cbn [map fold_left]. unfold refreshedPortfolio at 2.
    cbn [last_equity initial_equity].
    apply eqb_Fin in H1, H2. rewrite H1, H2. cbn [firstNonZero].
    destruct (Qcompare_spec q 0) as [E|E|E].
    + apply IH; assumption.
    + destruct (fold_refreshedPortfolio_set rest q q q) as [cur' Hc]; try lra.
      exists cur', q, q. rewrite Hc. repeat split; reflexivity.
    + destruct (fold_refreshedPortfolio_set rest q q q) as [cur' Hc]; try lra.
      exists cur', q, q. rewrite Hc. repeat split; reflexivity.
Qed.

(** X4. Starting from the initial state, after any run of successful
    portfolio refreshes with finite equities, [initial_equity] and
    [last_equity] are the first equity received that was not 0 (still 0 when
    there was none): they are set once, by the first non-zero observation,
    and no later refresh changes them. *)
Theorem equity_baselines_set_once (snaps : list (string * Snapshot))
    (equities : list Q) :
  equitiesOf snaps = map Fin equities ->
  let pf := portfolio (refreshedAll initialState snaps) in
  (initial_equity pf =~ Fin (firstNonZero equities))%num /\
  (last_equity pf =~ Fin (firstNonZero equities))%num /\
  forall today snap,
    ~ firstNonZero equities == 0 ->
    initial_equity (portfolio (refreshed (refreshedAll initialState snaps) today snap))
      = initial_equity pf /\
    last_equity (portfolio (refreshed (refreshedAll initialState snaps) today snap))
      = last_equity pf.
Proof.
  intros Heq pf. unfold equitiesOf in Heq.
  assert (Hpf : pf = fold_left refreshedPortfolio (map Fin equities)
                       (mkPortfolio (Fin 0) (Fin 0) (Fin 0))).
  { subst pf. rewrite refreshedAll_portfolio, Heq. reflexivity. }
  destruct (fold_refreshedPortfolio_unset equities 0 0 0)
    as (cur' & last' & init' & Hfold & Hl & Hi); try reflexivity.
  rewrite Hfold in Hpf.
  split; [rewrite Hpf; exact Hi|]. split; [rewrite Hpf; exact Hl|].
  intros today snap Hnz. rewrite refreshed_eq.
  cbn [portfolio set_refresh]. fold pf. rewrite Hpf.
  unfold refreshedPortfolio. cbn [initial_equity last_equity].
  assert (El : (Fin last' === Fin 0)%num = false).
  { destruct (Fin last' === Fin 0)%num eqn:E; [|reflexivity].
    apply eqb_Fin in E. rewrite Hl in E. contradiction. }
  assert (Ei : (Fin init' === Fin 0)%num = false).
  { destruct (Fin init' === Fin 0)%num eqn:E; [|reflexivity].
    apply eqb_Fin in E. rewrite Hi in E. contradiction. }
  rewrite El, Ei. split; reflexivity.
Qed.

Lemma equity_baselines_set_once_witness :
  (initial_equity (portfolio (refreshedAll initialState threeRefreshes))
   =~ Fin 9500)%num.
Proof.
  exact (proj1 (equity_baselines_set_once threeRefreshes [0; 9500; 9700] eq_refl)).
Defined.

(** *** The equity curve *)

Lemma hasDay_In (day : string) (perf : list PerfPoint) :
  hasDay day perf = true <-> In (Some day) (daysOf perf).
Proof.
  unfold hasDay, daysOf. rewrite existsb_exists, in_map_iff.
  split; intros (d & H1 & H2).
  - exists d. split; [|exact H1]. unfold isToday in H2.
    destruct (x_day d) as [dd|]; [|discriminate].
    apply String.eqb_eq in H2. congruence.
  - exists d. split; [exact H2|]. unfold isToday. rewrite H1.
    apply String.eqb_refl.
Qed.

Lemma setTodayEntry_none (today : string) (e : num) (perf : list PerfPoint) :
  hasDay today perf = false -> setTodayEntry today e perf = None.
Proof.
  unfold hasDay. induction perf as [|d rest IH]; intros Hn; [reflexivity|].
  cbn [setTodayEntry existsb] in *. apply orb_false_iff in Hn as [H1 H2].
  rewrite H1, (IH H2). reflexivity.
Qed.

Lemma setTodayEntry_some (today : string) (e : num) (perf : list PerfPoint) :
  hasDay today perf = true ->
  exists perf',
    setTodayEntry today e perf = Some perf' /\
    daysOf perf' = daysOf perf /\
    equityOn today perf' = Some e /\
    (forall day, day <> today -> equityOn day perf' = equityOn day perf).
Proof.
  unfold hasDay. induction perf as [|d rest IH]; intros Hin; [discriminate|].
  cbn [setTodayEntry existsb] in *. destruct (isToday today d) eqn:Et.
  - eexists. split; [reflexivity|]. split; [reflexivity|].
    cbn [equityOn]. unfold isToday in *. cbn [x_day y]. rewrite Et.
    split; [reflexivity|]. intros day Hd.
    destruct (x_day d) as [dd|]; [|reflexivity].
    apply String.eqb_eq in Et. subst dd.
    destruct (String.eqb_spec today day); [congruence | reflexivity].
  - cbn [orb] in Hin.
    destruct (IH Hin) as (perf' & -> & Hdays & Hon & Hoff).
    eexists. split; [reflexivity|]. cbn [daysOf map] in *. split; [f_equal; exact Hdays|].
    cbn [equityOn]. rewrite Et. split; [exact Hon|].
    intros day Hd. rewrite (Hoff day Hd). reflexivity.
Qed.

Lemma equityOn_app_new (day today : string) (e : num) (perf : list PerfPoint) :
  equityOn day (perf ++ [mkPerfPoint (Some today) e]) =
  match equityOn day perf with
  | Some v => Some v
  | None => if String.eqb today day then Some e else None
  end.
Proof.
  induction perf as [|d rest IH]; cbn [app equityOn].
  - unfold isToday. cbn [x_day y]. reflexivity.
  - destruct (isToday day d); [reflexivity | exact IH].
Qed.

Lemma equityOn_absent (day : string) (perf : list PerfPoint) :
  hasDay day perf = false -> equityOn day perf = None.
Proof.
  unfold hasDay. induction perf as [|d rest IH]; intros Hn; [reflexivity|].
  cbn [equityOn existsb] in *. apply orb_false_iff in Hn as [H1 H2].
  rewrite H1. apply IH, H2.
Qed.

(** X5. [updatePerformance] keeps one point per day.  If the curve has a
    point for today its days are unchanged, else today is appended; in both
    cases the equity recorded for today is the new one and the equity of
    every other day is untouched; days that were distinct stay distinct; and
    a second update on the same day overrides the first. *)
Theorem updatePerformance_one_point_per_day (today : string) (e : num)
    (perf : list PerfPoint) :
  daysOf (updatePerformance today e perf) =
    (if hasDay today perf then daysOf perf else daysOf perf ++ [Some today]) /\
  equityOn today (updatePerformance today e perf) = Some e /\
  (forall day, day <> today ->
     equityOn day (updatePerformance today e perf) = equityOn day perf) /\
  (NoDup (daysOf perf) -> NoDup (daysOf (updatePerformance today e perf))) /\
  (forall e', daysOf (updatePerformance today e' (updatePerformance today e perf))
              = daysOf (updatePerformance today e perf) /\
              equityOn today (updatePerformance today e' (updatePerformance today e perf))
              = Some e').
Proof.
  assert (Hmain : forall e0 perf0,
    daysOf (updatePerformance today e0 perf0) =
      (if hasDay today perf0 then daysOf perf0 else daysOf perf0 ++ [Some today]) /\
    equityOn today (updatePerformance today e0 perf0) = Some e0 /\
    (forall day, day <> today ->
       equityOn day (updatePerformance today e0 perf0) = equityOn day perf0)).
  { intros e0 perf0. unfold updatePerformance.
    destruct (hasDay today perf0) eqn:Hin.
    - destruct (setTodayEntry_some today e0 perf0 Hin) as (perf' & -> & Hd & Hon & Hoff).
      split; [exact Hd|]. split; [exact Hon | exact Hoff].
    - rewrite (setTodayEntry_none today e0 perf0 Hin).
      split; [unfold daysOf; rewrite map_app; reflexivity|].
      rewrite equityOn_app_new, (equityOn_absent today perf0 Hin), String.eqb_refl.
      split; [reflexivity|]. intros day Hd. rewrite equityOn_app_new.
      destruct (equityOn day perf0); [reflexivity|].
      destruct (String.eqb_spec today day); [congruence | reflexivity]. }
  destruct (Hmain e perf) as (Hdays & Hon & Hoff).
  split; [exact Hdays|]. split; [exact Hon|]. split; [exact Hoff|]. split.
  - intros Hnd. rewrite Hdays.
    destruct (hasDay today perf) eqn:Hin; [exact Hnd|].
    apply NoDup_app; [exact Hnd | constructor; [intros []|constructor] |].
    intros x Hx [<-|[]]. apply hasDay_In in Hx. congruence.
  - intros e'. destruct (Hmain e' (updatePerformance today e perf)) as (Hd' & Hon' & _).
    split; [|exact Hon'].
    rewrite Hd'. destruct (hasDay today (updatePerformance today e perf)) eqn:Hn;
      [reflexivity|].
    exfalso. assert (Hin : In (Some today) (daysOf (updatePerformance today e perf))).
    { rewrite Hdays. destruct (hasDay today perf) eqn:Hin.
      - apply hasDay_In, Hin.
      - apply in_or_app. right. left. reflexivity. }
    apply hasDay_In in Hin. congruence.
Qed.

Lemma updatePerformance_one_point_per_day_witness :
  NoDup (daysOf (updatePerformance "2026-11-02" (Fin 10100) twoDays)) /\
  NoDup (daysOf (updatePerformance "2026-11-03" (Fin 10100) twoDays)).
Proof.
  assert (Hnd : NoDup (daysOf twoDays)).
  { repeat constructor; simpl; intuition discriminate. }
  split.
  - exact (proj1 (proj2 (proj2 (proj2
       (updatePerformance_one_point_per_day "2026-11-02" (Fin 10100) twoDays)))) Hnd).
  - exact (proj1 (proj2 (proj2 (proj2
       (updatePerformance_one_point_per_day "2026-11-03" (Fin 10100) twoDays)))) Hnd).
Defined.

End PortfolioFacts.

(* ================================================================== *)
(** * runScalpingStrategy in every state *)
(* ================================================================== *)

Module ScalpingMoreFacts.
Import Strategy ScalpingSpec ScalpingMoreSpec.

Lemma submittedOrders_app (t1 t2 : list Event) :
  submittedOrders (t1 ++ t2) = submittedOrders t1 ++ submittedOrders t2.
Proof.
  induction t1 as [|e t1 IH]; [reflexivity|].
  destruct e; simpl; rewrite IH; reflexivity.
Qed.

Lemma scanWatchlist_cap_reached (st : State) (world : nat -> TradeAnswers)
    (stocks : list WatchlistEntry) :
  capReached st = true ->
  forall i, tradeAttempts (scanWatchlist st world i stocks) = [] /\
            submittedOrders (scanWatchlist st world i stocks) = [].
Proof.
  intros Hcap. induction stocks as [|stock rest IH]; intros i; [split; reflexivity|].
  cbn [scanWatchlist]. destruct (hasPosition st stock); [apply IH|].
  rewrite Hcap. split; reflexivity.
Qed.

(** What one call of [executeTrade] submits: nothing, or one buy of a
    quantity above 0 for the ticker of its entry. *)
Lemma executeTrade_submits (st : State) (stock : WatchlistEntry)
    (answers : TradeAnswers) :
  submittedOrders (executeTrade st stock answers) = [] \/
  exists o,
    submittedOrders (executeTrade st stock answers) = [o] /\
    order_symbol o = ticker stock /\
    order_side o = "buy"%string /\
    order_qty o = tradeQuantity st stock /\
    gtb (order_qty o) (Fin 0) = true.
Proof.
  unfold executeTrade. cbn [submittedOrders].
  destruct (validQuote (quoteAnswer answers)) as [e|[ask bid]]; [left; reflexivity|].
  destruct (gtb (tradeQuantity st stock) (Fin 0)) eqn:Hq; [|left; reflexivity].
  right. cbn [submittedOrders]. unfold Api.placeBracketOrder.
  eexists. split; [destruct (orderAnswer answers); reflexivity|].
  cbn [order_symbol order_side order_qty]. repeat split. exact Hq.
Qed.

Lemma executeTrade_sound (st : State) (stock : WatchlistEntry)
    (answers : TradeAnswers) :
  In stock (aiWatchlist st) -> hasPosition st stock = false ->
  Forall (soundOrder st) (submittedOrders (executeTrade st stock answers)) /\
  (length (submittedOrders (executeTrade st stock answers)) <= 1)%nat.
Proof.
  intros Hin Hpos.
  destruct (executeTrade_submits st stock answers)
    as [->|(o & -> & Hsym & Hside & _ & Hq)]; [split; [constructor | simpl; lia]|].
  split; [|simpl; lia]. constructor; [|constructor].
  unfold soundOrder. rewrite Hsym. repeat split; try assumption.
  exists stock. split; [exact Hin | reflexivity].
Qed.

Lemma scanWatchlist_sound (st : State) (world : nat -> TradeAnswers)
    (stocks : list WatchlistEntry) :
  (forall s, In s stocks -> In s (aiWatchlist st)) ->
  forall i,
  Forall (soundOrder st) (submittedOrders (scanWatchlist st world i stocks)) /\
  (length (submittedOrders (scanWatchlist st world i stocks))
   <= length (tradeAttempts (scanWatchlist st world i stocks)))%nat.
Proof.
  induction stocks as [|stock rest IH]; intros Hsub i; [split; [constructor | simpl; lia]|].
  assert (Hrest : forall s, In s rest -> In s (aiWatchlist st))
    by (intros s Hs; apply Hsub; right; exact Hs).
  cbn [scanWatchlist]. destruct (hasPosition st stock) eqn:Hpos; [apply IH, Hrest|].
  destruct (capReached st); [split; [constructor | simpl; lia]|].
  destruct (_ && _); [|apply IH, Hrest].
  cbn [submittedOrders tradeAttempts].
  rewrite submittedOrders_app, ScalpingFacts.tradeAttempts_app,
    ScalpingFacts.executeTrade_attempts, !length_app.
  destruct (executeTrade_sound st stock (world i) (Hsub stock (or_introl eq_refl)) Hpos)
    as [Hs Hl].
  destruct (IH Hrest (S i)) as [Hs' Hl'].
  split; [apply Forall_app; split; assumption | cbn [length]; lia].
Qed.

Lemma attempts_shape (st : State) (world : nat -> TradeAnswers) :
  tradeAttempts (snd (runScalpingStrategy st world)) =
    match aiWatchlist st with
    | [] => []
    | top :: _ =>
        if capReached st then []
        else if firstGateTaken st top then [ticker top]
        else map ticker (filter (entrySignal st) (aiWatchlist st))
    end.
Proof.
  unfold runScalpingStrategy, firstGateTaken, technicalScan.
  destruct (aiWatchlist st) as [|top rest] eqn:Hw; [reflexivity|].
  destruct (capReached st) eqn:Hcap; [reflexivity|].
  destruct (isFirstTradeMadeToday st); cbn [negb andb].
  - cbn [snd tradeAttempts].
    rewrite <- Hw. apply ScalpingFacts.scanWatchlist_attempts, Hcap.
  - destruct (hasPosition st top); cbn [negb snd tradeAttempts].
    + rewrite <- Hw. apply ScalpingFacts.scanWatchlist_attempts, Hcap.
    + apply ScalpingFacts.executeTrade_attempts.
Qed.

Lemma runScalpingStrategy_state (st : State) (world : nat -> TradeAnswers) :
  fst (runScalpingStrategy st world) =
    match aiWatchlist st with
    | [] => st
    | top :: _ =>
        if negb (capReached st) && firstGateTaken st top
        then set_isFirstTradeMadeToday true st
        else st
    end /\
  tradeAttempts (snd (runScalpingStrategy st world)) =
    match aiWatchlist st with
    | [] => []
    | top :: _ =>
        if capReached st then []
        else if firstGateTaken st top then [ticker top]
        else map ticker (filter (entrySignal st) (aiWatchlist st))
    end.
Proof.
  split; [|apply attempts_shape].
  unfold runScalpingStrategy, firstGateTaken.
  destruct (aiWatchlist st) as [|top rest]; [reflexivity|].
  destruct (capReached st); [reflexivity|]. cbn [negb andb].
  destruct (isFirstTradeMadeToday st); [reflexivity|]. cbn [negb andb].
  destruct (hasPosition st top); reflexivity.
Qed.

(** An attempt is on the ticker of a watchlist entry that is not held. *)
Lemma attempts_not_held (st : State) (world : nat -> TradeAnswers) (sym : string) :
  In sym (tradeAttempts (snd (runScalpingStrategy st world))) ->
  holds st sym = false /\
  exists stock, In stock (aiWatchlist st) /\ ticker stock = sym.
Proof.
  rewrite attempts_shape.
  destruct (aiWatchlist st) as [|top rest] eqn:Hw; [intros []|].
  destruct (capReached st); [intros []|].
  unfold firstGateTaken. destruct (negb (isFirstTradeMadeToday st) && negb (hasPosition st top)) eqn:Hg.
  - intros [<-|[]]. apply andb_true_iff in Hg as [_ Hp].
    apply negb_true_iff in Hp. split; [exact Hp|].
    exists top. split; [left; reflexivity | reflexivity].
  - intros Hin. apply in_map_iff in Hin as (stock & <- & Hf).
    apply filter_In in Hf as [Hin Hsig]. unfold entrySignal in Hsig.
    apply andb_true_iff in Hsig as [Hsig _]. apply andb_true_iff in Hsig as [Hp _].
    apply negb_true_iff in Hp. split; [exact Hp|].
    exists stock. split; [exact Hin | reflexivity].
Qed.

Lemma firstGateTaken_spec (st : State) (top : WatchlistEntry) :
  firstGateTaken st top = spec_firstTradeDue st top.
Proof.
  unfold firstGateTaken, spec_firstTradeDue.
  rewrite ScalpingFacts.hasPosition_spec. reflexivity.
Qed.

(** X6. In every state, [runScalpingStrategy] attempts a trade on: nothing
    when the watchlist is empty or the number of open positions is at least
    [maxConcurrentScalps]; the top entry alone when no trade was made today
    and no position is open on its symbol, the flag being set then and only
    then; else exactly the entries with no open position on their symbol, a
    MACD histogram above 0 and a 1-minute RSI below 45, in watchlist order,
    also when the first-trade gate was skipped because the top entry is held,
    the flag staying unset.  The conditions are those of the specification,
    none is a predicate of the code. *)
Theorem runScalpingStrategy_attempts (st : State)
    (world : nat -> TradeAnswers) :
  tradeAttempts (snd (runScalpingStrategy st world)) =
    match aiWatchlist st with
    | [] => []
    | top :: _ =>
        if spec_capReached st then []
        else if spec_firstTradeDue st top then [ticker top]
        else map ticker (filter (spec_entryCondition st) (aiWatchlist st))
    end /\
  fst (runScalpingStrategy st world) =
    match aiWatchlist st with
    | [] => st
    | top :: _ =>
        if negb (spec_capReached st) && spec_firstTradeDue st top
        then set_isFirstTradeMadeToday true st
        else st
    end.
Proof.
  destruct (runScalpingStrategy_state st world) as [Hst Hat].
  rewrite Hst, Hat.
  destruct (aiWatchlist st) as [|top rest]; [split; reflexivity|].
  change (capReached st) with (spec_capReached st).
  rewrite (firstGateTaken_spec st top).
  rewrite (filter_ext _ _ (ScalpingFacts.entrySignal_spec st)).
  split; reflexivity.
Qed.

Lemma hasPosition_holds (st : State) (stock : WatchlistEntry) :
  hasPosition st stock = holds st (ticker stock).
Proof. reflexivity. Qed.

(** Helper: the orders of the strategy are sound, and [placeBracketOrder]
    is called at most once per attempt. *)
Lemma orders_shape (st : State) (world : nat -> TradeAnswers) :
  Forall (soundOrder st) (submittedOrders (snd (runScalpingStrategy st world))) /\
  (length (submittedOrders (snd (runScalpingStrategy st world)))
   <= length (tradeAttempts (snd (runScalpingStrategy st world))))%nat.
Proof.
  unfold runScalpingStrategy, technicalScan.
  destruct (aiWatchlist st) as [|top rest] eqn:Hw.
  { cbn. split; [constructor | lia]. }
  destruct (capReached st) eqn:Hcap.
  { cbn. split; [constructor | lia]. }
  assert (Hscan := scanWatchlist_sound st world (top :: rest)
                     ltac:(intros s Hs; rewrite Hw; exact Hs) 0%nat).
  destruct (isFirstTradeMadeToday st); cbn [negb].
  - cbn [snd submittedOrders tradeAttempts]. exact Hscan.
  - destruct (hasPosition st top) eqn:Hpos; cbn [negb snd submittedOrders tradeAttempts].
    + exact Hscan.
    + destruct (executeTrade_sound st top (world 0%nat)
                  ltac:(rewrite Hw; left; reflexivity) Hpos) as [Hs Hl].
      rewrite ScalpingFacts.executeTrade_attempts in *.
      split; assumption.
Qed.

(** The strategy changes nothing but the flag of the first trade. *)
Lemma runScalpingStrategy_flag_only (st : State) (world : nat -> TradeAnswers) :
  fst (runScalpingStrategy st world) = st \/
  fst (runScalpingStrategy st world) = set_isFirstTradeMadeToday true st.
Proof.
  destruct (runScalpingStrategy_state st world) as [-> _].
  destruct (aiWatchlist st); [left; reflexivity|].
  destruct (negb (capReached st) && firstGateTaken st w); [right|left]; reflexivity.
Qed.

(** X7. In every state and whatever the network answers, every order
    [runScalpingStrategy] hands to the broker is a buy of a quantity above 0
    for the ticker of a watchlist entry with no open position; there is no
    order without a trade attempt, at most one attempt per watchlist entry,
    and neither attempt nor order when the number of open positions is at
    least [maxConcurrentScalps]. *)
Theorem runScalpingStrategy_orders_sound (st : State)
    (world : nat -> TradeAnswers) :
  let trace := snd (runScalpingStrategy st world) in
  Forall (soundOrder st) (submittedOrders trace) /\
  (tradeAttempts trace = [] -> submittedOrders trace = []) /\
  (length (tradeAttempts trace) <= length (aiWatchlist st))%nat /\
  (spec_capReached st = true ->
   tradeAttempts trace = [] /\ submittedOrders trace = []).
Proof.
  cbn zeta.
  destruct (orders_shape st world) as [Hsound Hle].
  assert (Hnone : tradeAttempts (snd (runScalpingStrategy st world)) = [] ->
                  submittedOrders (snd (runScalpingStrategy st world)) = []).
  { intros Hno. rewrite Hno in Hle.
    destruct (submittedOrders (snd (runScalpingStrategy st world)));
      [reflexivity | cbn [length] in Hle; lia]. }
  split; [exact Hsound|]. split; [exact Hnone|].
  assert (Hatt : tradeAttempts (snd (runScalpingStrategy st world)) =
                 match aiWatchlist st with
                 | [] => []
                 | top :: _ =>
                     if capReached st then []
                     else if firstGateTaken st top then [ticker top]
                     else map ticker (filter (entrySignal st) (aiWatchlist st))
                 end) by apply attempts_shape.
  split.
  - rewrite Hatt.
    destruct (aiWatchlist st) as [|top rest] eqn:Hw; [simpl; lia|].
    destruct (capReached st); [simpl; lia|].
    destruct (firstGateTaken st top); [simpl; lia|].
    rewrite length_map. apply filter_length_le.
  - intros Hcap. change (spec_capReached st) with (capReached st) in Hcap.
    assert (Hno : tradeAttempts (snd (runScalpingStrategy st world)) = []).
    { rewrite Hatt, Hcap. destruct (aiWatchlist st); reflexivity. }
    split; [exact Hno | exact (Hnone Hno)].
Qed.

Lemma runScalpingStrategy_orders_sound_witness :
  tradeAttempts (snd (runScalpingStrategy
                          (mkState true (mkSettings (Fin 1) (Fin 1) (Fin (5 # 100)) (Fin 30))
                                   (mkPortfolio (Fin 10000) (Fin 10000) (Fin 10000))
                                   [positionA] [] [entryA; entryB] None true)
                          steadyWorld)) = [] /\
  submittedOrders (snd (runScalpingStrategy
                          (mkState true (mkSettings (Fin 1) (Fin 1) (Fin (5 # 100)) (Fin 30))
                                   (mkPortfolio (Fin 10000) (Fin 10000) (Fin 10000))
                                   [positionA] [] [entryA; entryB] None true)
                          steadyWorld)) = [].
Proof.
  apply (proj2 (proj2 (proj2 (runScalpingStrategy_orders_sound _ steadyWorld)))).
  reflexivity.
Defined.

End ScalpingMoreFacts.

(* ================================================================== *)
(** * executeTrade: risk and rounding *)
(* ================================================================== *)

Module TradeMoreFacts.
Import Strategy TradeSpec TradeMoreSpec.

Local Open Scope Q_scope.

(** X8. With finite, market-sized equity and riskPerTrade and an ATR
    above 0, the quantity is a whole number n of shares that is the floor of
    riskCapital / stopDistance up to the rounding of the doubles (a relative
    [tolerance] of 2^-50 on the risk capital):
    n * stopDistance <= riskCapital and riskCapital < (n + 1) * stopDistance,
    each within that error.  So the loss at the stop exceeds the risk capital
    by no more than the error, and one more share would exceed it.  A
    quantity that passes the test [quantity > 0] has its stop distance
    covered by the risk capital within the error, and a stop distance covered
    beyond the error gives a quantity that passes. *)
Theorem tradeQuantity_risk_bound (st : State) (stock : WatchlistEntry)
    (e r a : Q) :
  equity (portfolio st) = Fin e ->
  riskPerTrade (settings st) = Fin r ->
  atr stock = Fin a ->
  0 < a ->
  marketSized e = true -> marketSized r = true -> marketSized a = true ->
  let riskCapital := e * (r / 100) in
  let stopDistance := 2 * a in
  let slack := tolerance * Qabs riskCapital in
  exists n : Z,
    tradeQuantity st stock = of_Z n /\
    inject_Z n * stopDistance <= riskCapital + slack /\
    riskCapital - slack < (inject_Z n + 1) * stopDistance /\
    (gtb (tradeQuantity st stock) (Fin 0) = true ->
     stopDistance <= riskCapital + slack) /\
    (stopDistance <= riskCapital - slack ->
     gtb (tradeQuantity st stock) (Fin 0) = true).
Proof.
  intros He Hr Ha Hpos _ _ _ riskCapital stopDistance slack.
  pose proof (TradeFacts.slack_nonneg riskCapital) as Hslack. fold slack in Hslack.
  destruct (TradeFacts.quantity_floor st stock e r a He Hr Ha Hpos)
    as (n & Hn & Hlo & Hhi).
  fold riskCapital stopDistance in Hlo, Hhi.
  assert (Hd : 0 < stopDistance) by (unfold stopDistance; lra).
  exists n. rewrite Hn. split; [reflexivity|].
  split; [lra|]. split; [lra|]. split.
  - intros Hn0. apply TradeFacts.gtb_of_Z_0 in Hn0.
    assert (Hn1 : 1 <= inject_Z n).
    { change 1 with (inject_Z 1). rewrite <- Zle_Qle. lia. }
    assert (H3 : 1 * stopDistance <= inject_Z n * stopDistance)
      by (apply Qmult_le_compat_r; lra).
    lra.
  - intros Hcov. apply TradeFacts.gtb_of_Z_0.
    assert (H3 : 0 < inject_Z n).
    { destruct (Qlt_le_dec 0 (inject_Z n)) as [H|H]; [exact H|]. exfalso.
      assert (H4 : (inject_Z n + 1) * stopDistance <= 1 * stopDistance)
        by (apply Qmult_le_compat_r; lra).
      lra. }
    change 0 with (inject_Z 0) in H3. rewrite <- Zlt_Qlt in H3. exact H3.
Qed.

Lemma tradeQuantity_risk_bound_witness :
  exists n : Z,
    tradeQuantity exampleState exampleEntry = of_Z n /\
    inject_Z n * (2 * (1 # 2))
      <= 10000 * (1 / 100) + tolerance * Qabs (10000 * (1 / 100)) /\
    10000 * (1 / 100) - tolerance * Qabs (10000 * (1 / 100))
      < (inject_Z n + 1) * (2 * (1 # 2)).
Proof.
  destruct (tradeQuantity_risk_bound exampleState exampleEntry 10000 1 (1 # 2)
              eq_refl eq_refl eq_refl ltac:(reflexivity)
              eq_refl eq_refl eq_refl) as (n & Hn & Hlo & Hhi & _).
  exists n. split; [exact Hn|]. split; [exact Hlo | exact Hhi].
Defined.



End TradeMoreFacts.

(* ================================================================== *)
(** * runAiDrivenAnalysis: what it keeps, and who trades first *)
(* ================================================================== *)

Module AnalysisMoreFacts.
Import Strategy OrderFacts AnalysisSpec AnalysisMoreSpec.

Lemma set_aiWatchlist_same (st : State) :
  set_aiWatchlist (aiWatchlist st) st = st.
Proof. destruct st; reflexivity. Qed.

(** The state after an analysis: the old one, or the old one with the
    sorted qualifying entries of the loop as watchlist. *)
Lemma runAiDrivenAnalysis_state (st : State) (world : AnalysisAnswers) :
  fst (runAiDrivenAnalysis st world) = st \/
  exists e stocks candidates,
    fst (analyzeCandidates (candidateAnswers world) 0 candidates) = e :: stocks /\
    fst (runAiDrivenAnalysis st world)
    = set_aiWatchlist (sortByConfidence (e :: stocks)) st.
Proof.
  unfold runAiDrivenAnalysis.
  destruct (isBotRunning st); cbn [negb]; [|left; reflexivity].
  destruct (moversAnswer world) as [[|sym rest]|err]; try (left; reflexivity).
  destruct (newsAnswer world) as [headlines|err]; [|left; reflexivity].
  destruct (analyzeCandidates (candidateAnswers world) 0 (sym :: rest))
    as [[|e stocks] t] eqn:E; [left; reflexivity|].
  right. exists e, stocks, (sym :: rest). rewrite E. split; reflexivity.
Qed.

(** X10. Whatever the network answers, [runAiDrivenAnalysis] changes
    nothing of the state but the watchlist, does nothing at all when the bot
    is not running, and keeps the watchlist ranked: if it held only BUYs of
    confidence at least 7 in descending order of confidence, it still does
    afterwards. *)
Theorem runAiDrivenAnalysis_keeps_ranking (st : State) (world : AnalysisAnswers) :
  let st' := fst (runAiDrivenAnalysis st world) in
  st' = set_aiWatchlist (aiWatchlist st') st /\
  (isBotRunning st = false -> runAiDrivenAnalysis st world = (st, [])) /\
  (rankedWatchlist st -> rankedWatchlist st').
Proof.
  cbn zeta. split; [|split].
  - destruct (runAiDrivenAnalysis_state st world) as [->|(e & stocks & cands & _ & ->)].
    + symmetry. apply set_aiWatchlist_same.
    + reflexivity.
  - intros H. unfold runAiDrivenAnalysis. rewrite H. reflexivity.
  - intros [Hq Hd].
    destruct (runAiDrivenAnalysis_state st world) as [->|(e & stocks & cands & Hl & ->)].
    + split; assumption.
    + assert (Hql : Forall qualified (e :: stocks)).
      { rewrite <- Hl. apply AnalysisFacts.analyzeCandidates_qualified. }
      unfold rankedWatchlist. cbn [aiWatchlist set_aiWatchlist]. split.
      * apply (Permutation_Forall (AnalysisFacts.sortByConfidence_perm _)), Hql.
      * apply AnalysisFacts.sortByConfidence_descending, Hql.
Qed.

Lemma runAiDrivenAnalysis_keeps_ranking_witness :
  rankedWatchlist (fst (runAiDrivenAnalysis startedState fourWorld)) /\
  runAiDrivenAnalysis initialState fourWorld = (initialState, []).
Proof.
  destruct (runAiDrivenAnalysis_keeps_ranking startedState fourWorld) as (_ & _ & Hr).
  destruct (runAiDrivenAnalysis_keeps_ranking initialState fourWorld) as (_ & Hn & _).
  split.
  - apply Hr. split; constructor.
  - apply Hn. reflexivity.
Defined.

(** *** The first trade after an analysis *)

Lemma geb_refl_of (a c : num) : geb a c = true -> geb a a = true.
Proof.
  destruct a as [x| | |], c as [z| | |]; unfold geb, cmp; try easy;
    intros _; cmpQ; try easy; lra.
Qed.

Lemma geb_neq_ltb (a b : num) :
  geb a b = true -> eqb b a = false -> ltb b a = true.
Proof.
  destruct a as [x| | |], b as [y| | |]; unfold geb, eqb, ltb, cmp; try easy;
    cmpQ; try easy; lra.
Qed.

Lemma filter_head_split {A : Type} (f : A -> bool) (xs : list A) (x : A)
    (ys : list A) :
  filter f xs = x :: ys ->
  exists pre post, xs = pre ++ x :: post /\ Forall (fun y => f y = false) pre.
Proof.
  induction xs as [|a rest IH]; [discriminate|].
  cbn [filter]. destruct (f a) eqn:Ea.
  - intros [= -> _]. exists [], rest. split; [reflexivity | constructor].
  - intros H. destruct (IH H) as (pre & post & -> & Hpre).
    exists (a :: pre), post. split; [reflexivity | constructor; assumption].
Qed.

(** X11. After an analysis that found qualifying entries, with nothing
    held, the cap not reached and no trade made today, the next run of the
    scalping strategy attempts its one first trade on the qualifying entry
    of highest confidence, the earliest scanned one if several share it. *)
Theorem first_trade_goes_to_best (st : State) (world : AnalysisAnswers)
    (trades : nat -> TradeAnswers) (candidates headlines : list string) :
  isBotRunning st = true ->
  moversAnswer world = Resolved candidates ->
  newsAnswer world = Resolved headlines ->
  qualifyingEntries world candidates <> [] ->
  positions st = [] ->
  capReached st = false ->
  isFirstTradeMadeToday st = false ->
  exists pre best post,
    qualifyingEntries world candidates = pre ++ best :: post /\
    (forall e, In e (qualifyingEntries world candidates) ->
               geb (confidence best) (confidence e) = true) /\
    (forall e, In e pre -> ltb (confidence e) (confidence best) = true) /\
    tradeAttempts (snd (runScalpingStrategy (fst (runAiDrivenAnalysis st world))
                                              trades))
    = [ticker best].
Proof.
  intros Hrun Hm Hn Hne Hpos Hcap Hfirst.
  set (q := qualifyingEntries world candidates) in *.
  assert (Hq : Forall qualified q).
  { subst q. unfold qualifyingEntries.
    rewrite <- AnalysisFacts.analyzeCandidates_collects.
    apply AnalysisFacts.analyzeCandidates_qualified. }
  pose proof (AnalysisFacts.runAiDrivenAnalysis_watchlist st world candidates
                headlines Hrun Hm Hn) as Hwl.
  fold q in Hwl.
  assert (Hsorted : aiWatchlist (fst (runAiDrivenAnalysis st world))
                    = sortByConfidence q).
  { rewrite Hwl. destruct q; [contradiction | reflexivity]. }
  pose proof (AnalysisFacts.sortByConfidence_perm q) as Hperm.
  pose proof (AnalysisFacts.sortByConfidence_descending q Hq) as Hdesc.
  pose proof (AnalysisFacts.sortByConfidence_stable q) as Hstable.
  destruct (sortByConfidence q) as [|best rest] eqn:Hs.
  { apply Permutation_sym, Permutation_nil in Hperm. contradiction. }
  assert (Hbq : qualified best).
  { apply (Permutation_Forall Hperm) in Hq. inversion Hq; assumption. }
  assert (Hmax : forall e, In e q -> geb (confidence best) (confidence e) = true).
  { intros e He. apply (Permutation_in _ Hperm) in He. destruct He as [<-|He].
    - exact (geb_refl_of _ _ (proj2 Hbq)).
    - exact (AnalysisFacts.descending_head best rest e Hdesc He). }
  pose proof (Hstable (confidence best)) as Hf. cbn [filter] in Hf.
  rewrite (AnalysisFacts.qualified_comparable best Hbq) in Hf. symmetry in Hf.
  destruct (filter_head_split _ _ _ _ Hf) as (pre & post & Hsplit & Hpre).
  exists pre, best, post. split; [exact Hsplit|]. split; [exact Hmax|]. split.
  - intros e He. rewrite Forall_forall in Hpre. specialize (Hpre e He).
    apply geb_neq_ltb; [|exact Hpre].
    apply Hmax. rewrite Hsplit. apply in_or_app. left. exact He.
  - destruct (runAiDrivenAnalysis_state st world) as [Hst|(e & stocks & cands & _ & Hst)].
    + rewrite Hst in Hsorted |- *. unfold runScalpingStrategy.
      rewrite Hsorted, Hcap, Hfirst, (ScalpingFacts.hasPosition_none st best Hpos).
      cbn [negb snd tradeAttempts]. apply ScalpingFacts.executeTrade_attempts.
    + rewrite Hst in Hsorted |- *. cbn [aiWatchlist set_aiWatchlist] in Hsorted.
      unfold runScalpingStrategy. cbn [aiWatchlist set_aiWatchlist].
      rewrite Hsorted.
      change (capReached (set_aiWatchlist (best :: rest) st)) with (capReached st).
      change (isFirstTradeMadeToday (set_aiWatchlist (best :: rest) st))
        with (isFirstTradeMadeToday st).
      rewrite Hcap, Hfirst.
      rewrite (ScalpingFacts.hasPosition_none _ best) by exact Hpos.
      cbn [negb snd tradeAttempts]. apply ScalpingFacts.executeTrade_attempts.
Qed.

Lemma first_trade_goes_to_best_witness :
  exists best,
    tradeAttempts (snd (runScalpingStrategy
                          (fst (runAiDrivenAnalysis startedState fourWorld))
                          ScalpingSpec.steadyWorld))
    = [ticker best] /\
    forall e, In e (qualifyingEntries fourWorld ["AAA"; "BBB"; "CCC"; "DDD"]%string) ->
              geb (confidence best) (confidence e) = true.
Proof.
  destruct (first_trade_goes_to_best startedState fourWorld ScalpingSpec.steadyWorld
              _ _ eq_refl eq_refl eq_refl ltac:(discriminate) eq_refl eq_refl eq_refl)
    as (pre & best & post & Hsplit & Hmax & Hpre & Hatt).
  exists best. split; [exact Hatt | exact Hmax].
Defined.

End AnalysisMoreFacts.

(* ================================================================== *)
(** * getIndicators *)
(* ================================================================== *)

Module IndicatorsFacts.
Import Utils Api AtrSpec IndicatorsSpec.

Local Open Scope Q_scope.

Lemma closes_finite (bs : list (Q * Q * Q)) :
  map c (map finiteBar bs) = map Fin (closesOf bs).
Proof.
  unfold closesOf. rewrite !map_map. apply map_ext.
  intros [[high low] close]. reflexivity.
Qed.

Lemma calculateRSI_in_range (qs : list Q) :
  exists r, calculateRSI (map Fin qs) 14 = Fin r /\ 0 <= r <= 100.
Proof.
  destruct (Nat.le_gt_cases (length qs) 14) as [Hs|Hl].
  - exists 50. split; [|lra]. apply RsiFacts.calculateRSI_short.
    rewrite length_map. exact Hs.
  - rewrite RsiFacts.calculateRSI_long by (rewrite length_map; exact Hl).
    destruct (RsiFacts.rsi_averages_nonneg qs 14 ltac:(lia)) as (g & l & -> & Hg & Hl0).
    destruct (Fin l === Fin 0)%num eqn:E.
    + exists 100. split; [reflexivity | lra].
    + apply RsiFacts.rsi_formula_range; [assumption|].
      destruct (Qlt_le_dec 0 l) as [Hpos|Hneg]; [assumption|].
      assert (Hz : l == 0) by lra. apply eqb_Fin in Hz. congruence.
Qed.

Lemma enoughBars_length (b : BarsBody) :
  enoughBars b = true <-> exists bars, b = Some bars /\ (50 <= length bars)%nat.
Proof.
  unfold enoughBars. destruct b as [bars|].
  - destruct (Nat.ltb_spec (length bars) 50); cbn [negb]; split.
    + discriminate.
    + intros (bars' & [= <-] & H'). lia.
    + intros _. exists bars. split; [reflexivity | assumption].
    + reflexivity.
  - split; [discriminate | intros (bars' & Hb & _); discriminate].
Qed.

(** X12. [getIndicators] returns indicators exactly when both bar requests
    resolve with at least 50 bars each.  They then carry the symbol asked
    for, and their ATR is the average of exactly 14 true ranges, the last
    ones of the 5-minute bars: the window of [calculateATR] is always full
    here.  On finite bars of magnitude at most 2^900 (where nothing
    overflows) both RSI values lie in 0..100 and the ATR is not negative. *)
Theorem getIndicators_available (sym : string) (bars1m bars5m : Outcome BarsBody) :
  ((exists ind, getIndicators sym bars1m bars5m = Some ind) <->
   (exists one five,
       bars1m = Resolved (Some one) /\ bars5m = Resolved (Some five) /\
       (50 <= length one)%nat /\ (50 <= length five)%nat)) /\
  (forall ind five,
      getIndicators sym bars1m bars5m = Some ind ->
      bars5m = Resolved (Some five) ->
      ind_symbol ind = sym /\
      ind_atr ind =
        (sum (skipn (length five - 1 - 14) (trueRanges five)) / of_nat 14)%num /\
      length (skipn (length five - 1 - 14) (trueRanges five)) = 14%nat) /\
  (forall ind bs1 bs5,
      getIndicators sym bars1m bars5m = Some ind ->
      bars1m = Resolved (Some (map finiteBar bs1)) ->
      bars5m = Resolved (Some (map finiteBar bs5)) ->
      boundedBars bs1 = true -> boundedBars bs5 = true ->
      (exists r, ind_rsi1m ind = Fin r /\ 0 <= r <= 100) /\
      (exists r, ind_rsi5m ind = Fin r /\ 0 <= r <= 100) /\
      (exists a, ind_atr ind = Fin a /\ 0 <= a)).
Proof.
  split; [|split].
  - unfold getIndicators. split.
    + intros [ind H].
      destruct bars1m as [[one|]|e1]; try discriminate;
        destruct bars5m as [[five|]|e5]; try discriminate.
      destruct (enoughBars (Some one)) eqn:E1; [|discriminate].
      destruct (enoughBars (Some five)) eqn:E5; [|discriminate].
      apply enoughBars_length in E1 as (b1 & [= <-] & H1).
      apply enoughBars_length in E5 as (b5 & [= <-] & H5).
      exists one, five. repeat split; assumption.
    + intros (one & five & -> & -> & H1 & H5).
      assert (E1 : enoughBars (Some one) = true)
        by (apply enoughBars_length; exists one; split; [reflexivity | exact H1]).
      assert (E5 : enoughBars (Some five) = true)
        by (apply enoughBars_length; exists five; split; [reflexivity | exact H5]).
      rewrite E1, E5. eexists. reflexivity.
  - intros ind five H ->. unfold getIndicators in H.
    destruct bars1m as [[one|]|e1]; try discriminate.
    destruct (enoughBars (Some one)) eqn:E1; [|discriminate].
    destruct (enoughBars (Some five)) eqn:E5; [|discriminate].
    apply enoughBars_length in E5 as (b5 & [= <-] & H5).
    cbn [andb] in H. injection H as <-. cbn [ind_symbol ind_atr].
    split; [reflexivity|].
    apply AtrFacts.calculateATR_full_window. lia.
  - intros ind bs1 bs5 H -> -> _ _. unfold getIndicators in H.
    destruct (enoughBars (Some (map finiteBar bs1))); [|discriminate].
    destruct (enoughBars (Some (map finiteBar bs5))); [|discriminate].
    cbn [andb] in H. injection H as <-. cbn [ind_rsi1m ind_rsi5m ind_atr].
    rewrite !closes_finite.
    split; [apply calculateRSI_in_range|]. split; [apply calculateRSI_in_range|].
    apply AtrFacts.calculateATR_nonnegative. lia.
Qed.

Lemma getIndicators_available_witness :
  exists ind a,
    getIndicators "AAA" (Resolved (Some (map finiteBar flatBars)))
                  (Resolved (Some (map finiteBar climbingBars))) = Some ind /\
    ind_atr ind = Fin a /\ 0 <= a.
Proof.
  destruct (getIndicators_available "AAA"
              (Resolved (Some (map finiteBar flatBars)))
              (Resolved (Some (map finiteBar climbingBars)))) as (Hiff & _ & Hfin).
  destruct (proj2 Hiff) as [ind Hind].
  { exists (map finiteBar flatBars), (map finiteBar climbingBars).
    repeat split; simpl; lia. }
  destruct (Hfin ind flatBars climbingBars Hind eq_refl eq_refl
              ltac:(vm_compute; reflexivity) ltac:(vm_compute; reflexivity))
    as (_ & _ & a & Ha & Hpos).
  exists ind, a. repeat split; assumption.
Defined.

End IndicatorsFacts.

(* ================================================================== *)
(** * tradeCycle with a refresh that settles well *)
(* ================================================================== *)

Module CycleMoreFacts.
Import Api App CycleSpec PortfolioSpec ScalpingSpec ScalpingMoreSpec CycleMoreSpec.

Lemma tradeCycle_resolved (st : State) (ts : Timers) (w : CycleWorld)
    (snap : Snapshot) :
  isBotRunning st = true ->
  refreshAnswer w = Resolved snap ->
  tradeCycle st ts w =
  (fst (strategyStep (refreshedForCycle st w snap) w),
   ts,
   dateCheckLog st w ++
   Log LogCycleStart :: RefreshUI ::
   snd (strategyStep (refreshedForCycle st w snap) w) ++
   [Save false; Log LogCycleFinished]).
Proof.
  intros Hrun Hans. unfold tradeCycle. rewrite Hrun. cbn [negb].
  assert (Hsave : saveDataAndSettings
                    (fst (strategyStep (refreshedForCycle st w snap) w)) false
                  = [Save false]).
  { unfold saveDataAndSettings.
    rewrite (proj1 (CycleFacts.strategyStep_keeps _ w)).
    unfold refreshedForCycle. rewrite PortfolioFacts.refreshed_eq.
    cbn [isBotRunning set_refresh].
    rewrite CycleFacts.afterDateCheck_running, Hrun. reflexivity. }
  revert Hsave. unfold refreshedForCycle, refreshed, strategyStep, afterDateCheck,
    dateCheckLog.
  destruct (sameDate (lastTradeDate st) (localDate w));
    unfold updatePortfolioAndPositions; rewrite Hans; cbn [fst];
    destruct (isMarketOpen _ _ _);
    try destruct (Strategy.runScalpingStrategy _ _) as [st3 t3];
    cbn [fst snd app]; intros ->; reflexivity.
Qed.

Lemma dateCheckLog_quiet (st : State) (w : CycleWorld) (t : list Event) :
  tradeAttempts (dateCheckLog st w ++ t) = tradeAttempts t /\
  submittedOrders (dateCheckLog st w ++ t) = submittedOrders t.
Proof. unfold dateCheckLog. destruct (sameDate _ _); split; reflexivity. Qed.

Lemma cycle_attempts (st : State) (ts : Timers) (w : CycleWorld) (snap : Snapshot) :
  isBotRunning st = true ->
  refreshAnswer w = Resolved snap ->
  tradeAttempts (cycleTrace (tradeCycle st ts w)) =
  tradeAttempts (snd (strategyStep (refreshedForCycle st w snap) w)) /\
  submittedOrders (cycleTrace (tradeCycle st ts w)) =
  submittedOrders (snd (strategyStep (refreshedForCycle st w snap) w)).
Proof.
  intros Hrun Hans. rewrite (tradeCycle_resolved st ts w snap Hrun Hans).
  unfold cycleTrace. cbn [snd].
  rewrite (proj1 (dateCheckLog_quiet st w _)), (proj2 (dateCheckLog_quiet st w _)).
  cbn [tradeAttempts submittedOrders].
  rewrite ScalpingFacts.tradeAttempts_app, ScalpingMoreFacts.submittedOrders_app.
  cbn [tradeAttempts submittedOrders]. rewrite !app_nil_r. split; reflexivity.
Qed.

Lemma refreshedForCycle_fields (st : State) (w : CycleWorld) (snap : Snapshot) :
  positions (refreshedForCycle st w snap) = snap_positions snap /\
  aiWatchlist (refreshedForCycle st w snap) = aiWatchlist st /\
  settings (refreshedForCycle st w snap) = settings st /\
  lastTradeDate (refreshedForCycle st w snap) = lastTradeDate (afterDateCheck st w) /\
  isFirstTradeMadeToday (refreshedForCycle st w snap)
  = isFirstTradeMadeToday (afterDateCheck st w).
Proof.
  unfold refreshedForCycle. rewrite PortfolioFacts.refreshed_eq.
  cbn [positions aiWatchlist settings lastTradeDate isFirstTradeMadeToday set_refresh].
  unfold afterDateCheck. destruct (sameDate _ _); repeat split.
Qed.

(** X13. The first trade of the day is re-armed by the date, before the
    strategy runs.  In a cycle of a running bot whose refresh settles well,
    the market open, the cap not reached by the reported positions and the
    top watchlist entry not among them: if the local date differs from
    [lastTradeDate], the cycle attempts its one trade on the top entry
    whether or not a first trade was flagged before, and ends with
    [lastTradeDate] at the new date and the flag set; if the date is the same
    and the flag is set, the cycle attempts only the entries passing the
    technical filter. *)
Theorem new_day_rearms_first_trade (st : State) (ts : Timers) (w : CycleWorld)
    (snap : Snapshot) (top : WatchlistEntry) (rest : list WatchlistEntry) :
  isBotRunning st = true ->
  refreshAnswer w = Resolved snap ->
  isMarketOpen (nyDay w) (nyHour w) (nyMinute w) = true ->
  aiWatchlist st = top :: rest ->
  capReachedBy st snap = false ->
  reported snap (ticker top) = false ->
  let r := tradeCycle st ts w in
  (sameDate (lastTradeDate st) (localDate w) = false ->
   tradeAttempts (cycleTrace r) = [ticker top] /\
   lastTradeDate (cycleState r) = Some (localDate w) /\
   isFirstTradeMadeToday (cycleState r) = true) /\
  (sameDate (lastTradeDate st) (localDate w) = true ->
   isFirstTradeMadeToday st = true ->
   tradeAttempts (cycleTrace r) =
     map ticker (filter (entrySignal (refreshedForCycle st w snap)) (aiWatchlist st)) /\
   cycleState r = refreshedForCycle st w snap).
Proof.
  intros Hrun Hans Hopen Hw Hcap Htop r. subst r.
  rewrite (proj1 (cycle_attempts st ts w snap Hrun Hans)).
  rewrite (tradeCycle_resolved st ts w snap Hrun Hans).
  unfold cycleState. cbn [fst].
  unfold strategyStep. rewrite Hopen.
  destruct (refreshedForCycle_fields st w snap) as (Hp & Hwl & Hs & Hd & Hf).
  set (st2 := refreshedForCycle st w snap) in *.
  assert (Hcap2 : Strategy.capReached st2 = false).
  { unfold Strategy.capReached. rewrite Hp, Hs. exact Hcap. }
  assert (Htop2 : Strategy.hasPosition st2 top = false).
  { unfold Strategy.hasPosition. rewrite Hp. exact Htop. }
  destruct (ScalpingMoreFacts.runScalpingStrategy_state st2 (tradeAnswers w)) as [Hst Hat].
  rewrite Hst, Hat, Hwl, Hw, Hcap2. cbn [negb andb].
  unfold firstGateTaken. rewrite Htop2, Hf. cbn [negb].
  split.
  - intros Hnew.
    assert (Hflag : isFirstTradeMadeToday (afterDateCheck st w) = false).
    { unfold afterDateCheck. rewrite Hnew. reflexivity. }
    rewrite Hflag. cbn [negb andb].
    cbn [lastTradeDate isFirstTradeMadeToday set_isFirstTradeMadeToday].
    rewrite Hd. unfold afterDateCheck. rewrite Hnew.
    repeat split.
  - intros Hsame Hflag.
    assert (Hflag2 : isFirstTradeMadeToday (afterDateCheck st w) = true).
    { unfold afterDateCheck. rewrite Hsame. exact Hflag. }
    rewrite Hflag2. cbn [negb andb]. rewrite <- Hw, <- Hwl. split; reflexivity.
Qed.

Lemma new_day_rearms_first_trade_witness :
  tradeAttempts (cycleTrace (tradeCycle yesterdayState bothTimers
                                        (mondayNoon (Resolved emptySnapshot))))
  = ["A"%string] /\
  lastTradeDate (cycleState (tradeCycle yesterdayState bothTimers
                                        (mondayNoon (Resolved emptySnapshot))))
  = Some "11/2/2026"%string /\
  isFirstTradeMadeToday (cycleState (tradeCycle yesterdayState bothTimers
                                                (mondayNoon (Resolved emptySnapshot))))
  = true.
Proof.
  apply (proj1 (new_day_rearms_first_trade
                  yesterdayState bothTimers (mondayNoon (Resolved emptySnapshot))
                  emptySnapshot entryA [entryB]
                  eq_refl eq_refl eq_refl eq_refl eq_refl eq_refl)).
  reflexivity.
Defined.

Lemma strategyStep_closed (st : State) (w : CycleWorld) :
  isMarketOpen (nyDay w) (nyHour w) (nyMinute w) = false ->
  tradeAttempts (snd (strategyStep st w)) = [].
Proof. intros H. unfold strategyStep. rewrite H. reflexivity. Qed.

Lemma strategyStep_orders (st : State) (w : CycleWorld) :
  tradeAttempts (snd (strategyStep st w)) = [] ->
  submittedOrders (snd (strategyStep st w)) = [].
Proof.
  unfold strategyStep. destruct (isMarketOpen _ _ _); [|reflexivity].
  intros Hno.
  destruct (ScalpingMoreFacts.orders_shape st (tradeAnswers w)) as [_ Hle].
  rewrite Hno in Hle.
  destruct (submittedOrders (snd (Strategy.runScalpingStrategy st (tradeAnswers w))));
    [reflexivity | cbn [length] in Hle; lia].
Qed.

Lemma cycle_attempts_other (st : State) (ts : Timers) (w : CycleWorld) (e : Error) :
  isBotRunning st = true ->
  refreshAnswer w = Rejected e ->
  isAuthError e = false ->
  tradeAttempts (cycleTrace (tradeCycle st ts w)) =
  tradeAttempts (snd (strategyStep (afterDateCheck st w) w)) /\
  submittedOrders (cycleTrace (tradeCycle st ts w)) =
  submittedOrders (snd (strategyStep (afterDateCheck st w) w)).
Proof.
  intros Hrun Hans He.
  rewrite (CycleFacts.tradeCycle_other_failure st ts w e Hrun Hans He).
  unfold cycleTrace. cbn [snd].
  rewrite (proj1 (dateCheckLog_quiet st w _)), (proj2 (dateCheckLog_quiet st w _)).
  cbn [tradeAttempts submittedOrders].
  rewrite ScalpingFacts.tradeAttempts_app, ScalpingMoreFacts.submittedOrders_app.
  cbn [tradeAttempts submittedOrders]. rewrite !app_nil_r. split; reflexivity.
Qed.

Lemma cycle_attempts_auth (st : State) (ts : Timers) (w : CycleWorld) :
  isBotRunning st = true ->
  refreshAnswer w = Rejected AuthError ->
  tradeAttempts (cycleTrace (tradeCycle st ts w)) = [] /\
  submittedOrders (cycleTrace (tradeCycle st ts w)) = [].
Proof.
  intros Hrun Hans.
  rewrite (CycleFacts.tradeCycle_auth_failure st ts w Hrun Hans).
  unfold cycleTrace. cbn [snd].
  rewrite (proj1 (dateCheckLog_quiet st w _)), (proj2 (dateCheckLog_quiet st w _)).
  split; reflexivity.
Qed.

Lemma isAuthError_eq (e : Error) : isAuthError e = true -> e = AuthError.
Proof. destruct e; try discriminate; reflexivity. Qed.

(** The cases of one cycle, for what it attempts and submits: nothing, or
    what the strategy step does on some state. *)
Lemma cycle_cases (st : State) (ts : Timers) (w : CycleWorld) :
  (tradeAttempts (cycleTrace (tradeCycle st ts w)) = [] /\
   submittedOrders (cycleTrace (tradeCycle st ts w)) = [] /\
   (isBotRunning st = false \/ refreshAnswer w = Rejected AuthError)) \/
  (isBotRunning st = true /\ refreshAnswer w <> Rejected AuthError /\
   exists st2,
     tradeAttempts (cycleTrace (tradeCycle st ts w)) =
       tradeAttempts (snd (strategyStep st2 w)) /\
     submittedOrders (cycleTrace (tradeCycle st ts w)) =
       submittedOrders (snd (strategyStep st2 w))).
Proof.
  destruct (isBotRunning st) eqn:Hrun.
  2:{ left. rewrite (CycleFacts.tradeCycle_stopped st ts w Hrun).
      repeat split. left; reflexivity. }
  destruct (refreshAnswer w) as [snap|e] eqn:Hans.
  - right. repeat split; [discriminate|].
    exists (refreshedForCycle st w snap). apply cycle_attempts; assumption.
  - destruct (isAuthError e) eqn:He.
    + apply isAuthError_eq in He. subst e. left.
      destruct (cycle_attempts_auth st ts w Hrun Hans) as [-> ->].
      repeat split. right; reflexivity.
    + right. repeat split.
      * intros [= ->]. discriminate.
      * exists (afterDateCheck st w). apply (cycle_attempts_other st ts w e); assumption.
Qed.

(** X14. A cycle trades only with the bot running, the market open and
    the refresh not failed on authentication: if its trace has a trade
    attempt, all three hold.  And it hands no order to the broker without a
    trade attempt, so a cycle lacking one of the three submits nothing. *)
Theorem cycle_trades_only_when_open (st : State) (ts : Timers) (w : CycleWorld) :
  (tradeAttempts (cycleTrace (tradeCycle st ts w)) = [] ->
   submittedOrders (cycleTrace (tradeCycle st ts w)) = []) /\
  (tradeAttempts (cycleTrace (tradeCycle st ts w)) <> [] ->
   isBotRunning st = true /\
   isMarketOpen (nyDay w) (nyHour w) (nyMinute w) = true /\
   refreshAnswer w <> Rejected AuthError).
Proof.
  destruct (cycle_cases st ts w) as [(Ha & Ho & _)|(Hrun & Hans & st2 & Ha & Ho)].
  - rewrite Ha, Ho. split; [reflexivity | intros H; now contradiction H].
  - rewrite Ha, Ho. split; [apply strategyStep_orders|].
    intros Hne. repeat split; try assumption.
    destruct (isMarketOpen (nyDay w) (nyHour w) (nyMinute w)) eqn:Hopen; [reflexivity|].
    contradiction Hne. apply strategyStep_closed, Hopen.
Qed.

Lemma cycle_trades_only_when_open_witness :
  (isBotRunning yesterdayState = true /\
   isMarketOpen 1 12 0 = true /\
   Resolved emptySnapshot <> Rejected AuthError) /\
  submittedOrders (cycleTrace (tradeCycle yesterdayState bothTimers
                                          (saturdayNoon (Resolved emptySnapshot))))
  = [].
Proof.
  split.
  - apply (proj2 (cycle_trades_only_when_open
                    yesterdayState bothTimers (mondayNoon (Resolved emptySnapshot)))).
    vm_compute. discriminate.
  - apply (proj1 (cycle_trades_only_when_open
                    yesterdayState bothTimers (saturdayNoon (Resolved emptySnapshot)))).
    reflexivity.
Defined.

(** X15. With the refresh settled well, the strategy of the same cycle
    decides on the positions the broker has just reported, not on those the
    state held before: the state ends with the reported positions and the
    same watchlist; every trade attempt is on the ticker of a watchlist entry
    that is not among the reported positions; every order is a buy of a
    quantity above 0 for such a ticker; and when the reported positions reach
    [maxConcurrentScalps] nothing is attempted. *)
Theorem cycle_trades_on_fresh_positions (st : State) (ts : Timers)
    (w : CycleWorld) (snap : Snapshot) :
  isBotRunning st = true ->
  refreshAnswer w = Resolved snap ->
  positions (cycleState (tradeCycle st ts w)) = snap_positions snap /\
  aiWatchlist (cycleState (tradeCycle st ts w)) = aiWatchlist st /\
  (forall sym, In sym (tradeAttempts (cycleTrace (tradeCycle st ts w))) ->
     reported snap sym = false /\
     exists stock, In stock (aiWatchlist st) /\ ticker stock = sym) /\
  (forall o, In o (submittedOrders (cycleTrace (tradeCycle st ts w))) ->
     reported snap (order_symbol o) = false /\
     order_side o = "buy"%string /\
     gtb (order_qty o) (Fin 0) = true) /\
  (capReachedBy st snap = true ->
   tradeAttempts (cycleTrace (tradeCycle st ts w)) = []).
Proof.
  intros Hrun Hans.
  destruct (cycle_attempts st ts w snap Hrun Hans) as [-> ->].
  rewrite (tradeCycle_resolved st ts w snap Hrun Hans).
  unfold cycleState. cbn [fst].
  destruct (refreshedForCycle_fields st w snap) as (Hp & Hwl & Hs & _ & _).
  set (st2 := refreshedForCycle st w snap) in *.
  assert (Hholds : forall sym, holds st2 sym = reported snap sym).
  { intros sym. unfold holds, reported. rewrite Hp. reflexivity. }
  split; [|split; [|split; [|split]]].
  - rewrite (proj2 (proj2 (CycleFacts.strategyStep_keeps st2 w))). exact Hp.
  - unfold strategyStep. destruct (isMarketOpen _ _ _); cbn [fst]; [|exact Hwl].
    destruct (ScalpingMoreFacts.runScalpingStrategy_flag_only st2 (tradeAnswers w))
      as [->| ->]; exact Hwl.
  - intros sym. unfold strategyStep.
    destruct (isMarketOpen _ _ _); [|intros []].
    intros Hin.
    destruct (ScalpingMoreFacts.attempts_not_held st2 (tradeAnswers w) sym Hin)
      as [Hh Hex].
    rewrite <- Hholds, <- Hwl. split; assumption.
  - intros o. unfold strategyStep.
    destruct (isMarketOpen _ _ _); [|intros []].
    intros Hin.
    destruct (ScalpingMoreFacts.orders_shape st2 (tradeAnswers w)) as (Hall & _).
    rewrite Forall_forall in Hall.
    destruct (Hall o Hin) as (Hside & Hq & Hh & _).
    rewrite <- Hholds. repeat split; assumption.
  - intros Hcap. unfold strategyStep.
    destruct (isMarketOpen _ _ _); [|reflexivity].
    rewrite ScalpingMoreFacts.attempts_shape.
    destruct (aiWatchlist st2); [reflexivity|].
    unfold Strategy.capReached. rewrite Hp, Hs.
    unfold capReachedBy in Hcap. rewrite Hcap. reflexivity.
Qed.

Lemma cycle_trades_on_fresh_positions_witness :
  tradeAttempts (cycleTrace (tradeCycle yesterdayState bothTimers
                                        (mondayNoon (Resolved snapshotHoldingB))))
  = ["A"%string] /\
  reported snapshotHoldingB "A" = false /\
  positions (cycleState (tradeCycle yesterdayState bothTimers
                                    (mondayNoon (Resolved snapshotHoldingB))))
  = snap_positions snapshotHoldingB.
Proof.
  pose proof (cycle_trades_on_fresh_positions
                yesterdayState bothTimers (mondayNoon (Resolved snapshotHoldingB))
                snapshotHoldingB eq_refl eq_refl) as (Hp & _ & Hat & _).
  split; [reflexivity|]. split; [|exact Hp].
  apply (Hat "A"%string). vm_compute. left. reflexivity.
Defined.

End CycleMoreFacts.

(* ================================================================== *)
(** * Runs of the two interval callbacks *)
(* ================================================================== *)

Module RunFacts.
Import Api App Strategy CycleSpec PortfolioSpec ScalpingMoreSpec AnalysisMoreSpec
       CycleMoreSpec RunSpec.

Lemma analysis_trace_quiet (answers : nat -> CandidateAnswers) (candidates : list string) :
  forall i,
  tradeAttempts (snd (analyzeCandidates answers i candidates)) = [] /\
  submittedOrders (snd (analyzeCandidates answers i candidates)) = [] /\
  clearedTimers (snd (analyzeCandidates answers i candidates)) = [].
Proof.
  induction candidates as [|sym rest IH]; intros i; [repeat split|].
  cbn [analyzeCandidates]. specialize (IH (S i)).
  destruct (analyzeCandidates answers (S i) rest) as [stocks t]. cbn [snd] in *.
  unfold candidateLog.
  destruct (indicatorsAnswer (answers i)); cbn; exact IH.
Qed.

Lemma runAiDrivenAnalysis_quiet (st : State) (world : AnalysisAnswers) :
  tradeAttempts (snd (runAiDrivenAnalysis st world)) = [] /\
  submittedOrders (snd (runAiDrivenAnalysis st world)) = [] /\
  clearedTimers (snd (runAiDrivenAnalysis st world)) = [].
Proof.
  unfold runAiDrivenAnalysis.
  destruct (isBotRunning st); cbn [negb]; [|repeat split].
  destruct (moversAnswer world) as [[|c cs]|e]; [repeat split| |repeat split].
  destruct (newsAnswer world) as [headlines|e]; [|repeat split].
  pose proof (analysis_trace_quiet (candidateAnswers world) (c :: cs) 0%nat) as Hq.
  destruct (analyzeCandidates (candidateAnswers world) 0 (c :: cs)) as [stocks t].
  cbn [snd] in Hq. destruct Hq as (Ha & Ho & Hc).
  assert (Hpre : forall tail,
             tradeAttempts tail = [] -> submittedOrders tail = [] ->
             clearedTimers tail = [] ->
             tradeAttempts ((Log LogAiAnalysis ::
               (if noHeadlines headlines then [Log LogNoHeadlines] else []) ++ t) ++ tail) = [] /\
             submittedOrders ((Log LogAiAnalysis ::
               (if noHeadlines headlines then [Log LogNoHeadlines] else []) ++ t) ++ tail) = [] /\
             clearedTimers ((Log LogAiAnalysis ::
               (if noHeadlines headlines then [Log LogNoHeadlines] else []) ++ t) ++ tail) = []).
  { intros tail Ht1 Ht2 Ht3.
    rewrite ScalpingFacts.tradeAttempts_app, ScalpingMoreFacts.submittedOrders_app,
      CycleFacts.clearedTimers_app, Ht1, Ht2, Ht3, !app_nil_r.
    destruct (noHeadlines headlines); cbn; repeat split; assumption. }
  destruct stocks as [|s ss]; cbn [snd]; apply Hpre; reflexivity.
Qed.

Lemma runAiDrivenAnalysis_watchlist_only (st : State) (world : AnalysisAnswers) :
  fst (runAiDrivenAnalysis st world)
  = set_aiWatchlist (aiWatchlist (fst (runAiDrivenAnalysis st world))) st.
Proof.
  destruct (AnalysisMoreFacts.runAiDrivenAnalysis_state st world)
    as [->|(e & stocks & cands & _ & ->)].
  - symmetry. apply AnalysisMoreFacts.set_aiWatchlist_same.
  - destruct st; reflexivity.
Qed.

Lemma runAiDrivenAnalysis_ranked (st : State) (world : AnalysisAnswers) :
  rankedWatchlist st -> rankedWatchlist (fst (runAiDrivenAnalysis st world)).
Proof.
  intros [Hq Hd].
  destruct (AnalysisMoreFacts.runAiDrivenAnalysis_state st world)
    as [->|(e & stocks & cands & Hloop & ->)]; [split; assumption|].
  assert (Hall : Forall AnalysisSpec.qualified (e :: stocks)).
  { rewrite <- Hloop. apply AnalysisFacts.analyzeCandidates_qualified. }
  unfold rankedWatchlist. cbn [aiWatchlist set_aiWatchlist]. split.
  - eapply Permutation_Forall; [apply AnalysisFacts.sortByConfidence_perm | exact Hall].
  - apply AnalysisFacts.sortByConfidence_descending, Hall.
Qed.

(** What one cycle leaves of the state: settings and watchlist. *)
Lemma tradeCycle_keeps (st : State) (ts : Timers) (w : CycleWorld) :
  settings (cycleState (tradeCycle st ts w)) = settings st /\
  aiWatchlist (cycleState (tradeCycle st ts w)) = aiWatchlist st.
Proof.
  assert (Hdate : settings (afterDateCheck st w) = settings st /\
                  aiWatchlist (afterDateCheck st w) = aiWatchlist st).
  { unfold afterDateCheck. destruct (sameDate _ _); split; reflexivity. }
  assert (Hstep : forall s, settings (fst (strategyStep s w)) = settings s /\
                            aiWatchlist (fst (strategyStep s w)) = aiWatchlist s).
  { intros s. unfold strategyStep. destruct (isMarketOpen _ _ _); [|split; reflexivity].
    destruct (ScalpingMoreFacts.runScalpingStrategy_flag_only s (tradeAnswers w))
      as [->| ->]; split; reflexivity. }
  destruct (isBotRunning st) eqn:Hrun.
  2:{ rewrite (CycleFacts.tradeCycle_stopped st ts w Hrun). split; reflexivity. }
  destruct (refreshAnswer w) as [snap|e] eqn:Hans.
  - rewrite (CycleMoreFacts.tradeCycle_resolved st ts w snap Hrun Hans).
    unfold cycleState. cbn [fst].
    destruct (Hstep (refreshedForCycle st w snap)) as [-> ->].
    destruct (CycleMoreFacts.refreshedForCycle_fields st w snap) as (_ & Hwl & Hs & _).
    split; assumption.
  - destruct (isAuthError e) eqn:He.
    + apply CycleMoreFacts.isAuthError_eq in He. subst e.
      rewrite (CycleFacts.tradeCycle_auth_failure st ts w Hrun Hans).
      unfold cycleState. cbn [fst settings aiWatchlist set_isBotRunning]. exact Hdate.
    + rewrite (CycleFacts.tradeCycle_other_failure st ts w e Hrun Hans He).
      unfold cycleState. cbn [fst].
      destruct (Hstep (afterDateCheck st w)) as [-> ->]. exact Hdate.
Qed.

(** One cycle of a running bot leaves it running with the timers as they
    were, or stopped with both timers cancelled. *)
Lemma tradeCycle_running_or_stopped (st : State) (ts : Timers) (w : CycleWorld) :
  isBotRunning st = true ->
  (isBotRunning (cycleState (tradeCycle st ts w)) = true /\
   cycleTimers (tradeCycle st ts w) = ts) \/
  (isBotRunning (cycleState (tradeCycle st ts w)) = false /\
   cycleTimers (tradeCycle st ts w) = mkTimers false false /\
   refreshAnswer w = Rejected AuthError).
Proof.
  intros Hrun.
  destruct (refreshAnswer w) as [snap|e] eqn:Hans.
  - left. rewrite (CycleMoreFacts.tradeCycle_resolved st ts w snap Hrun Hans).
    unfold cycleState, cycleTimers. cbn [fst snd].
    rewrite (proj1 (CycleFacts.strategyStep_keeps _ w)).
    unfold refreshedForCycle. rewrite PortfolioFacts.refreshed_eq.
    cbn [isBotRunning set_refresh].
    rewrite CycleFacts.afterDateCheck_running. split; [exact Hrun | reflexivity].
  - destruct (isAuthError e) eqn:He.
    + apply CycleMoreFacts.isAuthError_eq in He. subst e. right.
      rewrite (CycleFacts.tradeCycle_auth_failure st ts w Hrun Hans).
      repeat split.
    + left. rewrite (CycleFacts.tradeCycle_other_failure st ts w e Hrun Hans He).
      unfold cycleState, cycleTimers. cbn [fst snd].
      rewrite (proj1 (CycleFacts.strategyStep_keeps _ w)).
      rewrite CycleFacts.afterDateCheck_running. split; [exact Hrun | reflexivity].
Qed.

Lemma tick_stopped (st : State) (ts : Timers) (t : Tick) :
  isBotRunning st = false -> tick st ts t = (st, ts, []).
Proof.
  intros Hrun. destruct t as [w|w]; cbn [tick].
  - apply CycleFacts.tradeCycle_stopped, Hrun.
  - unfold runAiDrivenAnalysis. rewrite Hrun. reflexivity.
Qed.

Lemma runTicks_stopped (st : State) (ts : Timers) (ticks : list Tick) :
  isBotRunning st = false -> runTicks st ts ticks = (st, ts, []).
Proof.
  intros Hrun. induction ticks as [|t rest IH]; [reflexivity|].
  cbn [runTicks]. rewrite (tick_stopped st ts t Hrun).
  unfold cycleState, cycleTimers, cycleTrace in *. cbn [fst snd].
  rewrite IH. reflexivity.
Qed.

Lemma tick_step (st : State) (ts : Timers) (t : Tick) :
  isBotRunning st = true ->
  settings (cycleState (tick st ts t)) = settings st /\
  (rankedWatchlist st -> rankedWatchlist (cycleState (tick st ts t))) /\
  Forall buyOrder (submittedOrders (cycleTrace (tick st ts t))) /\
  ((isBotRunning (cycleState (tick st ts t)) = true /\
    cycleTimers (tick st ts t) = ts) \/
   (isBotRunning (cycleState (tick st ts t)) = false /\
    cycleTimers (tick st ts t) = mkTimers false false)).
Proof.
  intros Hrun. destruct t as [w|w]; cbn [tick].
  - destruct (tradeCycle_keeps st ts w) as [Hs Hw].
    split; [exact Hs|]. split; [|split].
    + unfold rankedWatchlist. rewrite Hw. exact (fun H => H).
    + destruct (CycleMoreFacts.cycle_cases st ts w)
        as [(_ & -> & _)|(_ & _ & st2 & _ & ->)]; [constructor|].
      unfold strategyStep. destruct (isMarketOpen _ _ _); [|constructor].
      destruct (ScalpingMoreFacts.orders_shape st2 (tradeAnswers w)) as (Hall & _).
      eapply Forall_impl; [|exact Hall].
      intros o (Hside & Hq & _). split; assumption.
    + destruct (tradeCycle_running_or_stopped st ts w Hrun) as [H|(H1 & H2 & _)];
        [left; exact H | right; split; assumption].
  - unfold cycleState, cycleTimers, cycleTrace. cbn [fst snd].
    split; [|split; [|split]].
    + rewrite (runAiDrivenAnalysis_watchlist_only st w). reflexivity.
    + apply runAiDrivenAnalysis_ranked.
    + rewrite (proj1 (proj2 (runAiDrivenAnalysis_quiet st w))). constructor.
    + left. rewrite (runAiDrivenAnalysis_watchlist_only st w).
      split; [exact Hrun | reflexivity].
Qed.

(** X16. Over any run of the two interval callbacks, whatever the network
    answers: the settings never change; a bot that is not running does
    nothing at all, and never starts running again; a watchlist of BUYs of
    confidence at least 7 in descending order stays one; every order
    submitted is a buy of a quantity above 0; and a bot that was running and
    ends not running has both its intervals cancelled. *)
Theorem runTicks_invariants (ticks : list Tick) :
  forall (st : State) (ts : Timers),
  settings (cycleState (runTicks st ts ticks)) = settings st /\
  (isBotRunning st = false -> runTicks st ts ticks = (st, ts, [])) /\
  (rankedWatchlist st -> rankedWatchlist (cycleState (runTicks st ts ticks))) /\
  Forall buyOrder (submittedOrders (cycleTrace (runTicks st ts ticks))) /\
  (isBotRunning st = true ->
   isBotRunning (cycleState (runTicks st ts ticks)) = false ->
   cycleTimers (runTicks st ts ticks) = mkTimers false false).
Proof.
  induction ticks as [|t rest IH]; intros st ts.
  { unfold cycleState, cycleTimers, cycleTrace. cbn [runTicks fst snd submittedOrders].
    split; [reflexivity|]. split; [reflexivity|]. split; [exact (fun H => H)|].
    split; [constructor|]. intros H1 H2. rewrite H1 in H2. discriminate. }
  destruct (isBotRunning st) eqn:Hrun.
  2:{ rewrite (runTicks_stopped st ts (t :: rest) Hrun).
      unfold cycleState, cycleTimers, cycleTrace. cbn [fst snd submittedOrders].
      split; [reflexivity|]. split; [reflexivity|]. split; [exact (fun H => H)|].
      split; [constructor|]. discriminate. }
  destruct (tick_step st ts t Hrun) as (Hs & Hr & Ho & Hcase).
  cbn [runTicks].
  destruct (IH (cycleState (tick st ts t)) (cycleTimers (tick st ts t)))
    as (IHs & IHstop & IHr & IHo & IHt).
  unfold cycleState, cycleTimers, cycleTrace in *. cbn [fst snd].
  split; [rewrite IHs; exact Hs|].
  split; [discriminate|].
  split; [intros H; apply IHr, Hr, H|].
  split.
  { rewrite ScalpingMoreFacts.submittedOrders_app. apply Forall_app. split; assumption. }
  intros _ Hend.
  destruct Hcase as [[Hrun' Hts]|[Hstop Hts]].
  - apply IHt; assumption.
  - rewrite (IHstop Hstop). cbn [fst snd]. exact Hts.
Qed.

Lemma runTicks_invariants_witness :
  cycleTimers (runTicks AnalysisMoreSpec.startedState bothTimers authFailureRun)
  = mkTimers false false /\
  runTicks initialState bothTimers authFailureRun = (initialState, bothTimers, []).
Proof.
  destruct (runTicks_invariants authFailureRun AnalysisMoreSpec.startedState bothTimers)
    as (_ & _ & _ & _ & Ht).
  destruct (runTicks_invariants authFailureRun initialState bothTimers)
    as (_ & Hs & _).
  split.
  - apply Ht; reflexivity.
  - apply Hs. reflexivity.
Defined.

End RunFacts.

(* ================================================================== *)
(** * calculateRSI on prices that move one way *)
(* ================================================================== *)

Module TrendFacts.
Import Utils TrendSpec.
Local Open Scope Q_scope.

Lemma neverFalls_nth (qs : list Q) :
  neverFalls qs = true ->
  forall i, (1 <= i < length qs)%nat -> nth (i - 1) qs 0 <= nth i qs 0.
Proof.
  induction qs as [|a rest IH]; intros H i Hi; [cbn in Hi; lia|].
  destruct rest as [|b rest']; [cbn in Hi; lia|].
  cbn [neverFalls] in H. apply andb_true_iff in H as [Hab Hrest].
  apply Qle_bool_iff in Hab.
  destruct i as [|[|i]]; [lia | exact Hab |].
  specialize (IH Hrest (S i)). cbn [length] in Hi, IH.
  replace (S (S i) - 1)%nat with (S i) by lia.
  replace (S i - 1)%nat with i in IH by lia.
  cbn [nth] in *. apply IH. lia.
Qed.

Lemma alwaysFalls_nth (qs : list Q) :
  alwaysFalls qs = true ->
  forall i, (1 <= i < length qs)%nat -> nth i qs 0 < nth (i - 1) qs 0.
Proof.
  induction qs as [|a rest IH]; intros H i Hi; [cbn in Hi; lia|].
  destruct rest as [|b rest']; [cbn in Hi; lia|].
  cbn [alwaysFalls] in H. apply andb_true_iff in H as [Hab Hrest].
  apply negb_true_iff in Hab.
  assert (Hlt : b < a).
  { apply Qnot_le_lt. intros Hle. apply Qle_bool_iff in Hle. congruence. }
  destruct i as [|[|i]]; [lia | exact Hlt |].
  specialize (IH Hrest (S i)). cbn [length] in Hi, IH.
  replace (S (S i) - 1)%nat with (S i) by lia.
  replace (S i - 1)%nat with i in IH by lia.
  cbn [nth] in *. apply IH. lia.
Qed.

Lemma geb_Fin_0_true (d : Q) : 0 <= d -> geb (Fin d) (Fin 0) = true.
Proof. apply geb_Fin_0. Qed.

Lemma geb_Fin_0_neg (d : Q) : d < 0 -> geb (Fin d) (Fin 0) = false.
Proof. apply geb_Fin_0_false. Qed.

(** *** Prices that never fall *)

Lemma seed_gain_only (qs : list Q) (acc : num * num) (i : nat) :
  neverFalls qs = true ->
  gain_only acc -> (1 <= i < length qs)%nat ->
  gain_only (rsi_seed_step (map Fin qs) acc i).
Proof.
  intros Hup (g & l & -> & Hl) Hi. unfold rsi_seed_step.
  rewrite !RsiFacts.get_map_Fin by lia. cbn [sub neg add].
  pose proof (neverFalls_nth qs Hup i Hi) as Hd.
  rewrite geb_Fin_0_true by lra.
  eexists _, l. split; [reflexivity | exact Hl].
Qed.

Lemma smooth_gain_only (qs : list Q) (period : nat) (acc : num * num) (i : nat) :
  (1 <= period)%nat -> neverFalls qs = true ->
  gain_only acc -> (1 <= i < length qs)%nat ->
  gain_only (rsi_smooth_step (map Fin qs) period acc i).
Proof.
  intros Hp Hup (g & l & -> & Hl) Hi. unfold rsi_smooth_step.
  rewrite !RsiFacts.get_map_Fin by lia. unfold of_nat, of_Z. cbn [sub neg add mul].
  pose proof (neverFalls_nth qs Hup i Hi) as Hd.
  pose proof (of_nat_pos period Hp) as Hp1. set (p := inject_Z (Z.of_nat period)) in *.
  rewrite geb_Fin_0_true by lra.
  rewrite !div_Fin_nz by lra.
  eexists _, _. split; [reflexivity|].
  rewrite Hl. unfold Qdiv. ring.
Qed.

Lemma averages_gain_only (qs : list Q) (period : nat) :
  (1 <= period < length qs)%nat -> neverFalls qs = true ->
  gain_only (rsi_averages (map Fin qs) period).
Proof.
  intros Hp Hup. unfold rsi_averages.
  assert (Hseed : gain_only
            (fold_left (rsi_seed_step (map Fin qs)) (seq 1 period) (Fin 0, Fin 0))).
  { apply fold_left_invariant with (R := fun i => (1 <= i < length qs)%nat).
    - intros a b Ha Hb. apply seed_gain_only; assumption.
    - apply Forall_seq. intros i Hi. lia.
    - exists 0, 0. split; reflexivity. }
  destruct Hseed as (g & l & -> & Hl).
  apply fold_left_invariant with (R := fun i => (1 <= i < length qs)%nat).
  - intros a b Ha Hb. apply smooth_gain_only; [lia | assumption..].
  - apply Forall_seq. intros i Hi. rewrite length_map in Hi. lia.
  - pose proof (of_nat_pos period ltac:(lia)) as Hp1.
    unfold of_nat, of_Z. rewrite !div_Fin_nz by lra.
    eexists _, _. split; [reflexivity|]. rewrite Hl. unfold Qdiv. ring.
Qed.

(** *** Prices that always fall *)

Lemma seed_first_loss (qs : list Q) :
  alwaysFalls qs = true -> (1 < length qs)%nat ->
  loss_only (rsi_seed_step (map Fin qs) (Fin 0, Fin 0) 1).
Proof.
  intros Hdown Hlen. unfold rsi_seed_step.
  rewrite !RsiFacts.get_map_Fin by lia. cbn [sub neg add].
  pose proof (alwaysFalls_nth qs Hdown 1%nat ltac:(lia)) as Hd.
  rewrite geb_Fin_0_neg by lra.
  eexists _, _. split; [reflexivity|]. split; [reflexivity | lra].
Qed.

Lemma seed_loss_only (qs : list Q) (acc : num * num) (i : nat) :
  alwaysFalls qs = true ->
  loss_only acc -> (1 <= i < length qs)%nat ->
  loss_only (rsi_seed_step (map Fin qs) acc i).
Proof.
  intros Hdown (g & l & -> & Hg & Hl) Hi. unfold rsi_seed_step.
  rewrite !RsiFacts.get_map_Fin by lia. cbn [sub neg add].
  pose proof (alwaysFalls_nth qs Hdown i Hi) as Hd.
  rewrite geb_Fin_0_neg by lra.
  eexists _, _. split; [reflexivity|]. split; [exact Hg | lra].
Qed.

Lemma smooth_loss_only (qs : list Q) (period : nat) (acc : num * num) (i : nat) :
  (1 <= period)%nat -> alwaysFalls qs = true ->
  loss_only acc -> (1 <= i < length qs)%nat ->
  loss_only (rsi_smooth_step (map Fin qs) period acc i).
Proof.
  intros Hp Hdown (g & l & -> & Hg & Hl) Hi. unfold rsi_smooth_step.
  rewrite !RsiFacts.get_map_Fin by lia. unfold of_nat, of_Z. cbn [sub neg add mul].
  pose proof (alwaysFalls_nth qs Hdown i Hi) as Hd.
  pose proof (of_nat_pos period Hp) as Hp1. set (p := inject_Z (Z.of_nat period)) in *.
  rewrite geb_Fin_0_neg by lra.
  rewrite !div_Fin_nz by lra.
  eexists _, _. split; [reflexivity|]. split.
  - rewrite Hg. unfold Qdiv. ring.
  - assert (Hlp : 0 <= l * (p + - 1)) by (apply Qmult_le_0_compat; lra).
    apply Qlt_shift_div_l; lra.
Qed.

Lemma averages_loss_only (qs : list Q) (period : nat) :
  (1 <= period < length qs)%nat -> alwaysFalls qs = true ->
  loss_only (rsi_averages (map Fin qs) period).
Proof.
  intros Hp Hdown. unfold rsi_averages.
  assert (Hseed : loss_only
            (fold_left (rsi_seed_step (map Fin qs)) (seq 1 period) (Fin 0, Fin 0))).
  { destruct period as [|period']; [lia|]. cbn [seq fold_left].
    apply fold_left_invariant with (R := fun i => (1 <= i < length qs)%nat).
    - intros a b Ha Hb. apply seed_loss_only; assumption.
    - apply Forall_seq. intros i Hi. lia.
    - apply seed_first_loss; [assumption | lia]. }
  destruct Hseed as (g & l & -> & Hg & Hl).
  apply fold_left_invariant with (R := fun i => (1 <= i < length qs)%nat).
  - intros a b Ha Hb. apply smooth_loss_only; [lia | assumption..].
  - apply Forall_seq. intros i Hi. rewrite length_map in Hi. lia.
  - pose proof (of_nat_pos period ltac:(lia)) as Hp1.
    unfold of_nat, of_Z. rewrite !div_Fin_nz by lra.
    eexists _, _. split; [reflexivity|]. split.
    + rewrite Hg. unfold Qdiv. ring.
    + apply Qlt_shift_div_l; lra.
Qed.

(** X17. On more than [period] finite prices, [period] at least 1:
    prices that never fall give an RSI of exactly 100, flat prices included
    (a market that does not move reads as wholly overbought, not as the
    neutral 50); prices that fall at every step give an RSI of value 0. *)
Theorem calculateRSI_one_way (qs : list Q) (period : nat) :
  (1 <= period < length qs)%nat ->
  (neverFalls qs = true -> calculateRSI (map Fin qs) period = Fin 100) /\
  (alwaysFalls qs = true -> (calculateRSI (map Fin qs) period =~ Fin 0)%num).
Proof.
  intros Hp. split; intros Hmove;
    rewrite RsiFacts.calculateRSI_long by (rewrite length_map; lia).
  - destruct (averages_gain_only qs period Hp Hmove) as (g & l & -> & Hl).
    apply eqb_Fin in Hl. rewrite Hl. reflexivity.
  - destruct (averages_loss_only qs period Hp Hmove) as (g & l & -> & Hg & Hl).
    destruct (Fin l === Fin 0)%num eqn:E.
    { apply eqb_Fin in E. lra. }
    rewrite div_Fin_nz by lra. cbn [add].
    assert (Hrs : g / l == 0) by (rewrite Hg; unfold Qdiv; ring).
    rewrite div_Fin_nz by (rewrite Hrs; lra).
    cbn [sub neg add num_eq]. rewrite Hrs. reflexivity.
Qed.

Lemma calculateRSI_one_way_witness :
  calculateRSI (map Fin flat15) 14 = Fin 100 /\
  (calculateRSI (map Fin falling15) 14 =~ Fin 0)%num.
Proof.
  split.
  - apply (proj1 (calculateRSI_one_way flat15 14 ltac:(cbn; lia))). reflexivity.
  - apply (proj2 (calculateRSI_one_way falling15 14 ltac:(cbn; lia))). reflexivity.
Defined.

End TrendFacts.

(* ================================================================== *)
(** * Loading what was saved *)
(* ================================================================== *)

Module DataFacts.
Import Data DataSpec.

Lemma savedPoint_loaded (d : PerfPoint) (p : FilePoint) :
  savedPoint d = Some p -> loadedPoint p = d.
Proof.
  unfold savedPoint, loadedPoint. destruct d as [[day|] v]; cbn; [|discriminate].
  destruct (finiteb v); [|discriminate]. intros [= <-]. reflexivity.
Qed.

Lemma savedPoints_loaded (perf : list PerfPoint) :
  forall points, savedPoints perf = Some points -> map loadedPoint points = perf.
Proof.
  induction perf as [|d rest IH]; intros points; cbn [savedPoints].
  - intros [= <-]. reflexivity.
  - destruct (savedPoint d) as [p|] eqn:Hp; [|discriminate].
    destruct (savedPoints rest) as [ps|]; [|discriminate].
    intros [= <-]. cbn [map]. rewrite (savedPoint_loaded d p Hp), (IH ps eq_refl).
    reflexivity.
Qed.

Lemma savedSettings_merged (s old : Settings) (f : FileSettings) :
  savedSettings s = Some f -> mergeSettings old f = s.
Proof.
  unfold savedSettings. destruct (_ && _); [|discriminate].
  intros [= <-]. destruct s; reflexivity.
Qed.

Lemma loadedDate_keeps (d : option string) :
  d <> Some ""%string -> loadedDate d = d.
Proof.
  intros H. destruct d as [s|]; [|reflexivity]. cbn.
  destruct (String.eqb_spec s ""); [subst; contradiction|reflexivity].
Qed.

(** X18. Loading what was saved.  Let the data of state [st] be saved
    (all its numbers finite, every point of the curve dated) and later
    loaded into a state [st0].  Settings, the first-trade flag and the last
    trade date (unless it is the empty string) come back as they were in
    [st]; whether the bot runs, the positions and the watchlist stay those of
    [st0].  If [initial_equity] of [st] is not 0, the equity curve and
    [initial_equity] come back, and both [equity] and [last_equity] become
    the equity of the last point of the curve.  If it is 0, the saved curve
    is not read at all: curve and portfolio stay those of [st0]. *)
Theorem load_restores_saved (st st0 : State) (data : DataFile) :
  dataToSave st = Some data ->
  let st' := fst (loadDataFromFile (Parsed data) st0) in
  settings st' = settings st /\
  isFirstTradeMadeToday st' = isFirstTradeMadeToday st /\
  (lastTradeDate st <> Some ""%string -> lastTradeDate st' = lastTradeDate st) /\
  isBotRunning st' = isBotRunning st0 /\
  positions st' = positions st0 /\
  aiWatchlist st' = aiWatchlist st0 /\
  (truthy (initial_equity (portfolio st)) = true ->
   performanceData st' = performanceData st /\
   initial_equity (portfolio st') = initial_equity (portfolio st) /\
   forall entry, lastEntry (performanceData st) = Some entry ->
     equity (portfolio st') = y entry /\ last_equity (portfolio st') = y entry) /\
  (truthy (initial_equity (portfolio st)) = false ->
   performanceData st' = performanceData st0 /\ portfolio st' = portfolio st0).
Proof.
  unfold dataToSave.
  destruct (savedPoints (performanceData st)) as [points|] eqn:Hpts; [|discriminate].
  destruct (savedSettings (settings st)) as [f|] eqn:Hset; [|discriminate].
  destruct (finiteb (initial_equity (portfolio st))); [|discriminate].
  intros [= <-].
  apply savedPoints_loaded in Hpts.
  cbn zeta. cbn [loadDataFromFile fst]. unfold applyData.
  cbn [file_settings file_performanceData file_initialEquity
       file_isFirstTradeMadeToday file_lastTradeDate].
  rewrite Hpts, (savedSettings_merged (settings st) (settings st0) f Hset).
  destruct (truthy (initial_equity (portfolio st))) eqn:Ht;
    cbn [settings isFirstTradeMadeToday lastTradeDate isBotRunning positions
         aiWatchlist performanceData portfolio];
    (split; [reflexivity|]); (split; [reflexivity|]);
    (split; [apply loadedDate_keeps|]);
    (split; [reflexivity|]); (split; [reflexivity|]); (split; [reflexivity|]).
  - split; [|discriminate]. intros _. split; [reflexivity|]. unfold loadedPortfolio.
    split; [destruct (lastEntry _); reflexivity|].
    intros entry ->. split; reflexivity.
  - split; [discriminate|]. intros _. split; reflexivity.
Qed.

Lemma load_restores_saved_witness :
  performanceData (fst (loadDataFromFile
                          (Parsed (mkDataFile
                             (Some [mkFilePoint "2026-10-30" (Fin 9900);
                                    mkFilePoint "2026-11-02" (Fin 10000)])
                             (Some (Fin 9500))
                             (Some (mkFileSettings (Some (Fin 2)) (Some (Fin 3))
                                                   (Some (Fin (5 # 100))) (Some (Fin 15))))
                             (Some true) (Some "11/2/2026"%string)))
                          initialState))
  = PortfolioSpec.twoDays.
Proof.
  pose proof (load_restores_saved eveningState initialState _ eq_refl)
    as (_ & _ & _ & _ & _ & _ & Hcurve & _).
  apply Hcurve. reflexivity.
Defined.

End DataFacts.

(* ================================================================== *)
(** * calculateATR on a market that does not move *)
(* ================================================================== *)

Module FlatFacts.
Import Utils FlatSpec.
Local Open Scope Q_scope.

Lemma valued_num_eq (c : Q) (x : num) : valued c x -> (x =~ Fin c)%num.
Proof. intros (q & -> & Hq). exact Hq. Qed.

Lemma max2_valued (c : Q) (x y : num) :
  valued c x -> valued c y -> valued c (max2 x y).
Proof.
  intros (a & -> & Ha) (b & -> & Hb). unfold max2, cmp.
  destruct (a ?= b); [exists a | exists b | exists a]; split; auto.
Qed.

Lemma trueRange_flat (c : Q) (n i : nat) :
  (1 <= i < n)%nat -> valued 0 (trueRange (flatMarket c n) i).
Proof.
  intros Hi. unfold trueRange, getBar, flatMarket.
  rewrite !(nth_indep _ bar_undefined (flatBar c)) by (rewrite repeat_length; lia).
  rewrite !nth_repeat. cbn [Utils.h Utils.l Utils.c flatBar sub add neg abs]. unfold max3.
  assert (Hz : valued 0 (Fin (c + - c))) by (eexists; split; [reflexivity | ring]).
  assert (Ha : valued 0 (Fin (Qabs (c + - c)))).
  { eexists. split; [reflexivity|].
    assert (E : c + - c == 0) by ring. rewrite E. reflexivity. }
  repeat apply max2_valued; assumption.
Qed.

Lemma sum_valued_0 (xs : list num) : Forall (valued 0) xs -> valued 0 (sum xs).
Proof.
  intros H. unfold sum.
  apply fold_left_invariant with (R := valued 0); try assumption.
  - intros a b (x & -> & Hx) (y & -> & Hy). cbn [add].
    eexists. split; [reflexivity|]. rewrite Hx, Hy. ring.
  - exists 0. split; reflexivity.
Qed.

(** X19. On a market that does not move -- every bar with high, low and
    close at the same price -- [calculateATR] returns an ATR of value 0,
    whatever the number of bars and for every period of at least 1: every
    true range is 0 and so is their sum.  This is the ATR by which
    [executeTrade] divides. *)
Theorem flat_market_atr (c : Q) (n period : nat) :
  (1 <= period)%nat ->
  Forall (valued 0) (trueRanges (flatMarket c n)) /\
  (calculateATR (flatMarket c n) period =~ Fin 0)%num.
Proof.
  intros Hp.
  assert (Hall : Forall (valued 0) (trueRanges (flatMarket c n))).
  { unfold trueRanges. apply Forall_map, Forall_seq. intros i Hi.
    unfold flatMarket in Hi. rewrite repeat_length in Hi.
    apply trueRange_flat. lia. }
  split; [exact Hall|].
  apply valued_num_eq. unfold calculateATR.
  destruct (length (flatMarket c n) <? period)%nat;
    [exists 0; split; reflexivity|].
  assert (Hsl : Forall (valued 0) (slice_last period (trueRanges (flatMarket c n)))).
  { unfold slice_last. destruct period; [exact Hall | apply AtrFacts.Forall_skipn, Hall]. }
  destruct (sum_valued_0 _ Hsl) as (s & -> & Hs).
  pose proof (of_nat_pos period Hp) as Hp1.
  unfold of_nat, of_Z. rewrite div_Fin_nz by lra.
  eexists. split; [reflexivity|]. rewrite Hs. unfold Qdiv. ring.
Qed.

Lemma flat_market_atr_witness :
  (calculateATR (flatMarket 100 60) 14 =~ Fin 0)%num.
Proof.
  apply (proj2 (flat_market_atr 100 60 14 ltac:(lia))).
Defined.

End FlatFacts.

(* ================================================================== *)
(** * placeBracketOrder: the requests of one order *)
(* ================================================================== *)

Module OrderRequestFacts.
Import Api FetchSpec GatewaySpec OrderRequestSpec.

Section WithJson.

Variable Json : Type.
Implicit Types (net : nat -> Fetched Json).

Lemma fetchCount_app (t1 t2 : list Event) :
  fetchCount (t1 ++ t2) = (fetchCount t1 + fetchCount t2)%nat.
Proof.
  induction t1 as [|e t1 IH]; [reflexivity|].
  destruct e; cbn [app fetchCount]; rewrite IH; reflexivity.
Qed.

Lemma withoutRequests_app (t1 t2 : list Event) :
  withoutRequests (t1 ++ t2) = withoutRequests t1 ++ withoutRequests t2.
Proof. apply filter_app. Qed.

(** [fetchWithBackoff] does nothing but fetch, sleep and log the rate
    limit. *)
Lemma requests_only net (retries : nat) :
  forall n delay,
  withoutRequests (snd (fetchWithBackoff net n retries delay)) = [] /\
  submittedOrders (snd (fetchWithBackoff net n retries delay)) = [].
Proof.
  induction retries as [|retries IH]; intros n delay; cbn [fetchWithBackoff].
  - destruct (net n) as [r|]; [|split; reflexivity].
    destruct (ok r); cbn [negb].
    + destruct (status r =? 204)%Z; [split; reflexivity|].
      destruct (json r); split; reflexivity.
    + destruct (status r =? 401)%Z; [split; reflexivity|].
      destruct (status r =? 429)%Z; destruct (text r); split; reflexivity.
  - specialize (IH (S n) (delay * 2)%Z).
    destruct (fetchWithBackoff net (S n) retries (delay * 2)) as [o t].
    cbn [snd] in IH.
    destruct (net n) as [r|]; [|exact IH].
    destruct (ok r); cbn [negb].
    + destruct (status r =? 204)%Z; [split; reflexivity|].
      destruct (json r); [split; reflexivity | exact IH].
    + destruct (status r =? 401)%Z; [split; reflexivity|].
      destruct (status r =? 429)%Z; [exact IH|].
      destruct (text r); exact IH.
Qed.

(** X20. One order, up to four POSTs.  [placeBracketOrder] hands its
    order to [alpacaFetch] once, and what it logs is decided by how that call
    settles; but the call sends the POST between one and four times: once
    when the first answer is a success or a 401, and again after every
    answer that is a failure of another kind -- a failed fetch, a 429, a 5xx,
    an unreadable body -- so the same order is posted a second time when the
    answer to the first POST is lost. *)
Theorem order_request_may_repeat net (n : nat) (sym : string) (quantity : num)
    (side : string) (limitPrice stopPrice takeProfitPrice : num) :
  let trace := placeBracketOrder_requests net n sym quantity side limitPrice
                 stopPrice takeProfitPrice in
  submittedOrders trace =
    [mkOrder sym quantity side limitPrice stopPrice takeProfitPrice] /\
  withoutRequests trace =
    placeBracketOrder sym quantity side limitPrice stopPrice takeProfitPrice
      (settled (fst (alpacaFetch net n))) /\
  (1 <= fetchCount trace <= 4)%nat /\
  ((exists v, successOf (net n) = Some v) \/ hasStatus 401 (net n) = true ->
   fetchCount trace = 1%nat) /\
  (forall e, failureOf (net n) = Some e -> (2 <= fetchCount trace)%nat).
Proof.
  cbn zeta. unfold placeBracketOrder_requests, alpacaFetch, defaultRetries,
    defaultDelay.
  destruct (requests_only net 3 n 2000%Z) as [Hw Hs].
  destruct (GatewayFacts.backoff_counts Json net 3 n 2000%Z) as (k & Hk & _ & Hc).
  assert (Hone : (exists v, successOf (net n) = Some v) \/ hasStatus 401 (net n) = true ->
                 fetchCount (snd (fetchWithBackoff net n 3 2000)) = 1%nat).
  { intros [[v Hv]|H401].
    - rewrite (FetchFacts.success_resolves Json net n 3 2000%Z v Hv). reflexivity.
    - rewrite (FetchFacts.unauthorized_rejects Json net n 3 2000%Z H401). reflexivity. }
  assert (Htwo : forall e, failureOf (net n) = Some e ->
                 (2 <= fetchCount (snd (fetchWithBackoff net n 3 2000)))%nat).
  { intros e He.
    destruct (GatewayFacts.failure_retries Json net n 2 2000%Z e He) as (_ & _ & ->).
    destruct (GatewayFacts.backoff_counts Json net 2 (S n) (2000 * 2)%Z)
      as (k' & _ & _ & ->). lia. }
  destruct (fetchWithBackoff net n 3 2000) as [answer requests].
  cbn [fst snd] in *.
  assert (Hcount : forall tail,
             fetchCount tail = 0%nat ->
             fetchCount (requests ++ tail) = fetchCount requests).
  { intros tail Ht. rewrite fetchCount_app, Ht. lia. }
  split; [|split; [|split; [|split]]].
  - cbn [submittedOrders]. rewrite ScalpingMoreFacts.submittedOrders_app, Hs.
    destruct answer; reflexivity.
  - unfold withoutRequests at 1. cbn [filter]. fold (withoutRequests
      (requests ++ match answer with
                   | Resolved _ =>
                       [Log (LogOrderPlaced
                               (mkOrder sym quantity side limitPrice stopPrice
                                  takeProfitPrice))]
                   | Rejected e => [Log (LogOrderFailed sym e)]
                   end)).
    rewrite withoutRequests_app, Hw. unfold placeBracketOrder.
    destruct answer; reflexivity.
  - cbn [fetchCount]. rewrite Hcount by (destruct answer; reflexivity). lia.
  - intros H. cbn [fetchCount]. rewrite Hcount by (destruct answer; reflexivity).
    apply Hone, H.
  - intros e He. cbn [fetchCount]. rewrite Hcount by (destruct answer; reflexivity).
    apply (Htwo e He).
Qed.

End WithJson.

Lemma order_request_may_repeat_witness :
  fetchCount (placeBracketOrder_requests net_lost_then_ok 0 "A" (Fin 100) "buy"
                (Fin 100) (Fin 99) (Fin (1015 # 10))) = 2%nat /\
  (2 <= fetchCount (placeBracketOrder_requests net_down 0 "A" (Fin 100) "buy"
                      (Fin 100) (Fin 99) (Fin (1015 # 10))))%nat.
Proof.
  split; [reflexivity|].
  apply (proj2 (proj2 (proj2 (proj2
          (order_request_may_repeat nat net_down 0 "A" (Fin 100) "buy"
             (Fin 100) (Fin 99) (Fin (1015 # 10)))))) NetworkError).
  reflexivity.
Defined.

End OrderRequestFacts.
